(** * ImQuick: a shallow embedding of the viewer's core logic

    The development follows [imquick.py]: the intensity pipeline
    ([rescale_data], [update_contrast]), the levels window kept by two Tk
    variables with write traces ([update_min_display], [update_max_display]),
    the zoom guards, the tile geometry of [show_image], the stack-plane entry
    ([set_z_plane]), file loading ([load_image]) and directory navigation
    ([make_file_list], [next_file], [prev_file]).

    Conventions.
    - Python [int] is [Z]; a NumPy [uint8] sample is a [Z] with the wrap-around
      written as [uint8], and the difference of a sample and a Python [int]
      has the type NumPy 1.x promotes it to ([sub_scalar]); Python and NumPy
      [float] values are rationals [Q] and every floating operation goes
      through one rounding function [rnd] (a section variable), so results
      hold for any rounding that is monotone and exact on small integers,
      exact arithmetic included.
    - An array is its shape and its samples in row-major order.
    - A method of the window object is a state transformer that may raise:
      it returns a [result] together with the state reached, because a Python
      exception leaves every earlier assignment in place.
    - Tk, PIL, imageio and the file system are collaborators: what the canvas
      is told is recorded as a log of commands, and what the canvas answers,
      what PIL accepts ([Toolkit]), decoders, directory listings and path
      functions are parameters. *)

From Stdlib Require Import ZArith QArith Qround List String Ascii Bool Lia Lqa.
Import ListNotations.
Open Scope string_scope.
Open Scope list_scope.
Open Scope Z_scope.

(** ** Numbers *)

Definition Qltb (x y : Q) : bool := negb (Qle_bool y x).

(** [int(x)] on a float, and the C cast behind [astype]: rounding toward zero. *)
Definition trunc (x : Q) : Z := Z.quot (Qnum x) (Zpos (Qden x)).

(** Wrap-around of an unsigned 8-bit sample. *)
Definition uint8 (z : Z) : Z := z mod 256.

(** [x.astype('uint8')] on one sample. *)
Definition astype_uint8 (x : Q) : Z := uint8 (trunc x).

(** The exact rounding: arithmetic on rationals with no error. *)
Definition exact (x : Q) : Q := x.

(** Wrap-around of a signed integer of [bits] bits. *)
Definition wrap_signed (bits z : Z) : Z :=
  (z + 2 ^ (bits - 1)) mod 2 ^ bits - 2 ^ (bits - 1).

(** [a - k] for a sample [a] of an unsigned 8-bit array and a Python int [k],
    as NumPy 1.x computes it: the array keeps its type for [k] in 0..255 and
    is widened otherwise to the smallest type holding both an unsigned 8-bit
    value and [k] (int16, int32 or int64 for a negative [k]; uint16, uint32
    or uint64 above 255), and the difference wraps around in that type.
    Beyond 64 bits the operands are Python objects and the difference is
    exact. *)
Definition sub_scalar (a k : Z) : Z :=
  let d := a - k in
  if andb (0 <=? k) (k <=? 255) then uint8 d
  else if k <? 0 then
    if - 2 ^ 15 <=? k then wrap_signed 16 d
    else if - 2 ^ 31 <=? k then wrap_signed 32 d
    else if - 2 ^ 63 <=? k then wrap_signed 64 d
    else d
  else
    if k <? 2 ^ 16 then d mod 2 ^ 16
    else if k <? 2 ^ 32 then d mod 2 ^ 32
    else if k <? 2 ^ 64 then d mod 2 ^ 64
    else d.

(** ** Arrays *)

Record ndarray (A : Type) : Type := mk_ndarray {
  shape : list nat;
  data : list A
}.
Arguments mk_ndarray {A} _ _.
Arguments shape {A} _.
Arguments data {A} _.

(** An elementwise operation keeps the shape. *)
Definition amap {A B : Type} (f : A -> B) (a : ndarray A) : ndarray B :=
  mk_ndarray (shape a) (map f (data a)).

(** ** Exceptions and results *)

Inductive exn : Type :=
| ValueError
| IndexError
| AttributeError
| TypeError
| ZeroDivisionError
| OSError
| OtherError (tag : nat).

Inductive result (A : Type) : Type :=
| Ok (a : A)
| Exc (e : exn).
Arguments Ok {A} _.
Arguments Exc {A} _.

(** [data.max()]: the largest sample; NumPy raises [ValueError] on an array
    with no element. *)
Fixpoint list_max (acc : Q) (xs : list Q) : Q :=
  match xs with
  | [] => acc
  | x :: rest => list_max (if Qle_bool acc x then x else acc) rest
  end.

Definition array_max (a : ndarray Q) : option Q :=
  match data a with
  | [] => None
  | x :: rest => Some (list_max x rest)
  end.

(** The scale the specification attaches to a raw maximum. *)
Inductive scale : Type :=
| DivideBy (d : Z)
| MultiplyBy (k : Z)
| PassThrough.

(** Modelled after the specification's wording of [normalize]: divide by 265
    if max >= 4096, by 16 if max >= 1024, by 4 if max >= 256, multiply by 256
    if max <= 1, otherwise pass through. *)
Inductive normalize_scale (m : Q) : scale -> Prop :=
| NS_265 : (4096 <= m)%Q -> normalize_scale m (DivideBy 265)
| NS_16 : (1024 <= m)%Q -> (m < 4096)%Q -> normalize_scale m (DivideBy 16)
| NS_4 : (256 <= m)%Q -> (m < 1024)%Q -> normalize_scale m (DivideBy 4)
| NS_mul : (m <= 1)%Q -> normalize_scale m (MultiplyBy 256)
| NS_pass : (1 < m)%Q -> (m < 256)%Q -> normalize_scale m PassThrough.

(** ** Strings and lists, the Python way *)

(** [s.lower()] on ASCII letters; other characters are kept. *)
Definition lower_ascii (c : ascii) : ascii :=
  let n := nat_of_ascii c in
  if (andb (65 <=? n) (n <=? 90))%nat then ascii_of_nat (n + 32) else c.

Fixpoint lower (s : string) : string :=
  match s with
  | EmptyString => EmptyString
  | String c rest => String (lower_ascii c) (lower rest)
  end.

(** Split at the last occurrence of [c]: the text before it and the text
    from it on. *)
Fixpoint rfind_split (c : ascii) (s : string) : option (string * string) :=
  match s with
  | EmptyString => None
  | String a rest =>
      match rfind_split c rest with
      | Some (pre, suf) => Some (String a pre, suf)
      | None => if Ascii.eqb a c then Some (EmptyString, s) else None
      end
  end.

Fixpoint all_dots (s : string) : bool :=
  match s with
  | EmptyString => true
  | String a rest => andb (Ascii.eqb a ".") (all_dots rest)
  end.

Definition basename (p : string) : string :=
  match rfind_split "/" p with
  | Some (_, String _ b) => b
  | _ => p
  end.

(** [os.path.splitext(p)[-1]]: the text from the last dot of the last path
    component, unless only dots come before it (separator [/]). *)
Definition splitext_ext (p : string) : string :=
  match rfind_split "." (basename p) with
  | Some (pre, suf) => if all_dots pre then EmptyString else suf
  | None => EmptyString
  end.

Definition SUPPORTED_EXTENSIONS : list string :=
  [".tif"; ".tiff"; ".gif"; ".png"; ".jpeg"; ".jpg"; ".bmp"; ".npz"; ".itk"].

Definition in_strings (x : string) (l : list string) : bool :=
  existsb (String.eqb x) l.

(** The test applied to a name by [on_drop] and [make_file_list]. *)
Definition supported (name : string) : bool :=
  in_strings (lower (splitext_ext name)) SUPPORTED_EXTENSIONS.

(** [int(text)] in base ten: surrounding white space, one optional sign,
    then digits that single underscores may separate; [None] stands for
    [ValueError].  A character is a code point below 256.  The white space
    [int] skips is the ASCII one (9 to 13, and 32) and, since a string with a
    code point above 127 has its Unicode spaces turned into blanks first, the
    code points 133 and 160; the separators 28 to 31 are not skipped. *)
Definition is_space (c : ascii) : bool :=
  let n := nat_of_ascii c in
  (orb (andb (9 <=? n) (n <=? 13))
       (orb (n =? 32) (orb (n =? 133) (n =? 160))))%nat.

Definition is_digit (c : ascii) : bool :=
  let n := nat_of_ascii c in (andb (48 <=? n) (n <=? 57))%nat.

Definition digit_value (c : ascii) : Z := Z.of_nat (nat_of_ascii c - 48).

Fixpoint lstrip (cs : list ascii) : list ascii :=
  match cs with
  | c :: rest => if is_space c then lstrip rest else cs
  | [] => []
  end.

Definition strip (cs : list ascii) : list ascii :=
  rev (lstrip (rev (lstrip cs))).

Fixpoint digits_value (acc : Z) (after_digit : bool) (cs : list ascii) : option Z :=
  match cs with
  | [] => if after_digit then Some acc else None
  | c :: rest =>
      if is_digit c then digits_value (acc * 10 + digit_value c) true rest
      else if andb (Ascii.eqb c "_") after_digit then digits_value acc false rest
      else None
  end.

Definition py_int (text : string) : option Z :=
  match strip (list_ascii_of_string text) with
  | "+"%char :: rest => digits_value 0 false rest
  | "-"%char :: rest => option_map Z.opp (digits_value 0 false rest)
  | cs => digits_value 0 false cs
  end.

(** [l[i]] with Python's negative indices; [IndexError] outside. *)
Definition py_getitem {A : Type} (l : list A) (i : Z) : result A :=
  let n := Z.of_nat (List.length l) in
  let j := if i <? 0 then i + n else i in
  if orb (j <? 0) (n <=? j) then Exc IndexError
  else match nth_error l (Z.to_nat j) with
       | Some x => Ok x
       | None => Exc IndexError
       end.

(** [l[i] = v] for a non-negative index. *)
Fixpoint py_setitem {A : Type} (l : list A) (i : nat) (v : A) : result (list A) :=
  match l, i with
  | [], _ => Exc IndexError
  | _ :: rest, O => Ok (v :: rest)
  | x :: rest, S j =>
      match py_setitem rest j v with
      | Ok rest' => Ok (x :: rest')
      | Exc e => Exc e
      end
  end.

(** [l.index(x)]: the first position of [x]; [ValueError] when absent. *)
Fixpoint py_index (x : string) (l : list string) : result Z :=
  match l with
  | [] => Exc ValueError
  | y :: rest =>
      if String.eqb y x then Ok 0
      else match py_index x rest with
           | Ok i => Ok (i + 1)
           | Exc e => Exc e
           end
  end.

(** [f k x] along a list, [k] counting positions from [start]. *)
Fixpoint imap {A B : Type} (f : nat -> A -> B) (start : nat) (l : list A) : list B :=
  match l with
  | [] => []
  | x :: rest => f start x :: imap f (S start) rest
  end.

(** Two [pop(0)] per channel from the list of bounds. *)
Fixpoint pop_pairs (channels : nat) (min_max : list Z) : result (list (Z * Z)) :=
  match channels with
  | O => Ok []
  | S c =>
      match min_max with
      | lo :: hi :: rest =>
          match pop_pairs c rest with
          | Ok ps => Ok ((lo, hi) :: ps)
          | Exc e => Exc e
          end
      | _ => Exc IndexError
      end
  end.

(** ** Collaborators *)

(** An imageio reader.  Each call may raise; [get_meta_data] is reduced to
    the ['compression'] entry of the metadata dictionary, if any. *)
Record Reader : Type := mk_Reader {
  get_meta_data : result (option Z);
  get_length : result Z;
  get_data : Z -> result (ndarray Q)
}.

(** The contrast dialog, as far as the main window reads it. *)
Record DisplayPopup : Type := mk_DisplayPopup {
  offset : nat;
  working : bool
}.

(** Commands sent to Tk widgets, in the order they are issued. *)
Inductive gui_cmd : Type :=
| CanvasDeleteAll
| FocusSet
| CreateText (x y : Z) (text : string)
| CreateRectangle (x0 y0 x1 y1 : Z)
| CreateImageCentered (x y : Z)
| CanvasScale (x y sx sy : Q)
| CenterCanvas
| ShowImage
| ZSliderConfig (to : Z)
| StackCtrlGrid
| StackCtrlGridRemove
| UpdateIdle
| ZoomFitPressed (pressed : bool)
| SetTitle (file : string)
| CreateImageNW (x y : Q).

(** ** The window object *)

Record ImQuick : Type := mk_ImQuick {
  file : option string;
  file_list : list string;
  current_index : Z;
  image_data : option (ndarray Q);
  scaled_image_data : option (ndarray Z);
  displayed_image : option (ndarray Z);
  zoom_factor : Q;
  width : Z;
  height : Z;
  reader : option Reader;
  max_plane : Z;
  displayed_plane : Z;
  min_display_value : Z;
  max_display_value : Z;
  per_channel_contrast : bool;
  display_values_array : list Z;
  z_display_value : Z;
  display_popup : option DisplayPopup;
  winfo_width : Z;
  winfo_height : Z;
  z_label_focus : bool;
  gui : list gui_cmd
}.

Definition set_file v s := mk_ImQuick v (file_list s) (current_index s) (image_data s) (scaled_image_data s) (displayed_image s) (zoom_factor s) (width s) (height s) (reader s) (max_plane s) (displayed_plane s) (min_display_value s) (max_display_value s) (per_channel_contrast s) (display_values_array s) (z_display_value s) (display_popup s) (winfo_width s) (winfo_height s) (z_label_focus s) (gui s).
Definition set_file_list v s := mk_ImQuick (file s) v (current_index s) (image_data s) (scaled_image_data s) (displayed_image s) (zoom_factor s) (width s) (height s) (reader s) (max_plane s) (displayed_plane s) (min_display_value s) (max_display_value s) (per_channel_contrast s) (display_values_array s) (z_display_value s) (display_popup s) (winfo_width s) (winfo_height s) (z_label_focus s) (gui s).
Definition set_current_index v s := mk_ImQuick (file s) (file_list s) v (image_data s) (scaled_image_data s) (displayed_image s) (zoom_factor s) (width s) (height s) (reader s) (max_plane s) (displayed_plane s) (min_display_value s) (max_display_value s) (per_channel_contrast s) (display_values_array s) (z_display_value s) (display_popup s) (winfo_width s) (winfo_height s) (z_label_focus s) (gui s).
Definition set_image_data v s := mk_ImQuick (file s) (file_list s) (current_index s) v (scaled_image_data s) (displayed_image s) (zoom_factor s) (width s) (height s) (reader s) (max_plane s) (displayed_plane s) (min_display_value s) (max_display_value s) (per_channel_contrast s) (display_values_array s) (z_display_value s) (display_popup s) (winfo_width s) (winfo_height s) (z_label_focus s) (gui s).
Definition set_scaled_image_data v s := mk_ImQuick (file s) (file_list s) (current_index s) (image_data s) v (displayed_image s) (zoom_factor s) (width s) (height s) (reader s) (max_plane s) (displayed_plane s) (min_display_value s) (max_display_value s) (per_channel_contrast s) (display_values_array s) (z_display_value s) (display_popup s) (winfo_width s) (winfo_height s) (z_label_focus s) (gui s).
Definition set_displayed_image v s := mk_ImQuick (file s) (file_list s) (current_index s) (image_data s) (scaled_image_data s) v (zoom_factor s) (width s) (height s) (reader s) (max_plane s) (displayed_plane s) (min_display_value s) (max_display_value s) (per_channel_contrast s) (display_values_array s) (z_display_value s) (display_popup s) (winfo_width s) (winfo_height s) (z_label_focus s) (gui s).
Definition set_zoom_factor v s := mk_ImQuick (file s) (file_list s) (current_index s) (image_data s) (scaled_image_data s) (displayed_image s) v (width s) (height s) (reader s) (max_plane s) (displayed_plane s) (min_display_value s) (max_display_value s) (per_channel_contrast s) (display_values_array s) (z_display_value s) (display_popup s) (winfo_width s) (winfo_height s) (z_label_focus s) (gui s).
Definition set_size w h s := mk_ImQuick (file s) (file_list s) (current_index s) (image_data s) (scaled_image_data s) (displayed_image s) (zoom_factor s) w h (reader s) (max_plane s) (displayed_plane s) (min_display_value s) (max_display_value s) (per_channel_contrast s) (display_values_array s) (z_display_value s) (display_popup s) (winfo_width s) (winfo_height s) (z_label_focus s) (gui s).
Definition set_reader v s := mk_ImQuick (file s) (file_list s) (current_index s) (image_data s) (scaled_image_data s) (displayed_image s) (zoom_factor s) (width s) (height s) v (max_plane s) (displayed_plane s) (min_display_value s) (max_display_value s) (per_channel_contrast s) (display_values_array s) (z_display_value s) (display_popup s) (winfo_width s) (winfo_height s) (z_label_focus s) (gui s).
Definition set_max_plane v s := mk_ImQuick (file s) (file_list s) (current_index s) (image_data s) (scaled_image_data s) (displayed_image s) (zoom_factor s) (width s) (height s) (reader s) v (displayed_plane s) (min_display_value s) (max_display_value s) (per_channel_contrast s) (display_values_array s) (z_display_value s) (display_popup s) (winfo_width s) (winfo_height s) (z_label_focus s) (gui s).
Definition set_displayed_plane v s := mk_ImQuick (file s) (file_list s) (current_index s) (image_data s) (scaled_image_data s) (displayed_image s) (zoom_factor s) (width s) (height s) (reader s) (max_plane s) v (min_display_value s) (max_display_value s) (per_channel_contrast s) (display_values_array s) (z_display_value s) (display_popup s) (winfo_width s) (winfo_height s) (z_label_focus s) (gui s).
Definition set_min_display_value v s := mk_ImQuick (file s) (file_list s) (current_index s) (image_data s) (scaled_image_data s) (displayed_image s) (zoom_factor s) (width s) (height s) (reader s) (max_plane s) (displayed_plane s) v (max_display_value s) (per_channel_contrast s) (display_values_array s) (z_display_value s) (display_popup s) (winfo_width s) (winfo_height s) (z_label_focus s) (gui s).
Definition set_max_display_value v s := mk_ImQuick (file s) (file_list s) (current_index s) (image_data s) (scaled_image_data s) (displayed_image s) (zoom_factor s) (width s) (height s) (reader s) (max_plane s) (displayed_plane s) (min_display_value s) v (per_channel_contrast s) (display_values_array s) (z_display_value s) (display_popup s) (winfo_width s) (winfo_height s) (z_label_focus s) (gui s).
Definition set_per_channel_contrast v s := mk_ImQuick (file s) (file_list s) (current_index s) (image_data s) (scaled_image_data s) (displayed_image s) (zoom_factor s) (width s) (height s) (reader s) (max_plane s) (displayed_plane s) (min_display_value s) (max_display_value s) v (display_values_array s) (z_display_value s) (display_popup s) (winfo_width s) (winfo_height s) (z_label_focus s) (gui s).
Definition set_display_values_array v s := mk_ImQuick (file s) (file_list s) (current_index s) (image_data s) (scaled_image_data s) (displayed_image s) (zoom_factor s) (width s) (height s) (reader s) (max_plane s) (displayed_plane s) (min_display_value s) (max_display_value s) (per_channel_contrast s) v (z_display_value s) (display_popup s) (winfo_width s) (winfo_height s) (z_label_focus s) (gui s).
Definition set_z_display_value v s := mk_ImQuick (file s) (file_list s) (current_index s) (image_data s) (scaled_image_data s) (displayed_image s) (zoom_factor s) (width s) (height s) (reader s) (max_plane s) (displayed_plane s) (min_display_value s) (max_display_value s) (per_channel_contrast s) (display_values_array s) v (display_popup s) (winfo_width s) (winfo_height s) (z_label_focus s) (gui s).
Definition set_display_popup v s := mk_ImQuick (file s) (file_list s) (current_index s) (image_data s) (scaled_image_data s) (displayed_image s) (zoom_factor s) (width s) (height s) (reader s) (max_plane s) (displayed_plane s) (min_display_value s) (max_display_value s) (per_channel_contrast s) (display_values_array s) (z_display_value s) v (winfo_width s) (winfo_height s) (z_label_focus s) (gui s).
Definition set_z_label_focus v s := mk_ImQuick (file s) (file_list s) (current_index s) (image_data s) (scaled_image_data s) (displayed_image s) (zoom_factor s) (width s) (height s) (reader s) (max_plane s) (displayed_plane s) (min_display_value s) (max_display_value s) (per_channel_contrast s) (display_values_array s) (z_display_value s) (display_popup s) (winfo_width s) (winfo_height s) v (gui s).
Definition set_gui v s := mk_ImQuick (file s) (file_list s) (current_index s) (image_data s) (scaled_image_data s) (displayed_image s) (zoom_factor s) (width s) (height s) (reader s) (max_plane s) (displayed_plane s) (min_display_value s) (max_display_value s) (per_channel_contrast s) (display_values_array s) (z_display_value s) (display_popup s) (winfo_width s) (winfo_height s) (z_label_focus s) v.

(** The state [__init__] leaves when no file name is given, in a canvas of
    the given size. *)
Definition init (w h : Z) : ImQuick :=
  mk_ImQuick None [] 0 None None None 1%Q 0 0 None 0 0 0 255 false [0; 255] 0
             None w h false
             [CreateText (w / 2) (h / 2) "[Drag a file here to open]"].

(** ** Methods as state transformers that may raise *)

Definition M (A : Type) : Type := ImQuick -> result A * ImQuick.

Definition ret {A : Type} (a : A) : M A := fun s => (Ok a, s).
Definition raise {A : Type} (e : exn) : M A := fun s => (Exc e, s).
Definition bind {A B : Type} (m : M A) (k : A -> M B) : M B :=
  fun s => match m s with
           | (Ok a, s') => k a s'
           | (Exc e, s') => (Exc e, s')
           end.
Definition gets {A : Type} (f : ImQuick -> A) : M A := fun s => (Ok (f s), s).
Definition modify (f : ImQuick -> ImQuick) : M unit := fun s => (Ok tt, f s).
Definition lift {A : Type} (r : result A) : M A := fun s => (r, s).
Definition tk (c : gui_cmd) : M unit := modify (fun s => set_gui (gui s ++ [c]) s).

Declare Scope py_scope.
Delimit Scope py_scope with py.
Notation "x <- m ;; k" := (bind m (fun x => k))
  (at level 61, m at next level, right associativity) : py_scope.
Notation "m ;; k" := (bind m (fun _ => k))
  (at level 61, right associativity) : py_scope.
Open Scope py_scope.

(** The state a call leaves, whether it returned or raised. *)
Definition state_after {A : Type} (r : result A * ImQuick) : ImQuick := snd r.

(** Truth value of [self.file]: [None] and the empty string are false. *)
Definition file_loaded (s : ImQuick) : bool :=
  match file s with
  | Some (String _ _) => true
  | _ => false
  end.

(** The decorator [not_without_file]: the call is skipped when no file is
    loaded, and the wrapper returns [None] in both cases. *)
Definition not_without_file (func : M unit) : M unit :=
  fun s => if file_loaded s then func s else (Ok tt, s).

(** A callback run by Tk: tkinter reports an exception raised inside it and
    carries on, so only the state reached matters to the caller. *)
Definition tk_callback (func : M unit) (s : ImQuick) : ImQuick :=
  state_after (func s).

(** Modelled after the specification's wording of the file filter: the
    extension is in the supported set, compared case-insensitively. *)
Definition same_ignoring_case (a b : string) : Prop := lower a = lower b.

Definition extension_supported (name : string) : Prop :=
  exists e, In e SUPPORTED_EXTENSIONS /\ same_ignoring_case (splitext_ext name) e.

(** The index [next_file] and [prev_file] move to, in a series of [n]
    files. *)
Definition next_index (n i : Z) : Z :=
  if i <? n - 1 then i + 1 else if i =? n - 1 then 0 else i.

Definition prev_index (n i : Z) : Z :=
  if 0 <? i then i - 1 else if i =? 0 then n - 1 else i.

(** Sequencing of pure computations that may raise. *)
Definition rbind {A B : Type} (r : result A) (k : A -> result B) : result B :=
  match r with
  | Ok a => k a
  | Exc e => Exc e
  end.
Notation "'try' x := r 'in' k" := (rbind r (fun x => k))
  (at level 10, x name, r at level 100, k at level 200) : py_scope.

(** [try: body except: handler] with the exception classes [handles]
    accepts. *)
Definition try_except {A : Type} (body : M A) (handles : exn -> bool)
    (handler : M A) : M A :=
  fun s => match body s with
           | (Exc e, s') => if handles e then handler s' else (Exc e, s')
           | r => r
           end.

(** Python's [min] and [max] of two numbers return the first argument on a
    tie. *)
Definition pymin (a b : Q) : Q := if Qltb b a then b else a.
Definition pymax (a b : Q) : Q := if Qltb a b then b else a.

(** What [show_image] hands to PIL and to the canvas. *)
Record tile : Type := mk_tile {
  des_x1 : Q; des_y1 : Q; des_x2 : Q; des_y2 : Q;
  crop_box : Z * Z * Z * Z;
  resize_to : Z * Z;
  final_crop : Q * Q * Q * Q;
  anchor : Q * Q
}.

(** A value received by [set_z_plane]: the entry's text or the slider's
    rounded position. *)
Inductive pyval : Type :=
| PyStr (text : string)
| PyInt (z : Z).

(** A mouse-wheel event together with what the canvas answers about it:
    [canvasx(event.x)], [canvasy(event.y)], [bbox(container)] and
    [event.delta]. *)
Record wheel_event : Type := mk_wheel_event {
  ev_x : Q;
  ev_y : Q;
  ev_bbox : option (Z * Z * Z * Z);
  ev_delta : Z
}.

(** Tk's canvas and PIL, as [show_image] and [first_show_image] use them.
    The canvas is Tk's: [canvas_bbox s] is what [canvas.bbox(container)]
    answers in the state [s], [None] when there is no container or it has no
    box, and [canvas_visible s] is the visible area in canvas coordinates.
    [pil_tile im t] stands for the crop, resize and crop of the image on
    display and the [PhotoImage] made of the result, and [pil_photo_image im]
    for [ImageTk.PhotoImage(self.displayed_image)]: each returns or
    raises. *)
Record Toolkit : Type := mk_Toolkit {
  canvas_bbox : ImQuick -> option (Z * Z * Z * Z);
  canvas_visible : ImQuick -> Q * Q * Q * Q;
  pil_tile : ndarray Z -> tile -> result unit;
  pil_photo_image : option (ndarray Z) -> result unit
}.

(** Modelled after the specification's wording of the correction of a
    degenerate window: after a write of [v] to one bound that made
    [min >= max], [min < max] holds again, only the other bound has moved,
    and both bounds lie in [0, 255]. *)
Definition claimed_after_min_write (v : Z) (s' : ImQuick) : Prop :=
  min_display_value s' < max_display_value s' /\
  min_display_value s' = v /\
  0 <= min_display_value s' <= 255 /\ 0 <= max_display_value s' <= 255.

Definition claimed_after_max_write (v : Z) (s' : ImQuick) : Prop :=
  min_display_value s' < max_display_value s' /\
  max_display_value s' = v /\
  0 <= min_display_value s' <= 255 /\ 0 <= max_display_value s' <= 255.

(** ** A sample world

    A directory [/d] and a decoder that knows some of its files, used to run
    the model on concrete inputs. *)

(** The shapes for which Pillow's table has an unsigned 8-bit mode. *)
Definition pil_uint8 (sh : list nat) : bool :=
  match sh with
  | [_; _] => true
  | [_; _; c] => orb (c =? 2)%nat (orb (c =? 3)%nat (c =? 4)%nat)
  | _ => false
  end.

(** A gray plane with one value everywhere. *)
Definition gray (h w : nat) (v : Z) : ndarray Q :=
  mk_ndarray [h; w] (repeat (inject_Z v) (h * w)).

(** A reader over decoded planes; the metadata has no compression entry. *)
Definition reader_of (planes : list (ndarray Q)) : Reader :=
  mk_Reader (Ok None) (Ok (Z.of_nat (List.length planes)))
    (fun i => if i <? 0 then Exc IndexError
              else match nth_error planes (Z.to_nat i) with
                   | Some d => Ok d
                   | None => Exc IndexError
                   end).

(** [b.png] is corrupt; [gone.png] was decoded before it was deleted;
    [pair.tif] has two planes and [stack.tif] five. *)
Definition sample_get_reader (path : string) (tiff_pil : bool) : result Reader :=
  if String.eqb path "/d/a.png" then Ok (reader_of [gray 30 30 100])
  else if String.eqb path "/d/c.JPG" then Ok (reader_of [gray 2 2 7])
  else if String.eqb path "/d/gone.png" then Ok (reader_of [gray 2 2 9])
  else if String.eqb path "/d/pair.tif"
       then Ok (reader_of [gray 2 2 10; gray 2 2 20])
  else if String.eqb path "/d/stack.tif"
       then Ok (reader_of [gray 2 2 10; gray 2 2 20; gray 2 2 30;
                           gray 2 2 40; gray 2 2 50])
  else Exc OSError.

Definition sample_listdir (directory : string) : result (list string) :=
  if String.eqb directory "/d"
  then Ok ["a.png"; "c.JPG"; "b.png"; "notes.txt"]
  else Exc OSError.

Definition sample_normpath (p : string) : string := p.
Definition sample_abspath (p : string) : string := p.
Definition sample_dirname (p : string) : string :=
  match rfind_split "/" p with
  | Some (pre, _) => pre
  | None => EmptyString
  end.
Definition sample_join (d name : string) : string := d ++ "/" ++ name.


(** Whether the canvas holds a container: a rectangle was created and the
    canvas has not been emptied since. *)
Fixpoint has_container (found : bool) (log : list gui_cmd) : bool :=
  match log with
  | [] => found
  | CanvasDeleteAll :: rest => has_container false rest
  | CreateRectangle _ _ _ _ :: rest => has_container true rest
  | _ :: rest => has_container found rest
  end.

(** A canvas that keeps the image centred and is never scrolled, and a PIL
    that accepts every tile and needs an image to make a [PhotoImage]. *)
Definition sample_toolkit : Toolkit :=
  mk_Toolkit
    (fun s =>
       if has_container false (gui s) then
         let w := Qfloor (inject_Z (width s) * zoom_factor s) in
         let h := Qfloor (inject_Z (height s) * zoom_factor s) in
         let x0 := winfo_width s / 2 - w / 2 in
         let y0 := winfo_height s / 2 - h / 2 in
         Some (x0 - 1, y0 - 1, x0 + w + 1, y0 + h + 1)
       else None)
    (fun s => (0%Q, 0%Q, inject_Z (winfo_width s), inject_Z (winfo_height s)))
    (fun _ _ => Ok tt)
    (fun img => match img with
                | Some _ => Ok tt
                | None => Exc AttributeError
                end).

(** A small gray buffer, a window whose contrast dialog points at the pair
    of channel 0, and a second window for dropped files that always opens. *)
Definition buffer_mid : ndarray Z := mk_ndarray [2; 2]%nat [20; 50; 150; 100].

Definition dialog_state : ImQuick :=
  set_display_popup (Some (mk_DisplayPopup 2 false))
    (set_display_values_array [0; 255; 10; 200; 0; 255; 50; 100] (init 500 500)).

Definition sample_new_window (file : string) : result unit := Ok tt.

Section Model.

(** Rounding of a real result to the nearest float.  What the theorems use
    of it: it is monotone, and exact on the integers a double represents. *)
Variable rnd : Q -> Q.
Hypothesis rnd_mono : forall x y : Q, (x <= y)%Q -> (rnd x <= rnd y)%Q.
Hypothesis rnd_int :
  forall z : Z, Z.abs z <= 2 ^ 53 -> (rnd (inject_Z z) == inject_Z z)%Q.

Definition fdiv (x y : Q) : Q := rnd (x / y).
Definition fmul (x y : Q) : Q := rnd (x * y).
Definition fsub (x y : Q) : Q := rnd (x - y).
Definition fadd (x y : Q) : Q := rnd (x + y).

(** ** The intensity pipeline *)

(** [rescale_data(data)].  With an integer dtype [data * 256] is computed in
    a wider integer type whose wrap-around is a multiple of 256, so the
    samples after [astype('uint8')] are the ones obtained here. *)
Definition rescale_data (a : ndarray Q) : result (ndarray Z) :=
  match array_max a with
  | None => Exc ValueError
  | Some maxval =>
      let out :=
        if Qle_bool 4096 maxval then amap (fun x => fdiv x 265) a
        else if Qle_bool 1024 maxval then amap (fun x => fdiv x 16) a
        else if Qle_bool 256 maxval then amap (fun x => fdiv x 4) a
        else if Qle_bool maxval 1 then amap (fun x => fmul x 256) a
        else a in
      Ok (amap astype_uint8 out)
  end.

(** What a scale does to one raw sample. *)
Definition apply_scale (sc : scale) (x : Q) : Q :=
  match sc with
  | DivideBy d => fdiv x (inject_Z d)
  | MultiplyBy k => fmul x (inject_Z k)
  | PassThrough => x
  end.

(** PIL: whether [Image.fromarray] builds an image from an unsigned 8-bit
    array of a given shape (it raises [TypeError] otherwise). *)
Variable pil_accepts : list nat -> bool.

Definition Image_fromarray (a : ndarray Z) : result (ndarray Z) :=
  if pil_accepts (shape a) then Ok a else Exc TypeError.

(** Python's [/] on numbers. *)
Definition pydiv (x y : Q) : result Q :=
  if Qeq_bool y 0 then Exc ZeroDivisionError else Ok (fdiv x y).

(** *** The tile of [show_image]

    [bbox] is [canvas.bbox(container)] and [visible] the visible area in
    canvas coordinates; the result is the scroll region and, when the image
    meets the visible area, the tile. *)
Definition show_image_tile (zoom_factor : Q) (bbox : Z * Z * Z * Z)
    (visible : Q * Q * Q * Q) : result (Q * Q * Q * Q * option tile) :=
  let '(b0, b1, b2, b3) := bbox in
  let '(v0, v1, v2, v3) := visible in
  let i0 := inject_Z (b0 + 1) in
  let i1 := inject_Z (b1 + 1) in
  let i2 := inject_Z (b2 - 1) in
  let i3 := inject_Z (b3 - 1) in
  let s0 := pymin i0 v0 in
  let s1 := pymin i1 v1 in
  let s2 := pymax i2 v2 in
  let s3 := pymax i3 v3 in
  let fit_x := andb (Qeq_bool s0 v0) (Qeq_bool s2 v2) in
  let fit_y := andb (Qeq_bool s1 v1) (Qeq_bool s3 v3) in
  let scroll := (if fit_x then i0 else s0, if fit_y then i1 else s1,
                 if fit_x then i2 else s2, if fit_y then i3 else s3) in
  let x1 := pymax (fsub v0 i0) 0 in
  let y1 := pymax (fsub v1 i1) 0 in
  let x2 := fsub (pymin v2 i2) i0 in
  let y2 := fsub (pymin v3 i3) i1 in
  if andb (0 <? trunc (fsub x2 x1)) (0 <? trunc (fsub y2 y1)) then
    try dx1 := pydiv x1 zoom_factor in
    try dx2 := pydiv x2 zoom_factor in
    try dy1 := pydiv y1 zoom_factor in
    try dy2 := pydiv y2 zoom_factor in
    let des_x_width := trunc (fsub x2 x1) in
    let des_y_height := trunc (fsub y2 y1) in
    let real_x_width := fsub dx2 dx1 in
    let rnd_x_width := Qceiling dx2 - Qfloor dx1 in
    try ratio_x := pydiv (inject_Z des_x_width) real_x_width in
    let tgt_x_width := fmul ratio_x (inject_Z rnd_x_width) in
    let real_y_height := fsub dy2 dy1 in
    let rnd_y_height := Qceiling dy2 - Qfloor dy1 in
    try ratio_y := pydiv (inject_Z des_y_height) real_y_height in
    let tgt_y_height := fmul ratio_y (inject_Z rnd_y_height) in
    try step_x := pydiv (inject_Z des_x_width) (inject_Z rnd_x_width) in
    let x := fmul step_x (fsub dx1 (inject_Z (Qfloor dx1))) in
    try step_y := pydiv (inject_Z des_y_height) (inject_Z rnd_y_height) in
    let y := fmul step_y (fsub dy1 (inject_Z (Qfloor dy1))) in
    Ok (scroll,
        Some (mk_tile dx1 dy1 dx2 dy2
                (Qfloor dx1, Qfloor dy1, Qceiling dx2, Qceiling dy2)
                (trunc tgt_x_width, trunc tgt_y_height)
                (x, y, fadd x (inject_Z des_x_width), fadd y (inject_Z des_y_height))
                (pymax v0 i0, pymax v1 i1)))
  else Ok (scroll, None).

(** Tk and PIL. *)
Variable toolkit : Toolkit.

(** [show_image()].  Nothing is done without a container that has a box.
    Otherwise the scroll region is configured ([ShowImage] in the log), the
    tile is computed, which divides by the zoom factor, and when there is
    one PIL cuts it out of the image on display and the canvas shows it. *)
Definition show_image : M unit :=
  box <- gets (canvas_bbox toolkit) ;;
  match box with
  | None => ret tt
  | Some bbox =>
      visible <- gets (canvas_visible toolkit) ;;
      tk ShowImage ;;
      z <- gets zoom_factor ;;
      r <- lift (show_image_tile z bbox visible) ;;
      match snd r with
      | None => ret tt
      | Some t =>
          img <- gets displayed_image ;;
          match img with
          | None => raise AttributeError
          | Some im =>
              lift (pil_tile toolkit im t) ;;
              tk (CreateImageNW (fst (anchor t)) (snd (anchor t)))
          end
      end
  end.

(** *** Levels *)

(** [channel_data[channel_data < new_min] = new_min] on an unsigned 8-bit
    buffer. *)
Definition clamp_low (new_min v : Z) : Z :=
  if v <? new_min then uint8 new_min else v.

(** [(channel_data - new_min) / (new_max - new_min)]: the difference is
    taken in the integer type NumPy gives it ([sub_scalar]), the quotient in
    floating point.  (A zero divisor gives NumPy's infinities, which are
    outside this model.) *)
Definition window_sample (new_min new_max v : Z) : Q :=
  fdiv (inject_Z (sub_scalar (clamp_low new_min v) new_min))
       (inject_Z (new_max - new_min)).

(** [temp_data[temp_data > 1] = 1]. *)
Definition clip_one (q : Q) : Q := if Qltb 1 q then 1%Q else q.

(** [(temp_data * 255).astype('uint8')]. *)
Definition to_display (q : Q) : Z := astype_uint8 (fmul q 255).

(** The sample at row-major position [k] of an array with [c] channels
    belongs to channel [k mod c]; it goes through that channel's pair. *)
Definition per_channel_sample (c : nat) (min_max : list (Z * Z)) (k : nat)
    (v : Z) : Q :=
  let '(new_min, new_max) := nth (k mod c) min_max (0, 0) in
  window_sample new_min new_max v.

(** The two branches of [update_contrast] up to [temp_data]: the loop over
    [temp_data[:, :, i]] recombined by [np.dstack], or the global window. *)
Definition windowed (s : ImQuick) (temp_data : ndarray Z) : result (ndarray Q) :=
  if per_channel_contrast s then
    match shape temp_data with
    | [_; _; c] =>
        try min_max := pop_pairs c (skipn 2 (display_values_array s)) in
        if (c =? 0)%nat then Exc ValueError
        else Ok (mk_ndarray (shape temp_data)
                   (imap (per_channel_sample c min_max) 0%nat (data temp_data)))
    | _ => Exc IndexError
    end
  else Ok (amap (window_sample (min_display_value s) (max_display_value s))
                temp_data).

(** The array [update_contrast] hands to [Image.fromarray]. *)
Definition displayable (s : ImQuick) (temp_data : ndarray Z) : result (ndarray Z) :=
  try t := windowed s temp_data in
  Ok (amap to_display (amap clip_one t)).

Definition update_contrast : M unit :=
  scaled <- gets scaled_image_data ;;
  match scaled with
  | None => raise AttributeError
  | Some temp_data =>
      s <- gets (fun s => s) ;;
      arr <- lift (displayable s temp_data) ;;
      img <- lift (Image_fromarray arr) ;;
      modify (set_displayed_image (Some img)) ;;
      show_image
  end.

(** One sample through the window [(new_min, new_max)]. *)
Definition display_sample (new_min new_max v : Z) : Z :=
  to_display (clip_one (window_sample new_min new_max v)).

(** A levels window as the data model has it. *)
Definition valid_window (w : Z * Z) : Prop :=
  0 <= fst w <= 255 /\ fst w < snd w.

(** Every (min, max) pair of a flat list of bounds is a valid window. *)
Fixpoint valid_pairs (l : list Z) : Prop :=
  match l with
  | lo :: hi :: rest => valid_window (lo, hi) /\ valid_pairs rest
  | _ => True
  end.

(** The windows [update_contrast] reads in the mode the state is in. *)
Definition valid_windows (s : ImQuick) : Prop :=
  if per_channel_contrast s then valid_pairs (skipn 2 (display_values_array s))
  else valid_window (min_display_value s, max_display_value s).

(** A window whose differences NumPy computes without wrap-around: [min] is
    at most 255, so that the buffer keeps its samples or takes [min], and at
    least -32512, so that [sample - min] fits the 16 bits the buffer is
    widened to when [min] is negative.  (The sliders and [auto_contrast]
    write values from 0 to 255 and the correction of one bound by the other
    goes one beyond, to -1 or 256.) *)
Definition wide_window (w : Z * Z) : Prop :=
  -32512 <= fst w <= 255 /\ fst w < snd w.

Fixpoint wide_pairs (l : list Z) : Prop :=
  match l with
  | lo :: hi :: rest => wide_window (lo, hi) /\ wide_pairs rest
  | _ => True
  end.

Definition wide_windows (s : ImQuick) : Prop :=
  if per_channel_contrast s then wide_pairs (skipn 2 (display_values_array s))
  else wide_window (min_display_value s, max_display_value s).

Definition is_uint8 (v : Z) : Prop := 0 <= v <= 255.

(** The write to [display_values_array] shared by both trace callbacks. *)
Definition store_display_values : M unit :=
  popup <- gets display_popup ;;
  match popup with
  | Some p =>
      if working p then ret tt
      else
        arr <- gets display_values_array ;;
        min_v <- gets min_display_value ;;
        arr1 <- lift (py_setitem arr (offset p) min_v) ;;
        modify (set_display_values_array arr1) ;;
        max_v <- gets max_display_value ;;
        arr2 <- lift (py_setitem arr1 (offset p + 1) max_v) ;;
        modify (set_display_values_array arr2)
  | None => ret tt
  end.

(** [update_min_display], given what a write to the max variable does.  The
    write to the min variable inside its own trace fires nothing: Tcl
    disables a variable's traces while one of them runs. *)
Definition update_min_display_with (max_set : Z -> ImQuick -> ImQuick) : M unit :=
  min_d <- gets min_display_value ;;
  max_d <- gets max_display_value ;;
  (if min_d =? 255 then modify (set_min_display_value 254) else ret tt) ;;
  dirty <- (if max_d <=? min_d
            then (modify (max_set (min_d + 1)) ;; ret true)
            else ret false) ;;
  store_display_values ;;
  if negb dirty then update_contrast else ret tt.

Definition update_max_display_with (min_set : Z -> ImQuick -> ImQuick) : M unit :=
  min_d <- gets min_display_value ;;
  max_d <- gets max_display_value ;;
  (if max_d =? 0 then modify (set_max_display_value 1) else ret tt) ;;
  dirty <- (if max_d <=? min_d
            then (modify (min_set (max_d - 1)) ;; ret true)
            else ret false) ;;
  store_display_values ;;
  if negb dirty then update_contrast else ret tt.

(** A callback fired from inside the other variable's callback: both traces
    are disabled, every write is a plain write. *)
Definition update_max_display_nested : M unit :=
  update_max_display_with set_min_display_value.
Definition update_min_display_nested : M unit :=
  update_min_display_with set_max_display_value.

(** The callbacks as Tk fires them after a write from outside. *)
Definition update_min_display : M unit :=
  update_min_display_with
    (fun v s => tk_callback update_max_display_nested (set_max_display_value v s)).
Definition update_max_display : M unit :=
  update_max_display_with
    (fun v s => tk_callback update_min_display_nested (set_min_display_value v s)).

(** [self.min_display_value.set(v)] and [self.max_display_value.set(v)] from
    outside the callbacks (a slider, the dialog, [load_image]). *)
Definition min_display_value_set (v : Z) : M unit :=
  modify (fun s => tk_callback update_min_display (set_min_display_value v s)).
Definition max_display_value_set (v : Z) : M unit :=
  modify (fun s => tk_callback update_max_display (set_max_display_value v s)).

(** The levels window in use. *)
Definition bounds (s : ImQuick) : Z * Z :=
  (min_display_value s, max_display_value s).

(** A computation that leaves an observation of the state as it is, whether
    it returns or raises. *)
Definition keeps {A B : Type} (f : ImQuick -> B) (m : M A) : Prop :=
  forall s, f (snd (m s)) = f s.

(** The file series, and the stack as decoded. *)
Definition series (s : ImQuick) : list string * Z :=
  (file_list s, current_index s).

Definition stack (s : ImQuick) : option (ndarray Q) * Z * Z * option Reader :=
  (image_data s, z_display_value s, max_plane s, reader s).

(** What a finished load shows. *)
Definition shown (s : ImQuick) :
    option (ndarray Z) * option (ndarray Z) * option string :=
  (scaled_image_data s, displayed_image s, file s).

(** A computation that has sent nothing to the widgets when it raises, and
    one that always returns. *)
Definition quiet {A : Type} (m : M A) : Prop :=
  forall s0 e s1, m s0 = (Exc e, s1) -> gui s1 = gui s0.

Definition total {A : Type} (m : M A) : Prop :=
  forall s0, exists a s1, m s0 = (Ok a, s1).

(** An observation that does not look at the levels window, the image on
    display or the widgets. *)
Definition levels_blind {B : Type} (f : ImQuick -> B) : Prop :=
  (forall v s, f (set_min_display_value v s) = f s) /\
  (forall v s, f (set_max_display_value v s) = f s) /\
  (forall v s, f (set_display_values_array v s) = f s) /\
  (forall v s, f (set_displayed_image v s) = f s) /\
  (forall v s, f (set_gui v s) = f s).

(** *** Zoom *)

(** [self.delta = 1.3], the float nearest to 13/10. *)
Definition delta : Q := rnd (13 # 10).

Definition zoom_image (x y scale : Q) : M unit :=
  not_without_file (
    tk (ZoomFitPressed false) ;;
    tk (CanvasScale x y scale scale) ;;
    show_image).

Definition zoom_in : M unit :=
  not_without_file (
    cw <- gets winfo_width ;;
    ch <- gets winfo_height ;;
    let i := Z.min cw ch in
    z <- gets zoom_factor ;;
    if Qltb (fdiv (inject_Z i) 5) z then ret tt
    else
      modify (set_zoom_factor (fmul z delta)) ;;
      let scale := delta in
      zoom_image (fdiv (inject_Z cw) 2) (fdiv (inject_Z ch) 2) scale).

Definition zoom_out : M unit :=
  not_without_file (
    w <- gets width ;;
    h <- gets height ;;
    let i := Z.min w h in
    z <- gets zoom_factor ;;
    if trunc (fmul (inject_Z i) z) <? 30 then ret tt
    else
      modify (set_zoom_factor (fdiv z delta)) ;;
      let scale := fdiv 1 delta in
      cw <- gets winfo_width ;;
      ch <- gets winfo_height ;;
      zoom_image (fdiv (inject_Z cw) 2) (fdiv (inject_Z ch) 2) scale).

(** The two guarded updates of [zoom_mouse]; [None] is its early [return]. *)
Definition wheel_out : M (option Q) :=
  w <- gets width ;;
  h <- gets height ;;
  let i := Z.min w h in
  z <- gets zoom_factor ;;
  if trunc (fmul (inject_Z i) z) <? 30 then ret None
  else modify (set_zoom_factor (fdiv z delta)) ;; ret (Some (fdiv 1 delta)).

Definition wheel_in : M (option Q) :=
  cw <- gets winfo_width ;;
  ch <- gets winfo_height ;;
  let i := Z.min cw ch in
  z <- gets zoom_factor ;;
  if Qltb (fdiv (inject_Z i) 5) z then ret None
  else modify (set_zoom_factor (fmul z delta)) ;; ret (Some delta).

Definition zoom_mouse (event : wheel_event) : M unit :=
  not_without_file (
    let x := ev_x event in
    let y := ev_y event in
    match ev_bbox event with
    | None => raise TypeError
    | Some (b0, b1, b2, b3) =>
        if orb (negb (andb (Qltb (inject_Z b0) x) (Qltb x (inject_Z b2))))
               (negb (andb (Qltb (inject_Z b1) y) (Qltb y (inject_Z b3))))
        then ret tt
        else
          let scale := 1%Q in
          r1 <- (if ev_delta event <? 0 then wheel_out else ret (Some scale)) ;;
          match r1 with
          | None => ret tt
          | Some scale =>
              r2 <- (if 0 <? ev_delta event then wheel_in else ret (Some scale)) ;;
              match r2 with
              | None => ret tt
              | Some scale => zoom_image x y scale
              end
          end
    end).

(** The quantities the guards compare: the image's minor dimension on
    screen, [int(min(width, height) * zoom_factor)], and a fifth of the
    canvas's minor dimension. *)
Definition shown_minor (s : ImQuick) : Z :=
  trunc (fmul (inject_Z (Z.min (width s) (height s))) (zoom_factor s)).

Definition zoom_ceiling (s : ImQuick) : Q :=
  fdiv (inject_Z (Z.min (winfo_width s) (winfo_height s))) 5.

(** The pointer of a wheel event is strictly inside the image's box. *)
Definition pointer_inside (event : wheel_event) : bool :=
  match ev_bbox event with
  | Some (b0, b1, b2, b3) =>
      andb (andb (Qltb (inject_Z b0) (ev_x event)) (Qltb (ev_x event) (inject_Z b2)))
           (andb (Qltb (inject_Z b1) (ev_y event)) (Qltb (ev_y event) (inject_Z b3)))
  | None => false
  end.

(** [center_canvas()] only moves the canvas view, which Tk owns. *)
Definition center_canvas : M unit := tk CenterCanvas.

Definition fit_to_window : M unit :=
  not_without_file (
    center_canvas ;;
    cw <- gets winfo_width ;;
    ch <- gets winfo_height ;;
    w <- gets width ;;
    h <- gets height ;;
    let init_x := cw / 2 - w / 2 in
    let init_y := ch / 2 - h / 2 in
    sx <- lift (pydiv (inject_Z (cw - 4)) (inject_Z w)) ;;
    sy <- lift (pydiv (inject_Z (ch - 4)) (inject_Z h)) ;;
    let scale := pymin sx sy in
    modify (set_zoom_factor scale) ;;
    tk (CreateRectangle init_x init_y (init_x + w) (init_y + h)) ;;
    zoom_image (fdiv (inject_Z cw) 2) (fdiv (inject_Z ch) 2) scale ;;
    tk (ZoomFitPressed true)).

Definition first_show_image (loading : bool) : M unit :=
  not_without_file (
    cw <- gets winfo_width ;;
    ch <- gets winfo_height ;;
    w <- gets width ;;
    h <- gets height ;;
    let init_x := cw / 2 - w / 2 in
    let init_y := ch / 2 - h / 2 in
    if andb loading (orb (cw <? w) (ch <? h)) then fit_to_window
    else
      tk (ZoomFitPressed false) ;;
      modify (set_zoom_factor 1) ;;
      tk (CreateRectangle init_x init_y (init_x + w) (init_y + h)) ;;
      img <- gets displayed_image ;;
      lift (pil_photo_image toolkit img) ;;
      tk (CreateImageCentered (cw / 2) (ch / 2)) ;;
      center_canvas).

(** *** Stack planes *)

Definition update_z_display : M unit :=
  not_without_file (
    mp <- gets max_plane ;;
    dp <- gets displayed_plane ;;
    z <- gets z_display_value ;;
    if orb (mp =? 0) (dp =? z) then ret tt
    else
      modify (set_displayed_plane z) ;;
      rd <- gets reader ;;
      match rd with
      | None => raise AttributeError
      | Some r =>
          d <- lift (get_data r z) ;;
          modify (set_image_data (Some d)) ;;
          sc <- lift (rescale_data d) ;;
          modify (set_scaled_image_data (Some sc)) ;;
          update_contrast
      end).

Definition is_ValueError (e : exn) : bool :=
  match e with
  | ValueError => true
  | _ => false
  end.

Definition set_z_plane (val : pyval) : M bool :=
  try_except
    (v <- match val with
          | PyStr EmptyString => ret 0
          | PyStr text =>
              match py_int text with
              | Some z => ret z
              | None => raise ValueError
              end
          | PyInt z => ret z
          end ;;
     mp <- gets max_plane ;;
     (if mp <? v then modify (set_z_display_value mp)
      else if v <? 0 then modify (set_z_display_value 0)
      else modify (set_z_display_value v)) ;;
     update_z_display ;;
     ret true)
    is_ValueError
    (ret false).

(** *** Loading a file *)

(** imageio: [get_reader(file)] and [get_reader(file, format='TIFF-PIL')]. *)
Variable imageio_get_reader : string -> bool -> result Reader.

(** [os.path.normpath]. *)
Variable normpath : string -> string.

Definition is_tiff (file : string) : bool :=
  in_strings (lower (splitext_ext file)) [".tif"; ".tiff"].

(** The body of the [try] block of [load_image]. *)
Definition load_image_decode (file : string) : M unit :=
  r <- lift (imageio_get_reader file false) ;;
  modify (set_reader (Some r)) ;;
  (if is_tiff file then
     meta <- lift (get_meta_data r) ;;
     match meta with
     | Some 5 =>
         r' <- lift (imageio_get_reader file true) ;;
         modify (set_reader (Some r'))
     | _ => ret tt
     end
   else ret tt) ;;
  rd <- gets reader ;;
  match rd with
  | None => raise AttributeError
  | Some r =>
      len <- lift (get_length r) ;;
      modify (set_max_plane (len - 1)) ;;
      mp <- gets max_plane ;;
      if 0 <? mp then
        d <- lift (get_data r (mp / 2)) ;;
        modify (set_image_data (Some d)) ;;
        tk (ZSliderConfig mp) ;;
        modify (set_z_display_value (mp / 2)) ;;
        tk StackCtrlGrid
      else
        d <- lift (get_data r 0) ;;
        modify (set_image_data (Some d)) ;;
        tk StackCtrlGridRemove ;;
        tk UpdateIdle
  end.

(** [DisplayPopup.switch_image]. *)
Definition switch_image : M unit :=
  popup <- gets display_popup ;;
  match popup with
  | Some p =>
      modify (set_display_popup (Some (mk_DisplayPopup 0 (working p)))) ;;
      modify (set_per_channel_contrast false)
  | None => ret tt
  end.

(** [displayed_image.size]: width then height. *)
Definition image_size (a : ndarray Z) : Z * Z :=
  match shape a with
  | [h] => (1, Z.of_nat h)
  | h :: w :: _ => (Z.of_nat w, Z.of_nat h)
  | [] => (0, 0)
  end.

(** [[0, 255] * n]. *)
Fixpoint default_bounds (n : nat) : list Z :=
  match n with
  | O => []
  | S k => 0 :: 255 :: default_bounds k
  end.

(** [load_image] after a successful decode: the window goes back to
    (0, 255) through the traced variables, then the image is prepared and
    shown.  (The information dialog, when open, is refreshed too; it keeps no
    state read here.) *)
Definition reset_levels : M unit :=
  min_v <- gets min_display_value ;;
  (if min_v =? 0 then ret tt else min_display_value_set 0) ;;
  max_v <- gets max_display_value ;;
  (if max_v =? 255 then ret tt else max_display_value_set 255).

Definition show_loaded (file : string) : M unit :=
  switch_image ;;
  first_show_image true ;;
  tk (SetTitle file).

Definition load_image_display (file : string) : M unit :=
  reset_levels ;;
  img <- gets image_data ;;
  match img with
  | None => raise AttributeError
  | Some d =>
      modify (set_display_values_array
                (if (List.length (shape d) <? 3)%nat then [0; 255]
                 else default_bounds (last (shape d) 0%nat + 1))) ;;
      sc <- lift (rescale_data d) ;;
      modify (set_scaled_image_data (Some sc)) ;;
      im <- lift (Image_fromarray sc) ;;
      modify (set_displayed_image (Some im)) ;;
      modify (set_size (fst (image_size im)) (snd (image_size im))) ;;
      modify (set_file (Some file)) ;;
      show_loaded file
  end.

(** The state [load_image] reaches before its [try] block, and the one its
    [except] block leaves. *)
Definition load_image_begin (s : ImQuick) : ImQuick :=
  state_after ((tk CanvasDeleteAll ;;
                modify (set_z_label_focus false) ;;
                tk FocusSet) s).

Definition load_image_failed (s : ImQuick) : ImQuick :=
  set_file None
    (set_reader None
       (set_gui (gui s ++ [CreateText (winfo_width s / 2) (winfo_height s / 2)
                             "[Unable to open file]"]) s)).

Definition load_image (file : string) : M unit :=
  tk CanvasDeleteAll ;;
  modify (set_z_label_focus false) ;;
  tk FocusSet ;;
  let file := normpath file in
  decoded <- try_except
               (load_image_decode file ;; ret true)
               (fun _ => true)
               (cw <- gets winfo_width ;;
                ch <- gets winfo_height ;;
                tk (CreateText (cw / 2) (ch / 2) "[Unable to open file]") ;;
                modify (set_reader None) ;;
                modify (set_file None) ;;
                ret false) ;;
  if decoded : bool then load_image_display file else ret tt.

(** *** The file series *)

(** [os.listdir], [os.path.abspath], [os.path.dirname], [os.path.join]. *)
Variable listdir : string -> result (list string).
Variable abspath : string -> string.
Variable dirname : string -> string.
Variable join : string -> string -> string.

Definition make_file_list : M unit :=
  f <- gets file ;;
  match f with
  | None => raise TypeError
  | Some current =>
      let directory := dirname (abspath current) in
      names <- lift (listdir directory) ;;
      modify (set_file_list
                (map (fun name => normpath (join directory name))
                     (filter supported names))) ;;
      files <- gets file_list ;;
      i <- lift (py_index current files) ;;
      modify (set_current_index i)
  end.

(** [open_file]; [chosen] is what the file dialog returned, the empty
    string when it was cancelled. *)
Definition open_file (chosen : string) : M unit :=
  match chosen with
  | EmptyString => ret tt
  | String _ _ =>
      modify (set_file_list []) ;;
      load_image (normpath chosen)
  end.

(** The part of [next_file] and [prev_file] after the index is chosen. *)
Definition load_current : M unit :=
  modify (set_zoom_factor 1) ;;
  files <- gets file_list ;;
  i <- gets current_index ;;
  f <- lift (py_getitem files i) ;;
  load_image f.

(** [next_file(event)]; [event] tells whether a key event came with the
    call. *)
Definition next_file (event : bool) : M unit :=
  not_without_file (
    focus <- gets z_label_focus ;;
    if andb event focus then ret tt
    else
      n0 <- gets (fun s => List.length (file_list s)) ;;
      (if (n0 =? 0)%nat then make_file_list else ret tt) ;;
      n <- gets (fun s => Z.of_nat (List.length (file_list s))) ;;
      if n =? 1 then ret tt
      else
        i <- gets current_index ;;
        (if i <? n - 1 then modify (set_current_index (i + 1))
         else if i =? n - 1 then modify (set_current_index 0)
         else ret tt) ;;
        load_current).

Definition prev_file (event : bool) : M unit :=
  not_without_file (
    focus <- gets z_label_focus ;;
    if andb event focus then ret tt
    else
      n0 <- gets (fun s => List.length (file_list s)) ;;
      (if (n0 =? 0)%nat then make_file_list else ret tt) ;;
      n <- gets (fun s => Z.of_nat (List.length (file_list s))) ;;
      if n =? 1 then ret tt
      else
        i <- gets current_index ;;
        (if 0 <? i then modify (set_current_index (i - 1))
         else if i =? 0 then modify (set_current_index (n - 1))
         else ret tt) ;;
        load_current).

(** *** Automatic contrast and the contrast dialog *)

(** [scaled_image_data.min()] and [scaled_image_data.max()]; NumPy raises
    [ValueError] on an array with no element. *)
Definition buffer_min (a : ndarray Z) : result Z :=
  match data a with
  | [] => Exc ValueError
  | x :: rest => Ok (fold_left Z.min rest x)
  end.

Definition buffer_max (a : ndarray Z) : result Z :=
  match data a with
  | [] => Exc ValueError
  | x :: rest => Ok (fold_left Z.max rest x)
  end.

Definition auto_contrast : M unit :=
  not_without_file (
    scaled <- gets scaled_image_data ;;
    match scaled with
    | None => raise AttributeError
    | Some a =>
        lo <- lift (buffer_min a) ;;
        min_display_value_set lo ;;
        scaled' <- gets scaled_image_data ;;
        match scaled' with
        | None => raise AttributeError
        | Some a' =>
            hi <- lift (buffer_max a') ;;
            max_display_value_set hi ;;
            update_contrast
        end
    end).

(** [adjust_contrast]: the dialog is created unless it exists; its
    constructor runs [switch_image] on the new dialog, then the window keeps
    it. *)
Definition adjust_contrast : M unit :=
  not_without_file (
    popup <- gets display_popup ;;
    match popup with
    | Some _ => ret tt
    | None =>
        img <- gets image_data ;;
        match img with
        | None => raise AttributeError
        | Some _ =>
            modify (set_per_channel_contrast false) ;;
            modify (set_display_popup (Some (mk_DisplayPopup 0 false)))
        end
    end).

(** [DisplayPopup.destroy]. *)
Definition destroy_display_popup : M unit := modify (set_display_popup None).

(** [text[-1]] as a one-character string. *)
Definition last_char (text : string) : result string :=
  match rev (list_ascii_of_string text) with
  | [] => Exc IndexError
  | c :: _ => Ok (String c EmptyString)
  end.

(** The channel a choice of the combobox stands for: -1 for ['All'], else
    [int] of the last character of the choice. *)
Definition selected_channel (choice : string) : result Z :=
  if String.eqb choice "All" then Ok (-1)
  else
    try c := last_char choice in
    match py_int c with
    | Some z => Ok z
    | None => Exc ValueError
    end.

(** An assignment to attributes of the dialog, which is [display_popup]. *)
Definition popup_set (f : DisplayPopup -> DisplayPopup) : M unit :=
  popup <- gets display_popup ;;
  match popup with
  | Some p => modify (set_display_popup (Some (f p)))
  | None => raise AttributeError
  end.

(** [DisplayPopup.channel_mode_select]; [choice] is what the combobox
    holds. *)
Definition channel_mode_select (choice : string) : M unit :=
  modify (set_per_channel_contrast (negb (String.eqb choice "All"))) ;;
  selected <- lift (selected_channel choice) ;;
  let off := (selected + 1) * 2 in
  popup_set (fun _ => mk_DisplayPopup (Z.to_nat off) true) ;;
  arr <- gets display_values_array ;;
  lo <- lift (py_getitem arr off) ;;
  min_display_value_set lo ;;
  arr' <- gets display_values_array ;;
  hi <- lift (py_getitem arr' (off + 1)) ;;
  max_display_value_set hi ;;
  popup_set (fun p => mk_DisplayPopup (offset p) false).

(** The entries of [display_values_array] that a write through the traced
    variables cannot reach: all of them while the dialog is closed or holds
    its [working] flag, the ones beside the dialog's pair otherwise. *)
Definition untouched (s : ImQuick) : list Z * list Z :=
  match display_popup s with
  | Some p =>
      if working p then (display_values_array s, [])
      else (firstn (offset p) (display_values_array s),
            skipn (offset p + 2) (display_values_array s))
  | None => (display_values_array s, [])
  end.

Definition dialog (s : ImQuick) : option DisplayPopup * nat * (list Z * list Z) :=
  (display_popup s, List.length (display_values_array s), untouched s).

(** The file and what was decoded from it. *)
Definition document (s : ImQuick) :
    option string * option (ndarray Q) * option (ndarray Z) * option Reader * Z :=
  (file s, image_data s, scaled_image_data s, reader s, max_plane s).

(** Where the image sits in the window. *)
Definition viewport (s : ImQuick) : Q * Z * Z := (zoom_factor s, width s, height s).

(** A levels window inside the range of the sliders. *)
Definition window_in_range (s : ImQuick) : Prop :=
  0 <= min_display_value s /\ min_display_value s < max_display_value s /\
  max_display_value s <= 255.

(** The current index points into the series, once there is one. *)
Definition index_in_series (s : ImQuick) : Prop :=
  file_list s = [] \/
  0 <= current_index s < Z.of_nat (List.length (file_list s)).

(** A redraw that cannot succeed: no buffer, or per-channel contrast on a
    buffer of fewer than three dimensions ([temp_data[:, :, i]] has too many
    indices). *)
Definition redraw_fails (s : ImQuick) : bool :=
  match scaled_image_data s with
  | Some a => andb (per_channel_contrast s) (List.length (shape a) <? 3)%nat
  | None => true
  end.

(** The image on display, looked at only while the redraw cannot succeed. *)
Definition frozen_image (s : ImQuick) : bool * option (ndarray Z) :=
  (redraw_fails s, if redraw_fails s then displayed_image s else None).

(** *** Files dropped onto the window *)

Fixpoint contains (c : ascii) (s : string) : bool :=
  match s with
  | EmptyString => false
  | String a rest => orb (Ascii.eqb a c) (contains c rest)
  end.

(** After an opening brace: the shortest text up to a closing brace, and
    what follows it; [.] matches no newline. *)
Fixpoint close_brace (s : string) : option (string * string) :=
  match s with
  | EmptyString => None
  | String c rest =>
      if Ascii.eqb c "}" then Some (EmptyString, rest)
      else if Ascii.eqb c "010" then None
      else match close_brace rest with
           | Some (inner, after) => Some (String c inner, after)
           | None => None
           end
  end.

(** [re.findall('{.*?}', line)]: the matches from left to right, each search
    resuming after the last match; [fuel] bounds the number of steps. *)
Fixpoint findall_braces (fuel : nat) (s : string) : list string :=
  match fuel, s with
  | S f, String c rest =>
      if Ascii.eqb c "{" then
        match close_brace rest with
        | Some (inner, after) =>
            String "{" (inner ++ "}") :: findall_braces f after
        | None => findall_braces f rest
        end
      else findall_braces f rest
  | _, _ => []
  end.

Definition re_findall_braces (line : string) : list string :=
  findall_braces (String.length line) line.

(** [line.replace(obj, "")] for a non-empty [obj]: every occurrence met from
    left to right is left out; [skip] counts the characters of the
    occurrence still to leave out. *)
Fixpoint remove_all (obj : string) (skip : nat) (s : string) : string :=
  match s with
  | EmptyString => EmptyString
  | String c rest =>
      match skip with
      | S k => remove_all obj k rest
      | O =>
          if String.prefix obj s
          then remove_all obj (String.length obj - 1) rest
          else String c (remove_all obj 0 rest)
      end
  end.

(** [line.split(" ")]. *)
Fixpoint split_on (sep : ascii) (s : string) : list string :=
  match s with
  | EmptyString => [EmptyString]
  | String c rest =>
      if Ascii.eqb c sep then EmptyString :: split_on sep rest
      else match split_on sep rest with
           | h :: t => String c h :: t
           | [] => [String c EmptyString]
           end
  end.

(** [obj[1:-1]]. *)
Fixpoint drop_last (s : string) : string :=
  match s with
  | EmptyString => EmptyString
  | String c EmptyString => EmptyString
  | String c rest => String c (drop_last rest)
  end.

Definition strip_ends (obj : string) : string :=
  match obj with
  | EmptyString => EmptyString
  | String _ rest => drop_last rest
  end.

(** The names [on_drop] goes through: the brace groups without their
    braces, then the words of what is left of the line. *)
Definition drop_targets (line : string) : list string :=
  let objs := re_findall_braces line in
  map strip_ends objs ++
  split_on " " (fold_left (fun l obj => remove_all obj 0 l) objs line).

(** [ImQuick(self.master, file)]: another window, with a state of its own. *)
Variable new_window : string -> result unit.

(** New windows opened one after the other, up to the first that raises. *)
Fixpoint new_windows (files : list string) : result unit :=
  match files with
  | [] => Ok tt
  | f :: rest =>
      match new_window f with
      | Ok _ => new_windows rest
      | Exc e => Exc e
      end
  end.

Fixpoint open_dropped (files : list string) : M unit :=
  match files with
  | [] => ret tt
  | f :: rest =>
      (if supported f then
         loaded <- gets file_loaded ;;
         if loaded : bool then lift (new_window f) else load_image f
       else ret tt) ;;
      open_dropped rest
  end.

Definition on_drop (data : string) : M unit := open_dropped (drop_targets data).

(** ** Theorems *)

Lemma Qle_bool_false (x y : Q) : Qle_bool x y = false -> (y < x)%Q.
Proof.
  intros H. apply Qnot_le_lt. intros Hle.
  apply Qle_bool_iff in Hle. congruence.
Qed.

Lemma normalize_scale_functional (m : Q) (s1 s2 : scale) :
  normalize_scale m s1 -> normalize_scale m s2 -> s1 = s2.
Proof.
  intros H1 H2; destruct H1; destruct H2; try reflexivity; exfalso; lra.
Qed.

(** C1. For every non-empty raw array, [rescale_data] applies to each sample
    the scale that the specification's step function attaches to the array's
    maximum, then casts to unsigned 8-bit; the step function has one value for
    each maximum, and the maxima 255/256, 1023/1024, 4095/4096 and 0/1/2 sit on
    the branch edges as stated. *)
Theorem rescale_data_step_function (a : ndarray Q) (m : Q) :
  array_max a = Some m ->
  (exists sc,
      normalize_scale m sc /\
      (forall sc', normalize_scale m sc' -> sc' = sc) /\
      rescale_data a = Ok (amap (fun x => astype_uint8 (apply_scale sc x)) a)) /\
  (normalize_scale 255 PassThrough /\ normalize_scale 256 (DivideBy 4)) /\
  (normalize_scale 1023 (DivideBy 4) /\ normalize_scale 1024 (DivideBy 16)) /\
  (normalize_scale 4095 (DivideBy 16) /\ normalize_scale 4096 (DivideBy 265)) /\
  (normalize_scale 0 (MultiplyBy 256) /\ normalize_scale 1 (MultiplyBy 256) /\
   normalize_scale 2 PassThrough).
Proof.
  intros Hmax. split.
  - unfold rescale_data. rewrite Hmax.
    destruct (Qle_bool 4096 m) eqn:E1.
    { apply Qle_bool_iff in E1. exists (DivideBy 265).
      assert (Hs : normalize_scale m (DivideBy 265)) by (constructor; assumption).
      split; [exact Hs|]. split.
      - intros sc' Hsc'. exact (normalize_scale_functional _ _ _ Hsc' Hs).
      - unfold amap; simpl. rewrite map_map. reflexivity. }
    apply Qle_bool_false in E1.
    destruct (Qle_bool 1024 m) eqn:E2.
    { apply Qle_bool_iff in E2. exists (DivideBy 16).
      assert (Hs : normalize_scale m (DivideBy 16)) by (constructor; assumption).
      split; [exact Hs|]. split.
      - intros sc' Hsc'. exact (normalize_scale_functional _ _ _ Hsc' Hs).
      - unfold amap; simpl. rewrite map_map. reflexivity. }
    apply Qle_bool_false in E2.
    destruct (Qle_bool 256 m) eqn:E3.
    { apply Qle_bool_iff in E3. exists (DivideBy 4).
      assert (Hs : normalize_scale m (DivideBy 4)) by (constructor; assumption).
      split; [exact Hs|]. split.
      - intros sc' Hsc'. exact (normalize_scale_functional _ _ _ Hsc' Hs).
      - unfold amap; simpl. rewrite map_map. reflexivity. }
    apply Qle_bool_false in E3.
    destruct (Qle_bool m 1) eqn:E4.
    { apply Qle_bool_iff in E4. exists (MultiplyBy 256).
      assert (Hs : normalize_scale m (MultiplyBy 256)) by (constructor; assumption).
      split; [exact Hs|]. split.
      - intros sc' Hsc'. exact (normalize_scale_functional _ _ _ Hsc' Hs).
      - unfold amap; simpl. rewrite map_map. reflexivity. }
    apply Qle_bool_false in E4.
    exists PassThrough.
    assert (Hs : normalize_scale m PassThrough) by (constructor; assumption).
    split; [exact Hs|]. split.
    + intros sc' Hsc'. exact (normalize_scale_functional _ _ _ Hsc' Hs).
    + unfold amap; simpl. reflexivity.
  - repeat split; constructor; lra.
Qed.

(** *** The levels window is monotone and stays in range *)

Lemma rnd_proper (x y : Q) : (x == y)%Q -> (rnd x == rnd y)%Q.
Proof.
  intros H. apply Qle_antisym; apply rnd_mono; rewrite H; apply Qle_refl.
Qed.

Lemma Qltb_true (x y : Q) : Qltb x y = true <-> (x < y)%Q.
Proof.
  unfold Qltb. rewrite negb_true_iff. split.
  - apply Qle_bool_false.
  - intros H. destruct (Qle_bool y x) eqn:E; [|reflexivity].
    apply Qle_bool_iff in E. exfalso. apply (Qlt_not_le _ _ H E).
Qed.

Lemma Qltb_false (x y : Q) : Qltb x y = false <-> (y <= x)%Q.
Proof.
  unfold Qltb. rewrite negb_false_iff. apply Qle_bool_iff.
Qed.

Lemma trunc_floor (x : Q) : (0 <= x)%Q -> trunc x = Qfloor x.
Proof.
  destruct x as [n d]. unfold Qle, trunc, Qfloor; simpl. intros H.
  apply Z.quot_div_nonneg; lia.
Qed.

Lemma uint8_small (z : Z) : 0 <= z <= 255 -> uint8 z = z.
Proof. intros H. unfold uint8. apply Z.mod_small. lia. Qed.

Lemma wrap_signed_16_small (z : Z) :
  - 32768 <= z <= 32767 -> wrap_signed 16 z = z.
Proof.
  intros H. unfold wrap_signed.
  change (2 ^ (16 - 1)) with 32768. change (2 ^ 16) with 65536.
  rewrite Z.mod_small by lia. lia.
Qed.

(** From -32512 to 255 the difference is the exact one. *)
Lemma window_difference (lo v : Z) :
  -32512 <= lo <= 255 -> 0 <= v <= 255 ->
  sub_scalar (clamp_low lo v) lo = Z.max v lo - lo.
Proof.
  intros Hlo Hv. unfold sub_scalar, clamp_low.
  destruct (Z.leb_spec 0 lo) as [H0|H0]; simpl.
  - destruct (Z.leb_spec lo 255) as [_|]; [|lia].
    destruct (Z.ltb_spec v lo) as [E|E].
    + rewrite (uint8_small lo) by lia. rewrite uint8_small by lia. lia.
    + rewrite uint8_small by lia. lia.
  - destruct (Z.ltb_spec lo 0) as [_|]; [|lia].
    destruct (Z.ltb_spec v lo) as [E|E]; [lia|].
    change (- 2 ^ 15) with (-32768).
    destruct (Z.leb_spec (-32768) lo) as [_|]; [|lia].
    rewrite wrap_signed_16_small by lia. lia.
Qed.

Lemma valid_wide (w : Z * Z) : valid_window w -> wide_window w.
Proof. unfold valid_window, wide_window. lia. Qed.

Lemma valid_pairs_wide :
  forall (n : nat) (l : list Z),
    (List.length l <= n)%nat -> valid_pairs l -> wide_pairs l.
Proof.
  induction n as [|n IH]; intros l Hn H.
  - destruct l; [exact I | simpl in Hn; lia].
  - destruct l as [|lo [|hi rest]]; try exact I.
    destruct H as [Hw Hrest]. split.
    + apply valid_wide. exact Hw.
    + apply IH; [simpl in Hn; lia | exact Hrest].
Qed.

Lemma valid_windows_wide (s : ImQuick) : valid_windows s -> wide_windows s.
Proof.
  unfold valid_windows, wide_windows. destruct (per_channel_contrast s).
  - apply (valid_pairs_wide _ _ (le_n _)).
  - apply valid_wide.
Qed.

Lemma inject_Z_nonneg (z : Z) : 0 <= z -> (0 <= inject_Z z)%Q.
Proof.
  intros H. change 0%Q with (inject_Z 0). rewrite <- Zle_Qle. exact H.
Qed.

Lemma rnd_nonneg (x : Q) : (0 <= x)%Q -> (0 <= rnd x)%Q.
Proof.
  intros H. apply Qle_trans with (rnd (inject_Z 0)).
  - rewrite rnd_int by (simpl; lia). apply Qle_refl.
  - apply rnd_mono. exact H.
Qed.










Section Channels.

Variable c : nat.
Variable ps : list (Z * Z).
Hypothesis c_pos : c <> 0%nat.
Hypothesis ps_length : List.length ps = c.
Hypothesis ps_valid : Forall wide_window ps.





End Channels.






(** [show_image] changes the widgets and nothing else, whether it returns or
    raises. *)
Lemma show_image_changes_gui (s : ImQuick) :
  exists g, snd (show_image s) = set_gui g s.
Proof.
  assert (E : s = set_gui (gui s) s) by (destruct s; reflexivity).
  unfold show_image, bind, gets, lift, tk, modify, ret, raise.
  destruct (canvas_bbox toolkit s) as [bbox|]; [|exists (gui s); exact E].
  cbv beta iota.
  match goal with
  | |- context [show_image_tile ?z ?b ?v] =>
      destruct (show_image_tile z b v) as [[scroll [t|]]|e]
  end; cbv beta iota; try (eexists; reflexivity).
  change (snd (scroll, Some t)) with (Some t). cbv beta iota.
  change (displayed_image (set_gui (gui s ++ [ShowImage]) s))
    with (displayed_image s).
  destruct (displayed_image s) as [im|]; [|eexists; reflexivity].
  destruct (pil_tile toolkit im t); eexists; reflexivity.
Qed.

Lemma show_image_keeps {B : Type} (f : ImQuick -> B) :
  (forall g s, f (set_gui g s) = f s) -> keeps f show_image.
Proof.
  intros Hf s. destruct (show_image_changes_gui s) as [g ->]. apply Hf.
Qed.



(** *** The two bounds correct each other *)

Section Keeps.

Context {B : Type} (f : ImQuick -> B).

Lemma keeps_bind {A C : Type} (m : M A) (k : A -> M C) :
  keeps f m -> (forall a, keeps f (k a)) -> keeps f (bind m k).
Proof.
  intros Hm Hk s. unfold bind. specialize (Hm s).
  destruct (m s) as [[a|e] s1]; simpl in *.
  - rewrite (Hk a s1). exact Hm.
  - exact Hm.
Qed.

Lemma keeps_lift {A : Type} (r : result A) : keeps f (lift r).
Proof. intros s. reflexivity. Qed.

Lemma keeps_gets {A : Type} (g : ImQuick -> A) : keeps f (gets g).
Proof. intros s. reflexivity. Qed.

Lemma keeps_ret {A : Type} (a : A) : keeps f (ret a).
Proof. intros s. reflexivity. Qed.

Lemma keeps_raise {A : Type} (e : exn) : keeps f (raise (A := A) e).
Proof. intros s. reflexivity. Qed.

Lemma keeps_not_without_file (m : M unit) :
  keeps f m -> keeps f (not_without_file m).
Proof.
  intros Hm s. unfold not_without_file.
  destruct (file_loaded s); [apply Hm | reflexivity].
Qed.

Lemma keeps_try_except {A : Type} (body handler : M A) (handles : exn -> bool) :
  keeps f body -> keeps f handler -> keeps f (try_except body handles handler).
Proof.
  intros Hb Hh s. unfold try_except. specialize (Hb s).
  destruct (body s) as [[a|e] s1]; simpl in *; [exact Hb|].
  destruct (handles e); [|exact Hb]. rewrite (Hh s1). exact Hb.
Qed.

End Keeps.

(** Chains of binds whose steps visibly leave the observation alone. *)
Ltac keeps_step :=
  first
    [ apply keeps_bind; [|intro]
    | apply keeps_gets | apply keeps_lift | apply keeps_ret | apply keeps_raise
    | apply keeps_not_without_file
    | apply keeps_try_except
    | match goal with
      | |- keeps _ (match ?x with _ => _ end) => destruct x
      | |- keeps _ (if ?b then _ else _) => destruct b
      | |- keeps _ (let '(_, _) := ?x in _) => destruct x
      end
    | (intros ?; reflexivity) ].
Ltac keeps_auto := repeat keeps_step.

Lemma update_contrast_keeps_bounds : keeps bounds update_contrast.
Proof. unfold update_contrast, show_image, tk. keeps_auto. Qed.

Lemma store_display_values_keeps_bounds : keeps bounds store_display_values.
Proof. unfold store_display_values. keeps_auto. Qed.

(** The tail shared by the callbacks: store, then redraw unless dirty. *)
Lemma callback_tail_keeps_bounds (dirty : bool) :
  keeps bounds (store_display_values ;;
                if negb dirty then update_contrast else ret tt).
Proof.
  apply keeps_bind; [apply store_display_values_keeps_bounds|].
  intros _. destruct dirty; simpl.
  - apply keeps_ret.
  - apply update_contrast_keeps_bounds.
Qed.

(** A callback that finds nothing to correct leaves the bounds alone. *)
Lemma update_max_display_nested_bounds (s : ImQuick) :
  max_display_value s <> 0 -> min_display_value s < max_display_value s ->
  bounds (snd (update_max_display_nested s)) = bounds s.
Proof.
  intros H0 Hlt.
  unfold update_max_display_nested, update_max_display_with.
  unfold bind at 1. unfold gets at 1. unfold bind at 1. unfold gets at 1.
  destruct (max_display_value s =? 0) eqn:E0; [apply Z.eqb_eq in E0; contradiction|].
  unfold bind at 1. unfold ret at 1.
  destruct (max_display_value s <=? min_display_value s) eqn:E1;
    [apply Z.leb_le in E1; lia|].
  unfold bind at 1. unfold ret at 1.
  apply (callback_tail_keeps_bounds false s).
Qed.

Lemma update_min_display_nested_bounds (s : ImQuick) :
  min_display_value s <> 255 -> min_display_value s < max_display_value s ->
  bounds (snd (update_min_display_nested s)) = bounds s.
Proof.
  intros H0 Hlt.
  unfold update_min_display_nested, update_min_display_with.
  unfold bind at 1. unfold gets at 1. unfold bind at 1. unfold gets at 1.
  destruct (min_display_value s =? 255) eqn:E0; [apply Z.eqb_eq in E0; contradiction|].
  unfold bind at 1. unfold ret at 1.
  destruct (max_display_value s <=? min_display_value s) eqn:E1;
    [apply Z.leb_le in E1; lia|].
  unfold bind at 1. unfold ret at 1.
  apply (callback_tail_keeps_bounds false s).
Qed.

Lemma min_display_value_set_bounds (s : ImQuick) (v : Z) :
  0 <= v <= 255 -> max_display_value s <= v ->
  bounds (state_after (min_display_value_set v s)) =
  (if v =? 255 then 254 else v, v + 1).
Proof.
  intros Hv Hle.
  unfold min_display_value_set, modify, state_after, tk_callback, state_after.
  cbn [snd].
  unfold update_min_display, update_min_display_with.
  unfold bind at 1. unfold gets at 1. unfold bind at 1. unfold gets at 1.
  cbn [min_display_value max_display_value set_min_display_value].
  apply Z.leb_le in Hle.
  destruct (v =? 255) eqn:E.
  - unfold bind at 1. unfold modify at 1. unfold bind at 1.
    rewrite Hle. unfold bind at 1. unfold modify at 1. unfold ret at 1.
    rewrite (callback_tail_keeps_bounds true).
    unfold tk_callback, state_after.
    rewrite update_max_display_nested_bounds; cbn; try lia.
    apply Z.eqb_eq in E. subst v. reflexivity.
  - unfold bind at 1. unfold ret at 1. unfold bind at 1.
    rewrite Hle. unfold bind at 1. unfold modify at 1. unfold ret at 1.
    rewrite (callback_tail_keeps_bounds true).
    unfold tk_callback, state_after.
    rewrite update_max_display_nested_bounds; cbn; try lia.
    reflexivity.
Qed.

Lemma max_display_value_set_bounds (s : ImQuick) (v : Z) :
  0 <= v <= 255 -> v <= min_display_value s ->
  bounds (state_after (max_display_value_set v s)) =
  (v - 1, if v =? 0 then 1 else v).
Proof.
  intros Hv Hle.
  unfold max_display_value_set, modify, state_after, tk_callback, state_after.
  cbn [snd].
  unfold update_max_display, update_max_display_with.
  unfold bind at 1. unfold gets at 1. unfold bind at 1. unfold gets at 1.
  cbn [min_display_value max_display_value set_max_display_value].
  apply Z.leb_le in Hle.
  destruct (v =? 0) eqn:E.
  - unfold bind at 1. unfold modify at 1. unfold bind at 1.
    rewrite Hle. unfold bind at 1. unfold modify at 1. unfold ret at 1.
    rewrite (callback_tail_keeps_bounds true).
    unfold tk_callback, state_after.
    rewrite update_min_display_nested_bounds; cbn; try lia.
    reflexivity.
  - unfold bind at 1. unfold ret at 1. unfold bind at 1.
    rewrite Hle. unfold bind at 1. unfold modify at 1. unfold ret at 1.
    rewrite (callback_tail_keeps_bounds true).
    unfold tk_callback, state_after.
    rewrite update_min_display_nested_bounds; cbn; try lia.
    reflexivity.
Qed.

(** C4 (amended). A value [v] in [0, 255] written to the min bound with
    [max <= v], or to the max bound with [v <= min], always leaves
    [min < max].  Unless [v] is the extreme value of the bound being set (255
    for min, 0 for max) the bound being set keeps [v], the other one moves to
    [v + 1] (resp. [v - 1]) and both lie in [0, 255]; at the extreme value the
    bound being set is itself pulled back by one unit (min to 254, max to
    1). *)
Theorem degenerate_window_corrected (s : ImQuick) (v : Z) :
  0 <= v <= 255 ->
  (max_display_value s <= v ->
   let s' := state_after (min_display_value_set v s) in
   min_display_value s' < max_display_value s' /\
   (v <> 255 ->
    min_display_value s' = v /\ max_display_value s' = v + 1 /\
    0 <= min_display_value s' <= 255 /\ 0 <= max_display_value s' <= 255) /\
   (v = 255 -> min_display_value s' = 254)) /\
  (v <= min_display_value s ->
   let s' := state_after (max_display_value_set v s) in
   min_display_value s' < max_display_value s' /\
   (v <> 0 ->
    max_display_value s' = v /\ min_display_value s' = v - 1 /\
    0 <= min_display_value s' <= 255 /\ 0 <= max_display_value s' <= 255) /\
   (v = 0 -> max_display_value s' = 1)).
Proof.
  intros Hv. split; intros Hle s'.
  - pose proof (min_display_value_set_bounds s v Hv Hle) as B.
    fold s' in B. unfold bounds in B. injection B as Bmin Bmax.
    rewrite Bmin, Bmax. destruct (v =? 255) eqn:E.
    + apply Z.eqb_eq in E. repeat split; intros; lia.
    + apply Z.eqb_neq in E. repeat split; intros; lia.
  - pose proof (max_display_value_set_bounds s v Hv Hle) as B.
    fold s' in B. unfold bounds in B. injection B as Bmin Bmax.
    rewrite Bmin, Bmax. destruct (v =? 0) eqn:E.
    + apply Z.eqb_eq in E. repeat split; intros; lia.
    + apply Z.eqb_neq in E. repeat split; intros; lia.
Qed.

(** *** Zoom guards *)

(** A redraw leaves the zoom factor as the step has set it. *)
Lemma zoom_image_keeps_zoom (x y scale : Q) :
  keeps zoom_factor (zoom_image x y scale).
Proof.
  unfold zoom_image, tk. apply keeps_not_without_file.
  apply keeps_bind; [intros s; reflexivity | intros _].
  apply keeps_bind; [intros s; reflexivity | intros _].
  apply show_image_keeps. reflexivity.
Qed.

Lemma keeps_after_modify {B : Type} (f : ImQuick -> B) (g : ImQuick -> ImQuick)
    (k : M unit) (s : ImQuick) :
  keeps f k -> f (state_after ((modify g ;; k) s)) = f (g s).
Proof. intros K. unfold state_after, bind, modify. simpl. apply K. Qed.

(** The two guards, on the factor before the step. *)
Lemma zoom_out_step (s : ImQuick) :
  file_loaded s = true ->
  (shown_minor s < 30 -> zoom_out s = (Ok tt, s)) /\
  (30 <= shown_minor s ->
   zoom_factor (state_after (zoom_out s)) = fdiv (zoom_factor s) delta).
Proof.
  intros Hf. unfold shown_minor. split; intros H;
    unfold zoom_out, not_without_file; rewrite Hf;
    unfold bind at 1; unfold gets at 1; unfold bind at 1; unfold gets at 1;
    unfold bind at 1; unfold gets at 1.
  - apply Z.ltb_lt in H. rewrite H. reflexivity.
  - apply Z.ltb_ge in H. rewrite H.
    refine (keeps_after_modify zoom_factor _ _ s _).
    keeps_auto.
Qed.

Lemma zoom_in_step (s : ImQuick) :
  file_loaded s = true ->
  ((zoom_ceiling s < zoom_factor s)%Q -> zoom_in s = (Ok tt, s)) /\
  ((zoom_factor s <= zoom_ceiling s)%Q ->
   zoom_factor (state_after (zoom_in s)) = fmul (zoom_factor s) delta).
Proof.
  intros Hf. unfold zoom_ceiling. split; intros H;
    unfold zoom_in, not_without_file; rewrite Hf;
    unfold bind at 1; unfold gets at 1; unfold bind at 1; unfold gets at 1;
    unfold bind at 1; unfold gets at 1.
  - apply Qltb_true in H. rewrite H. reflexivity.
  - apply Qltb_false in H. rewrite H.
    refine (keeps_after_modify zoom_factor _ _ s _).
    keeps_auto.
Qed.

Lemma zoom_mouse_out_step (s : ImQuick) (event : wheel_event) :
  file_loaded s = true -> pointer_inside event = true -> ev_delta event < 0 ->
  (shown_minor s < 30 -> zoom_mouse event s = (Ok tt, s)) /\
  (30 <= shown_minor s ->
   zoom_factor (state_after (zoom_mouse event s)) = fdiv (zoom_factor s) delta).
Proof.
  intros Hf Hin Hd. unfold pointer_inside in Hin.
  assert (Hpos : (0 <? ev_delta event) = false) by (apply Z.ltb_ge; lia).
  apply Z.ltb_lt in Hd.
  unfold shown_minor. split; intros H;
    unfold zoom_mouse, not_without_file; rewrite Hf;
    destruct (ev_bbox event) as [[[[b0 b1] b2] b3]|]; try discriminate Hin;
    apply andb_true_iff in Hin; destruct Hin as [Hx Hy];
    rewrite Hx, Hy; cbn [negb orb]; rewrite Hd, Hpos;
    unfold wheel_out;
    unfold bind at 1; unfold bind at 1; unfold gets at 1;
    unfold bind at 1; unfold gets at 1; unfold bind at 1; unfold gets at 1.
  - apply Z.ltb_lt in H. rewrite H. reflexivity.
  - apply Z.ltb_ge in H. rewrite H.
    exact (zoom_image_keeps_zoom (ev_x event) (ev_y event) (fdiv 1 delta)
             (set_zoom_factor (fdiv (zoom_factor s) delta) s)).
Qed.

Lemma zoom_mouse_in_step (s : ImQuick) (event : wheel_event) :
  file_loaded s = true -> pointer_inside event = true -> 0 < ev_delta event ->
  ((zoom_ceiling s < zoom_factor s)%Q -> zoom_mouse event s = (Ok tt, s)) /\
  ((zoom_factor s <= zoom_ceiling s)%Q ->
   zoom_factor (state_after (zoom_mouse event s)) = fmul (zoom_factor s) delta).
Proof.
  intros Hf Hin Hd. unfold pointer_inside in Hin.
  assert (Hneg : (ev_delta event <? 0) = false) by (apply Z.ltb_ge; lia).
  apply Z.ltb_lt in Hd.
  unfold zoom_ceiling. split; intros H;
    unfold zoom_mouse, not_without_file; rewrite Hf;
    destruct (ev_bbox event) as [[[[b0 b1] b2] b3]|]; try discriminate Hin;
    apply andb_true_iff in Hin; destruct Hin as [Hx Hy];
    rewrite Hx, Hy; cbn [negb orb]; rewrite Hd, Hneg;
    unfold wheel_in;
    unfold bind at 1; unfold ret at 1; unfold bind at 1; unfold bind at 1;
    unfold gets at 1; unfold bind at 1; unfold gets at 1;
    unfold bind at 1; unfold gets at 1.
  - apply Qltb_true in H. rewrite H. reflexivity.
  - apply Qltb_false in H. rewrite H.
    exact (zoom_image_keeps_zoom (ev_x event) (ev_y event) delta
             (set_zoom_factor (fmul (zoom_factor s) delta) s)).
Qed.

Lemma delta_nonneg : (0 <= delta)%Q.
Proof. unfold delta. apply rnd_nonneg. discriminate. Qed.

(** C5 (amended). With a file loaded, a zoom step is rejected as a no-op
    exactly on the factor it starts from: zooming out (button, or wheel with
    negative delta over the image) when the image's minor dimension on screen
    is already below 30, zooming in (button, or wheel with positive delta)
    when the factor already exceeds a fifth of the canvas's minor dimension.
    An accepted step divides, resp. multiplies, the factor by [delta]; the
    factor after an accepted zoom-in is at most one step above the ceiling. *)
Theorem zoom_step_checked_before (s : ImQuick) (event : wheel_event) :
  file_loaded s = true ->
  ((shown_minor s < 30 ->
    zoom_out s = (Ok tt, s) /\
    (pointer_inside event = true -> ev_delta event < 0 ->
     zoom_mouse event s = (Ok tt, s))) /\
   (30 <= shown_minor s ->
    zoom_factor (state_after (zoom_out s)) = fdiv (zoom_factor s) delta /\
    (pointer_inside event = true -> ev_delta event < 0 ->
     zoom_factor (state_after (zoom_mouse event s)) = fdiv (zoom_factor s) delta))) /\
  (((zoom_ceiling s < zoom_factor s)%Q ->
    zoom_in s = (Ok tt, s) /\
    (pointer_inside event = true -> 0 < ev_delta event ->
     zoom_mouse event s = (Ok tt, s))) /\
   ((zoom_factor s <= zoom_ceiling s)%Q ->
    zoom_factor (state_after (zoom_in s)) = fmul (zoom_factor s) delta /\
    (pointer_inside event = true -> 0 < ev_delta event ->
     zoom_factor (state_after (zoom_mouse event s)) = fmul (zoom_factor s) delta) /\
    (fmul (zoom_factor s) delta <= fmul (zoom_ceiling s) delta)%Q)).
Proof.
  intros Hf. split; split; intros H.
  - split; [apply zoom_out_step; assumption|].
    intros Hin Hd. apply zoom_mouse_out_step; assumption.
  - split; [apply zoom_out_step; assumption|].
    intros Hin Hd. apply zoom_mouse_out_step; assumption.
  - split; [apply zoom_in_step; assumption|].
    intros Hin Hd. apply zoom_mouse_in_step; assumption.
  - split; [apply zoom_in_step; assumption|]. split.
    + intros Hin Hd. apply zoom_mouse_in_step; assumption.
    + unfold fmul. apply rnd_mono. apply Qmult_le_compat_r; [exact H|].
      apply delta_nonneg.
Qed.

(** *** The plane entry *)




(** *** What the levels callbacks cannot touch *)

Section LevelsBlind.

Context {B : Type} (f : ImQuick -> B).
Hypothesis blind : levels_blind f.

Lemma keeps_modify_blind (g : ImQuick -> ImQuick) :
  (forall s, f (g s) = f s) -> keeps f (modify g).
Proof. intros H s. apply H. Qed.

Lemma update_contrast_blind : keeps f update_contrast.
Proof.
  destruct blind as (_ & _ & _ & Hd & Hg).
  unfold update_contrast.
  apply keeps_bind; [apply keeps_gets|]. intros [temp|]; [|apply keeps_raise].
  apply keeps_bind; [apply keeps_gets|]. intros s0.
  apply keeps_bind; [apply keeps_lift|]. intros arr.
  apply keeps_bind; [apply keeps_lift|]. intros img.
  apply keeps_bind; [apply keeps_modify_blind; intros s; apply Hd|]. intros _.
  apply show_image_keeps. exact Hg.
Qed.

Lemma store_display_values_blind : keeps f store_display_values.
Proof.
  destruct blind as (_ & _ & Ha & _ & _).
  unfold store_display_values.
  apply keeps_bind; [apply keeps_gets|]. intros [p|]; [|apply keeps_ret].
  destruct (working p); [apply keeps_ret|].
  apply keeps_bind; [apply keeps_gets|]. intros arr.
  apply keeps_bind; [apply keeps_gets|]. intros min_v.
  apply keeps_bind; [apply keeps_lift|]. intros arr1.
  apply keeps_bind; [apply keeps_modify_blind; intros s; apply Ha|]. intros _.
  apply keeps_bind; [apply keeps_gets|]. intros max_v.
  apply keeps_bind; [apply keeps_lift|]. intros arr2.
  apply keeps_modify_blind. intros s. apply Ha.
Qed.

Lemma update_min_display_with_blind (max_set : Z -> ImQuick -> ImQuick) :
  (forall v s, f (max_set v s) = f s) -> keeps f (update_min_display_with max_set).
Proof.
  intros Hset. destruct blind as (Hmin & _).
  unfold update_min_display_with.
  apply keeps_bind; [apply keeps_gets|]. intros min_d.
  apply keeps_bind; [apply keeps_gets|]. intros max_d.
  apply keeps_bind.
  { destruct (min_d =? 255); [|apply keeps_ret].
    apply keeps_modify_blind. intros s. apply Hmin. }
  intros _. apply keeps_bind.
  { destruct (max_d <=? min_d); [|apply keeps_ret].
    apply keeps_bind; [|intros _; apply keeps_ret].
    apply keeps_modify_blind. intros s. apply Hset. }
  intros dirty. apply keeps_bind; [apply store_display_values_blind|].
  intros _. destruct (negb dirty); [apply update_contrast_blind | apply keeps_ret].
Qed.

Lemma update_max_display_with_blind (min_set : Z -> ImQuick -> ImQuick) :
  (forall v s, f (min_set v s) = f s) -> keeps f (update_max_display_with min_set).
Proof.
  intros Hset. destruct blind as (_ & Hmax & _).
  unfold update_max_display_with.
  apply keeps_bind; [apply keeps_gets|]. intros min_d.
  apply keeps_bind; [apply keeps_gets|]. intros max_d.
  apply keeps_bind.
  { destruct (max_d =? 0); [|apply keeps_ret].
    apply keeps_modify_blind. intros s. apply Hmax. }
  intros _. apply keeps_bind.
  { destruct (max_d <=? min_d); [|apply keeps_ret].
    apply keeps_bind; [|intros _; apply keeps_ret].
    apply keeps_modify_blind. intros s. apply Hset. }
  intros dirty. apply keeps_bind; [apply store_display_values_blind|].
  intros _. destruct (negb dirty); [apply update_contrast_blind | apply keeps_ret].
Qed.

Lemma min_display_value_set_blind (v : Z) : keeps f (min_display_value_set v).
Proof.
  pose proof blind as (Hmin & Hmax & _).
  unfold min_display_value_set. apply keeps_modify_blind. intros s.
  unfold tk_callback, state_after, update_min_display.
  rewrite update_min_display_with_blind; [apply Hmin|].
  intros u t. unfold tk_callback, state_after, update_max_display_nested.
  rewrite update_max_display_with_blind; [apply Hmax | exact Hmin].
Qed.

Lemma max_display_value_set_blind (v : Z) : keeps f (max_display_value_set v).
Proof.
  pose proof blind as (Hmin & Hmax & _).
  unfold max_display_value_set. apply keeps_modify_blind. intros s.
  unfold tk_callback, state_after, update_max_display.
  rewrite update_max_display_with_blind; [apply Hmax|].
  intros u t. unfold tk_callback, state_after, update_min_display_nested.
  rewrite update_min_display_with_blind; [apply Hmin | exact Hmax].
Qed.

End LevelsBlind.

(** *** Loading *)

(** [load_image] split at its [try] block. *)
Lemma load_image_cases (file : string) (s : ImQuick) :
  load_image file s =
  match load_image_decode (normpath file) (load_image_begin s) with
  | (Ok _, s1) => load_image_display (normpath file) s1
  | (Exc _, s1) => (Ok tt, load_image_failed s1)
  end.
Proof.
  unfold load_image, load_image_begin, state_after, try_except.
  unfold bind at 1. unfold tk at 1. unfold modify at 1.
  unfold bind at 1. unfold modify at 1.
  unfold bind at 1. unfold tk at 1. unfold modify at 1.
  unfold bind at 1. unfold bind at 1.
  cbn [snd bind tk modify].
  match goal with
  | |- context [load_image_decode ?f ?t] =>
      destruct (load_image_decode f t) as [[[]|e] s1]; reflexivity
  end.
Qed.

Ltac keeps_field :=
  repeat first
    [ apply min_display_value_set_blind; repeat split; reflexivity
    | apply max_display_value_set_blind; repeat split; reflexivity
    | keeps_step ].

Lemma load_image_display_keeps_series (file : string) :
  keeps series (load_image_display file).
Proof.
  unfold load_image_display, reset_levels, show_loaded, switch_image,
    first_show_image, fit_to_window, zoom_image, center_canvas, show_image, tk.
  keeps_field.
Qed.

Lemma load_image_display_keeps_stack (file : string) :
  keeps stack (load_image_display file).
Proof.
  unfold load_image_display, reset_levels, show_loaded, switch_image,
    first_show_image, fit_to_window, zoom_image, center_canvas, show_image, tk.
  keeps_field.
Qed.

Lemma load_image_display_keeps_focus (file : string) :
  keeps z_label_focus (load_image_display file).
Proof.
  unfold load_image_display, reset_levels, show_loaded, switch_image,
    first_show_image, fit_to_window, zoom_image, center_canvas, show_image, tk.
  keeps_field.
Qed.

Lemma load_image_decode_keeps_series (file : string) :
  keeps series (load_image_decode file).
Proof. unfold load_image_decode, tk. keeps_field. Qed.

Lemma load_image_decode_keeps_focus (file : string) :
  keeps z_label_focus (load_image_decode file).
Proof. unfold load_image_decode, tk. keeps_field. Qed.

Lemma load_image_decode_keeps_canvas (file : string) :
  keeps (fun s => (winfo_width s, winfo_height s)) (load_image_decode file).
Proof. unfold load_image_decode, tk. keeps_field. Qed.

Lemma load_image_keeps_series (file : string) : keeps series (load_image file).
Proof.
  intros s. rewrite load_image_cases.
  pose proof (load_image_decode_keeps_series (normpath file) (load_image_begin s)) as D.
  destruct (load_image_decode (normpath file) (load_image_begin s)) as [[[]|e] s1];
    simpl in D.
  - rewrite load_image_display_keeps_series. exact D.
  - exact D.
Qed.

Lemma load_image_clears_focus (file : string) (s : ImQuick) :
  z_label_focus (snd (load_image file s)) = false.
Proof.
  rewrite load_image_cases.
  pose proof (load_image_decode_keeps_focus (normpath file) (load_image_begin s)) as D.
  destruct (load_image_decode (normpath file) (load_image_begin s)) as [[[]|e] s1];
    simpl in D.
  - rewrite load_image_display_keeps_focus. exact D.
  - exact D.
Qed.

Lemma quiet_bind {A C : Type} (m : M A) (k : A -> M C) :
  keeps gui m -> (forall a, quiet (k a)) -> quiet (bind m k).
Proof.
  intros Hm Hk s0 e s1. unfold bind. specialize (Hm s0).
  destruct (m s0) as [[a|e0] s2]; simpl in Hm; intros H.
  - rewrite (Hk a _ _ _ H). exact Hm.
  - injection H as _ <-. exact Hm.
Qed.

Lemma quiet_total {A : Type} (m : M A) : total m -> quiet m.
Proof.
  intros Hm s0 e s1 H. destruct (Hm s0) as (a & s2 & E). congruence.
Qed.

Lemma quiet_raise {A : Type} (e : exn) : quiet (raise (A := A) e).
Proof. intros s0 e' s1 H. injection H as _ <-. reflexivity. Qed.

Lemma total_bind {A C : Type} (m : M A) (k : A -> M C) :
  total m -> (forall a, total (k a)) -> total (bind m k).
Proof.
  intros Hm Hk s0. destruct (Hm s0) as (a & s1 & E).
  destruct (Hk a s1) as (c & s2 & E'). exists c, s2.
  unfold bind. rewrite E. exact E'.
Qed.

Lemma total_modify (g : ImQuick -> ImQuick) : total (modify g).
Proof. intros s0. exists tt, (g s0). reflexivity. Qed.

(** When the [try] block raises, it has sent nothing to the widgets. *)
Lemma load_image_decode_raises_quietly (file : string) :
  quiet (load_image_decode file).
Proof.
  unfold load_image_decode.
  apply quiet_bind; [keeps_field|]. intros r.
  apply quiet_bind; [keeps_field|]. intros _.
  apply quiet_bind; [keeps_field|]. intros _.
  apply quiet_bind; [keeps_field|]. intros [rd|]; [|apply quiet_raise].
  apply quiet_bind; [keeps_field|]. intros len.
  apply quiet_bind; [keeps_field|]. intros _.
  apply quiet_bind; [keeps_field|]. intros mp.
  destruct (0 <? mp).
  - apply quiet_bind; [keeps_field|]. intros d.
    apply quiet_total. unfold tk. repeat (apply total_bind; [|intros _]);
      apply total_modify.
  - apply quiet_bind; [keeps_field|]. intros d.
    apply quiet_total. unfold tk. repeat (apply total_bind; [|intros _]);
      apply total_modify.
Qed.

Lemma without_file_nothing_runs (m : M unit) (s : ImQuick) :
  file s = None -> not_without_file m s = (Ok tt, s).
Proof.
  intros H. unfold not_without_file, file_loaded. rewrite H. reflexivity.
Qed.

(** C9. Whatever exception the [try] block of [load_image] raises (opening
    the reader, reading its metadata or length, decoding the plane),
    [load_image] returns normally; the state it leaves has no file and no
    reader, the canvas has been cleared and shows only the text
    "[Unable to open file]", and every operation guarded by
    [not_without_file] is a no-op there. *)
Theorem load_image_recovers (s s1 : ImQuick) (path : string) (e : exn) :
  load_image_decode (normpath path) (load_image_begin s) = (Exc e, s1) ->
  let s' := load_image_failed s1 in
  load_image path s = (Ok tt, s') /\
  file s' = None /\ reader s' = None /\
  gui s' = gui s ++ [CanvasDeleteAll; FocusSet;
                     CreateText (winfo_width s / 2) (winfo_height s / 2)
                                "[Unable to open file]"] /\
  zoom_in s' = (Ok tt, s') /\
  zoom_out s' = (Ok tt, s') /\
  (forall event, zoom_mouse event s' = (Ok tt, s')) /\
  (forall x y scale, zoom_image x y scale s' = (Ok tt, s')) /\
  fit_to_window s' = (Ok tt, s') /\
  (forall loading, first_show_image loading s' = (Ok tt, s')) /\
  update_z_display s' = (Ok tt, s') /\
  (forall event, next_file event s' = (Ok tt, s')) /\
  (forall event, prev_file event s' = (Ok tt, s')).
Proof.
  intros H s'.
  assert (Hfile : file s' = None) by reflexivity.
  split; [rewrite load_image_cases, H; reflexivity|].
  split; [exact Hfile|]. split; [reflexivity|]. split.
  - unfold s', load_image_failed. cbn [gui set_file set_reader set_gui].
    rewrite (load_image_decode_raises_quietly _ _ _ _ H).
    pose proof (load_image_decode_keeps_canvas (normpath path) (load_image_begin s)) as C.
    rewrite H in C. cbn [snd] in C. injection C as -> ->.
    unfold load_image_begin, state_after, bind, tk, modify. cbn.
    rewrite <- !app_assoc. reflexivity.
  - repeat split; intros; apply without_file_nothing_runs; exact Hfile.
Qed.

(** Case analysis on the innermost test of a run that is known to end in a
    given way. *)
Ltac run_cases H :=
  repeat match type of H with
         | context [match ?x with _ => _ end] =>
             lazymatch x with
             | context [match _ with _ => _ end] => fail
             | _ => destruct x eqn:?; cbn in H; try discriminate H
             end
         end.

(** What the [try] block has done when it completes. *)
Lemma load_image_decode_returns (file : string) (s0 s1 : ImQuick) :
  load_image_decode file s0 = (Ok tt, s1) ->
  exists r len,
    reader s1 = Some r /\ get_length r = Ok len /\ max_plane s1 = len - 1 /\
    (0 < max_plane s1 ->
     exists d, get_data r (max_plane s1 / 2) = Ok d /\
               image_data s1 = Some d /\
               z_display_value s1 = max_plane s1 / 2) /\
    (max_plane s1 <= 0 ->
     exists d, get_data r 0 = Ok d /\ image_data s1 = Some d /\
               z_display_value s1 = z_display_value s0).
Proof.
  unfold load_image_decode, bind, lift, modify, gets, tk, ret, raise.
  intros H. cbn in H. run_cases H; injection H as <-; cbn;
    repeat match goal with
           | E : (_ <? _) = true |- _ => apply Z.ltb_lt in E
           | E : (_ <? _) = false |- _ => apply Z.ltb_ge in E
           end;
    eexists; eexists;
    (split; [reflexivity|]); (split; [eassumption|]); (split; [reflexivity|]);
    (split; intros Hmp; [|]); try lia;
    eexists; (split; [eassumption|]); split; reflexivity.
Qed.

Lemma reset_levels_keeps_stack : keeps stack reset_levels.
Proof. unfold reset_levels. keeps_field. Qed.

Lemma show_loaded_keeps_shown (file : string) : keeps shown (show_loaded file).
Proof.
  unfold show_loaded, switch_image, first_show_image, fit_to_window,
    zoom_image, center_canvas, show_image, tk.
  keeps_field.
Qed.

(** What the second half of [load_image] has done when it completes. *)
Lemma load_image_display_returns (file : string) (s1 s2 : ImQuick) :
  load_image_display file s1 = (Ok tt, s2) ->
  exists d sc,
    image_data s1 = Some d /\ rescale_data d = Ok sc /\
    shown s2 = (Some sc, Some sc, Some file).
Proof.
  unfold load_image_display. unfold bind at 1.
  pose proof (reset_levels_keeps_stack s1) as K.
  destruct (reset_levels s1) as [[[]|e] t]; [|discriminate].
  cbn [snd] in K. unfold stack in K. injection K as Kd _ _ _.
  unfold bind at 1. unfold gets at 1. rewrite Kd.
  destruct (image_data s1) as [d|]; [|discriminate].
  unfold bind at 1. unfold modify at 1. unfold bind at 1. unfold lift at 1.
  destruct (rescale_data d) as [sc|e] eqn:Er; [|discriminate].
  unfold bind at 1. unfold modify at 1. unfold bind at 1. unfold lift at 1.
  unfold Image_fromarray. destruct (pil_accepts (shape sc)); [|discriminate].
  unfold bind at 1. unfold modify at 1.
  unfold bind at 1. unfold modify at 1.
  unfold bind at 1. unfold modify at 1.
  intros H. exists d, sc. split; [reflexivity|]. split; [exact Er|].
  match type of H with
  | show_loaded _ ?t = _ =>
      pose proof (show_loaded_keeps_shown file t) as S; rewrite H in S
  end.
  exact S.
Qed.

(** C10 (amended). When the decode of [load_image] completes on a stack with
    [max_plane > 0], the plane decoded is the one of index [max_plane // 2]
    and the plane selector holds that index; the index is 0 exactly when
    [max_plane = 1] and positive from [max_plane = 2] on.  A single-plane file
    ([max_plane <= 0]) decodes plane 0.  When [load_image] then returns, the
    image on display is that plane, rescaled. *)
Theorem load_image_decodes_middle_plane (s s1 : ImQuick) (path : string) :
  load_image_decode (normpath path) (load_image_begin s) = (Ok tt, s1) ->
  let s' := state_after (load_image path s) in
  exists r len d,
    reader s' = Some r /\ get_length r = Ok len /\ max_plane s' = len - 1 /\
    image_data s' = Some d /\
    (0 < max_plane s' ->
     get_data r (max_plane s' / 2) = Ok d /\
     z_display_value s' = max_plane s' / 2 /\
     (max_plane s' = 1 -> z_display_value s' = 0) /\
     (2 <= max_plane s' -> 0 < z_display_value s')) /\
    (max_plane s' <= 0 -> get_data r 0 = Ok d) /\
    (load_image path s = (Ok tt, s') ->
     exists sc, rescale_data d = Ok sc /\
                shown s' = (Some sc, Some sc, Some (normpath path))).
Proof.
  intros H s'.
  destruct (load_image_decode_returns _ _ _ H) as (r & len & Hr & Hl & Hm & Hpos & Hsingle).
  assert (K : stack s' = stack s1).
  { unfold s', state_after. rewrite load_image_cases, H.
    apply load_image_display_keeps_stack. }
  unfold stack in K. injection K as Kd Kz Km Kr.
  assert (Hd : exists d, image_data s1 = Some d).
  { destruct (Z_lt_le_dec 0 (max_plane s1)) as [P|P].
    - destruct (Hpos P) as (d & _ & E & _). exists d. exact E.
    - destruct (Hsingle P) as (d & _ & E & _). exists d. exact E. }
  destruct Hd as [d Hd].
  exists r, len, d. rewrite Kd, Kz, Km, Kr.
  split; [exact Hr|]. split; [exact Hl|]. split; [exact Hm|]. split; [exact Hd|].
  split; [|split].
  - intros P. destruct (Hpos P) as (d' & G & E & Z0).
    rewrite Hd in E. injection E as <-.
    split; [exact G|]. split; [exact Z0|]. rewrite Z0. split.
    + intros ->. reflexivity.
    + intros P2. apply Z.div_str_pos. lia.
  - intros P. destruct (Hsingle P) as (d' & G & E & _).
    rewrite Hd in E. injection E as <-. exact G.
  - intros L. unfold s' in *. rewrite load_image_cases, H in L.
    destruct (load_image_display (normpath path) s1) as [[[]|e] s2] eqn:D;
      [|discriminate L].
    destruct (load_image_display_returns _ _ _ D) as (d' & sc & E & R & S).
    rewrite Hd in E. injection E as <-.
    exists sc. split; [exact R|].
    unfold state_after. rewrite load_image_cases, H, D. exact S.
Qed.

(** *** The file series *)

Lemma supported_iff (name : string) :
  supported name = true <-> extension_supported name.
Proof.
  unfold supported, in_strings, extension_supported, same_ignoring_case.
  rewrite existsb_exists. split.
  - intros (e & Hin & Heq). apply String.eqb_eq in Heq. exists e.
    split; [exact Hin|]. rewrite Heq.
    simpl in Hin.
    repeat (destruct Hin as [<-|Hin]; [reflexivity|]). contradiction.
  - intros (e & Hin & Heq). exists e. split; [exact Hin|].
    apply String.eqb_eq. rewrite Heq.
    simpl in Hin.
    repeat (destruct Hin as [<-|Hin]; [reflexivity|]). contradiction.
Qed.

Lemma py_index_absent (x : string) (l : list string) :
  ~ In x l -> py_index x l = Exc ValueError.
Proof.
  induction l as [|y l IH]; intros H; simpl; [reflexivity|].
  destruct (String.eqb y x) eqn:E.
  - apply String.eqb_eq in E. exfalso. apply H. left. exact E.
  - rewrite IH; [reflexivity|]. intros Hin. apply H. right. exact Hin.
Qed.

Lemma py_index_present (x : string) (l : list string) :
  In x l ->
  exists i, py_index x l = Ok i /\
            0 <= i < Z.of_nat (List.length l) /\
            nth_error l (Z.to_nat i) = Some x.
Proof.
  induction l as [|y l IH]; intros H; [contradiction|]. simpl py_index.
  destruct (String.eqb y x) eqn:E.
  - apply String.eqb_eq in E. subst y. exists 0.
    split; [reflexivity|]. split; [simpl List.length; lia | reflexivity].
  - destruct H as [H|H]; [subst y; rewrite String.eqb_refl in E; discriminate|].
    destruct (IH H) as (i & Hi & Hr & Hn). rewrite Hi. exists (i + 1).
    split; [reflexivity|]. split; [simpl List.length; lia|].
    replace (Z.to_nat (i + 1)) with (S (Z.to_nat i)) by lia. exact Hn.
Qed.

Lemma py_getitem_nth {A : Type} (l : list A) (i : Z) (x : A) :
  0 <= i -> nth_error l (Z.to_nat i) = Some x -> py_getitem l i = Ok x.
Proof.
  intros Hi Hn. unfold py_getitem.
  assert (Hlt : (Z.to_nat i < List.length l)%nat).
  { apply nth_error_Some. rewrite Hn. discriminate. }
  destruct (i <? 0) eqn:E; [apply Z.ltb_lt in E; lia|]. rewrite E. simpl.
  destruct (Z.of_nat (List.length l) <=? i) eqn:E2; [apply Z.leb_le in E2; lia|].
  rewrite Hn. reflexivity.
Qed.

(** C7 (amended). With a file loaded and its directory listed,
    [make_file_list] stores as the series exactly the normalized paths of
    the listed names whose extension is in the supported set, compared
    case-insensitively.  When the current file's path is among them the call
    returns and the current index locates it; when it is absent the call
    raises [ValueError], the series keeps the paths just stored and the
    index is left as it was. *)
Theorem make_file_list_rebuilds (s : ImQuick) (current : string)
    (names : list string) :
  file s = Some current ->
  listdir (dirname (abspath current)) = Ok names ->
  let path_of := fun name => normpath (join (dirname (abspath current)) name) in
  let files := map path_of (filter supported names) in
  (forall p, In p files <->
             exists name, In name names /\ extension_supported name /\
                          p = path_of name) /\
  (In current files ->
   exists i, make_file_list s = (Ok tt, set_current_index i (set_file_list files s)) /\
             0 <= i /\ py_getitem files i = Ok current) /\
  (~ In current files ->
   make_file_list s = (Exc ValueError, set_file_list files s)).
Proof.
  intros Hf Hl path_of files. split; [|split].
  - intros p. unfold files. rewrite in_map_iff. split.
    + intros (name & <- & Hin). apply filter_In in Hin. destruct Hin as [Hin Hs].
      exists name. split; [exact Hin|]. split; [apply supported_iff; exact Hs|].
      reflexivity.
    + intros (name & Hin & Hs & ->). exists name. split; [reflexivity|].
      apply filter_In. split; [exact Hin | apply supported_iff; exact Hs].
  - intros Hin. destruct (py_index_present _ _ Hin) as (i & Hi & Hr & Hn).
    exists i. split; [|split; [lia | apply py_getitem_nth; [lia | exact Hn]]].
    unfold make_file_list, bind, gets, lift, modify. rewrite Hf, Hl.
    cbn [file_list set_file_list]. fold path_of. fold files. rewrite Hi.
    reflexivity.
  - intros Hout. unfold make_file_list, bind, gets, lift, modify.
    rewrite Hf, Hl. cbn [file_list set_file_list]. fold path_of. fold files.
    rewrite (py_index_absent _ _ Hout). reflexivity.
Qed.

Lemma load_current_keeps_series : keeps series load_current.
Proof.
  unfold load_current.
  apply keeps_bind; [intros s; reflexivity|]. intros _.
  apply keeps_bind; [apply keeps_gets|]. intros files.
  apply keeps_bind; [apply keeps_gets|]. intros i.
  apply keeps_bind; [apply keeps_lift|]. intros f.
  apply load_image_keeps_series.
Qed.

Lemma load_current_focus (s : ImQuick) :
  z_label_focus s = false -> z_label_focus (snd (load_current s)) = false.
Proof.
  intros H. unfold load_current.
  unfold bind at 1. unfold modify at 1. unfold bind at 1. unfold gets at 1.
  unfold bind at 1. unfold gets at 1. unfold bind at 1. unfold lift at 1.
  cbn [file_list current_index set_zoom_factor].
  destruct (py_getitem (file_list s) (current_index s)) as [f|e].
  - apply load_image_clears_focus.
  - exact H.
Qed.

(** [next_file] and [prev_file] once their guards are passed. *)
Lemma next_file_runs (event : bool) (s : ImQuick) :
  file_loaded s = true -> andb event (z_label_focus s) = false ->
  2 <= Z.of_nat (List.length (file_list s)) ->
  next_file event s =
  load_current
    (set_current_index
       (next_index (Z.of_nat (List.length (file_list s))) (current_index s)) s).
Proof.
  intros Hf Hb Hn. unfold next_file, not_without_file. rewrite Hf.
  unfold bind at 1. unfold gets at 1. rewrite Hb.
  unfold bind at 1. unfold gets at 1.
  destruct (List.length (file_list s) =? 0)%nat eqn:E0;
    [apply Nat.eqb_eq in E0; rewrite E0 in Hn; simpl in Hn; lia|].
  unfold bind at 1. unfold ret at 1. unfold bind at 1. unfold gets at 1.
  destruct (Z.of_nat (List.length (file_list s)) =? 1) eqn:E1;
    [apply Z.eqb_eq in E1; lia|].
  unfold bind at 1. unfold gets at 1. unfold next_index.
  destruct (current_index s <? Z.of_nat (List.length (file_list s)) - 1);
    [reflexivity|].
  destruct (current_index s =? Z.of_nat (List.length (file_list s)) - 1);
    [reflexivity|].
  unfold bind at 1. unfold ret at 1.
  destruct s; reflexivity.
Qed.

Lemma prev_file_runs (event : bool) (s : ImQuick) :
  file_loaded s = true -> andb event (z_label_focus s) = false ->
  2 <= Z.of_nat (List.length (file_list s)) ->
  prev_file event s =
  load_current
    (set_current_index
       (prev_index (Z.of_nat (List.length (file_list s))) (current_index s)) s).
Proof.
  intros Hf Hb Hn. unfold prev_file, not_without_file. rewrite Hf.
  unfold bind at 1. unfold gets at 1. rewrite Hb.
  unfold bind at 1. unfold gets at 1.
  destruct (List.length (file_list s) =? 0)%nat eqn:E0;
    [apply Nat.eqb_eq in E0; rewrite E0 in Hn; simpl in Hn; lia|].
  unfold bind at 1. unfold ret at 1. unfold bind at 1. unfold gets at 1.
  destruct (Z.of_nat (List.length (file_list s)) =? 1) eqn:E1;
    [apply Z.eqb_eq in E1; lia|].
  unfold bind at 1. unfold gets at 1. unfold prev_index.
  destruct (0 <? current_index s); [reflexivity|].
  destruct (current_index s =? 0); [reflexivity|].
  unfold bind at 1. unfold ret at 1.
  destruct s; reflexivity.
Qed.

Lemma navigation_blocked (event : bool) (s : ImQuick) :
  file_loaded s = false \/ andb event (z_label_focus s) = true ->
  next_file event s = (Ok tt, s) /\ prev_file event s = (Ok tt, s).
Proof.
  intros [H|H]; unfold next_file, prev_file, not_without_file.
  - rewrite H. split; reflexivity.
  - destruct (file_loaded s); [|split; reflexivity].
    unfold bind at 1. unfold gets at 1. rewrite H.
    unfold bind at 1. unfold gets at 1. rewrite H. split; reflexivity.
Qed.

Lemma single_file_series (event : bool) (s : ImQuick) :
  List.length (file_list s) = 1%nat ->
  next_file event s = (Ok tt, s) /\ prev_file event s = (Ok tt, s).
Proof.
  intros H. split; unfold next_file, prev_file, not_without_file;
    (destruct (file_loaded s); [|reflexivity]);
    unfold bind at 1; unfold gets at 1;
    (destruct (andb event (z_label_focus s)); [reflexivity|]);
    unfold bind at 1; unfold gets at 1; rewrite H; cbn [Nat.eqb];
    unfold bind at 1; unfold ret at 1; unfold bind at 1; unfold gets at 1;
    rewrite H; reflexivity.
Qed.

Lemma next_index_mod (n i : Z) :
  2 <= n -> 0 <= i < n -> next_index n i = (i + 1) mod n.
Proof.
  intros Hn Hi. unfold next_index.
  destruct (i <? n - 1) eqn:E.
  - apply Z.ltb_lt in E. rewrite Z.mod_small; lia.
  - apply Z.ltb_ge in E. assert (i = n - 1) as -> by lia.
    rewrite Z.eqb_refl. replace (n - 1 + 1) with n by lia.
    rewrite Z.mod_same; lia.
Qed.

Lemma prev_index_mod (n i : Z) :
  2 <= n -> 0 <= i < n -> prev_index n i = (i - 1) mod n.
Proof.
  intros Hn Hi. unfold prev_index.
  destruct (0 <? i) eqn:E.
  - apply Z.ltb_lt in E. rewrite Z.mod_small; lia.
  - apply Z.ltb_ge in E. assert (i = 0) as -> by lia.
    rewrite Z.eqb_refl. apply (Z.mod_unique (0 - 1) n (-1)); lia.
Qed.

Lemma prev_next_index (n i : Z) :
  2 <= n -> 0 <= i < n -> prev_index n (next_index n i) = i.
Proof.
  intros Hn Hi. unfold next_index, prev_index.
  destruct (i <? n - 1) eqn:E.
  - apply Z.ltb_lt in E.
    destruct (0 <? i + 1) eqn:E1; [lia | apply Z.ltb_ge in E1; lia].
  - apply Z.ltb_ge in E. assert (i = n - 1) as -> by lia.
    rewrite Z.eqb_refl. reflexivity.
Qed.

Lemma next_prev_index (n i : Z) :
  2 <= n -> 0 <= i < n -> next_index n (prev_index n i) = i.
Proof.
  intros Hn Hi. unfold next_index, prev_index.
  destruct (0 <? i) eqn:E.
  - apply Z.ltb_lt in E.
    destruct (i - 1 <? n - 1) eqn:E1; [lia | apply Z.ltb_ge in E1; lia].
  - apply Z.ltb_ge in E. assert (i = 0) as -> by lia.
    rewrite Z.eqb_refl, Z.ltb_irrefl, Z.eqb_refl. reflexivity.
Qed.

(** One step that ran, then the opposite step. *)
Lemma step_then_back (event : bool) (s : ImQuick) (i j : Z)
    (back : bool -> M unit) (back_index : Z -> Z -> Z) :
  (forall t, file_loaded t = true -> andb event (z_label_focus t) = false ->
             2 <= Z.of_nat (List.length (file_list t)) ->
             back event t =
             load_current
               (set_current_index
                  (back_index (Z.of_nat (List.length (file_list t)))
                              (current_index t)) t)) ->
  andb event (z_label_focus s) = false ->
  2 <= Z.of_nat (List.length (file_list s)) ->
  back_index (Z.of_nat (List.length (file_list s))) j = i ->
  let s1 := state_after (load_current (set_current_index j s)) in
  file_loaded s1 = true ->
  current_index (state_after (back event s1)) = i.
Proof.
  intros Hback Hb Hn Hi s1 Hf1.
  assert (Hs1 : series s1 = (file_list s, j)).
  { unfold s1, state_after. rewrite load_current_keeps_series. reflexivity. }
  unfold series in Hs1. injection Hs1 as Hl Hc.
  assert (Hb1 : andb event (z_label_focus s1) = false).
  { destruct event; [|reflexivity]. simpl in Hb. simpl.
    unfold s1, state_after. apply load_current_focus. exact Hb. }
  rewrite Hback; [|exact Hf1|exact Hb1|rewrite Hl; exact Hn].
  unfold state_after.
  pose proof (load_current_keeps_series
                (set_current_index
                   (back_index (Z.of_nat (List.length (file_list s1)))
                               (current_index s1)) s1)) as K.
  unfold series in K. injection K as _ K. rewrite K.
  cbn [current_index set_current_index]. rewrite Hl, Hc. exact Hi.
Qed.

Lemma bind_ok {A C : Type} (m : M A) (k : A -> M C) (s s1 : ImQuick) (a : A) :
  m s = (Ok a, s1) -> bind m k s = k a s1.
Proof. intros H. unfold bind. rewrite H. reflexivity. Qed.

Lemma bind_exc {A C : Type} (m : M A) (k : A -> M C) (s s1 : ImQuick) (e : exn) :
  m s = (Exc e, s1) -> bind m k s = (Exc e, s1).
Proof. intros H. unfold bind. rewrite H. reflexivity. Qed.

Lemma py_index_range (x : string) (l : list string) :
  forall i, py_index x l = Ok i -> 0 <= i < Z.of_nat (List.length l).
Proof.
  induction l as [|y l IH]; simpl py_index; intros i H; [discriminate H|].
  destruct (String.eqb y x).
  - injection H as <-. simpl List.length. lia.
  - destruct (py_index x l) as [j|e]; [|discriminate H].
    injection H as <-. specialize (IH j eq_refl). simpl List.length. lia.
Qed.

Lemma make_file_list_returns (s t : ImQuick) :
  make_file_list s = (Ok tt, t) ->
  file t = file s /\ z_label_focus t = z_label_focus s /\
  0 <= current_index t < Z.of_nat (List.length (file_list t)).
Proof.
  intros H.
  assert (K : keeps (fun s => (file s, z_label_focus s)) make_file_list)
    by (unfold make_file_list; keeps_auto).
  specialize (K s). rewrite H in K. injection K as K1 K2.
  split; [exact K1|]. split; [exact K2|].
  unfold make_file_list, bind, gets, lift, modify, raise in H.
  destruct (file s) as [current|]; [|discriminate H].
  destruct (listdir (dirname (abspath current))) as [names|e]; [|discriminate H].
  cbn in H.
  match type of H with
  | context [py_index ?x ?l] => destruct (py_index x l) as [i|e] eqn:E
  end; [|discriminate H].
  injection H as <-. cbn. apply py_index_range in E. exact E.
Qed.

Lemma file_loaded_file (s t : ImQuick) :
  file t = file s -> file_loaded t = file_loaded s.
Proof. unfold file_loaded. intros ->. reflexivity. Qed.

(** With an empty series, a step first rebuilds it and then behaves as a
    step from the rebuilt state. *)
Lemma step_after_rebuild (event : bool) (s t : ImQuick) :
  file_loaded s = true -> andb event (z_label_focus s) = false ->
  file_list s = [] -> make_file_list s = (Ok tt, t) ->
  next_file event s = next_file event t /\ prev_file event s = prev_file event t.
Proof.
  intros Hf Hb Hnil Hm.
  destruct (make_file_list_returns s t Hm) as (Tf & Tz & Ti).
  assert (Hft : file_loaded t = true) by (rewrite (file_loaded_file s t Tf); exact Hf).
  assert (Hn : (List.length (file_list t) =? 0)%nat = false).
  { apply Nat.eqb_neq. intros E. rewrite E in Ti. simpl in Ti. lia. }
  split; unfold next_file, prev_file, not_without_file; rewrite Hf, Hft;
    unfold bind at 1; unfold gets at 1; rewrite Hb;
    unfold bind at 1; unfold gets at 1; rewrite Hnil; cbn [List.length Nat.eqb];
    rewrite (bind_ok _ _ s t tt Hm);
    symmetry;
    unfold bind at 1; unfold gets at 1; rewrite Tz, Hb;
    unfold bind at 1; unfold gets at 1; rewrite Hn;
    unfold bind at 1; unfold ret at 1; reflexivity.
Qed.

(** The series a rebuild leaves: the supported names of the directory of
    the file on display, in the order of the listing, and the position of
    that file among them. *)
Lemma make_file_list_series (s t : ImQuick) :
  make_file_list s = (Ok tt, t) ->
  exists current names,
    file s = Some current /\
    listdir (dirname (abspath current)) = Ok names /\
    file_list t =
      map (fun name => normpath (join (dirname (abspath current)) name))
          (filter supported names) /\
    py_index current (file_list t) = Ok (current_index t).
Proof.
  intros H. unfold make_file_list, bind, gets, lift, modify, raise in H.
  destruct (file s) as [current|] eqn:Ef; [|discriminate H].
  destruct (listdir (dirname (abspath current))) as [names|e] eqn:El;
    [|discriminate H].
  cbn in H.
  match type of H with
  | context [py_index ?x ?l] => destruct (py_index x l) as [i|e] eqn:E
  end; [|discriminate H].
  injection H as <-. exists current, names.
  split; [reflexivity|]. split; [exact El|]. split; [reflexivity|]. exact E.
Qed.

(** With an empty series, a step raises what the rebuild raises. *)
Lemma step_rebuild_raises (event : bool) (s t : ImQuick) (e : exn) :
  file_loaded s = true -> andb event (z_label_focus s) = false ->
  file_list s = [] -> make_file_list s = (Exc e, t) ->
  next_file event s = (Exc e, t) /\ prev_file event s = (Exc e, t).
Proof.
  intros Hf Hb Hnil Hm.
  split; unfold next_file, prev_file, not_without_file; rewrite Hf;
    unfold bind at 1; unfold gets at 1; rewrite Hb;
    unfold bind at 1; unfold gets at 1; rewrite Hnil; cbn [List.length Nat.eqb];
    apply (bind_exc _ _ s t e Hm).
Qed.

(** C8 (amended). In a series of at least two files with the index in
    range, [next_file] then [prev_file] (or the reverse), both called the same
    way, bring the index back to where it was, provided a file is still
    loaded after the first step, that is, the file it moved to could be
    decoded; a step that runs moves the index by one modulo the length of the
    series.  In a series of exactly one file both operations change
    nothing.  From an empty series, a step that runs first rebuilds the
    series: it becomes the supported names of the directory of the file on
    display, the index becomes the position of that file among them, and the
    step then does what it does from the rebuilt state, to which the two
    cases above apply; when the rebuild raises, the step raises the same. *)
Theorem next_then_previous (s : ImQuick) (event : bool) :
  let n := Z.of_nat (List.length (file_list s)) in
  (2 <= n -> 0 <= current_index s < n ->
   (file_loaded (state_after (next_file event s)) = true ->
    current_index (state_after (prev_file event (state_after (next_file event s))))
    = current_index s) /\
   (file_loaded (state_after (prev_file event s)) = true ->
    current_index (state_after (next_file event (state_after (prev_file event s))))
    = current_index s) /\
   (file_loaded s = true -> andb event (z_label_focus s) = false ->
    current_index (state_after (next_file event s)) = (current_index s + 1) mod n /\
    current_index (state_after (prev_file event s)) = (current_index s - 1) mod n)) /\
  (n = 1 -> next_file event s = (Ok tt, s) /\ prev_file event s = (Ok tt, s)) /\
  (n = 0 -> file_loaded s = true -> andb event (z_label_focus s) = false ->
   (forall t, make_file_list s = (Ok tt, t) ->
      (exists current names,
          file s = Some current /\
          listdir (dirname (abspath current)) = Ok names /\
          file_list t =
            map (fun name => normpath (join (dirname (abspath current)) name))
                (filter supported names) /\
          py_index current (file_list t) = Ok (current_index t)) /\
      0 <= current_index t < Z.of_nat (List.length (file_list t)) /\
      next_file event s = next_file event t /\
      prev_file event s = prev_file event t) /\
   (forall e t, make_file_list s = (Exc e, t) ->
      next_file event s = (Exc e, t) /\ prev_file event s = (Exc e, t))).
Proof.
  intros n. split; [|split].
  - intros Hn Hi.
    destruct (file_loaded s) eqn:Hf;
      [destruct (andb event (z_label_focus s)) eqn:Hb|].
    + destruct (navigation_blocked event s (or_intror Hb)) as [N P].
      rewrite N, P. unfold state_after. cbn [snd]. rewrite N, P.
      repeat split; try reflexivity; intros; discriminate.
    + split; [|split].
      * rewrite (next_file_runs event s Hf Hb Hn).
        apply (step_then_back event s (current_index s) _ prev_file prev_index);
          try assumption.
        -- intros t. apply prev_file_runs.
        -- apply prev_next_index; assumption.
      * rewrite (prev_file_runs event s Hf Hb Hn).
        apply (step_then_back event s (current_index s) _ next_file next_index);
          try assumption.
        -- intros t. apply next_file_runs.
        -- apply next_prev_index; assumption.
      * intros _ _.
        rewrite (next_file_runs event s Hf Hb Hn), (prev_file_runs event s Hf Hb Hn).
        unfold state_after.
        pose proof (load_current_keeps_series
                      (set_current_index (next_index n (current_index s)) s)) as K1.
        pose proof (load_current_keeps_series
                      (set_current_index (prev_index n (current_index s)) s)) as K2.
        unfold series in K1, K2. injection K1 as _ K1. injection K2 as _ K2.
        fold n. rewrite K1, K2. cbn [current_index set_current_index].
        split; [apply next_index_mod | apply prev_index_mod]; assumption.
    + destruct (navigation_blocked event s (or_introl Hf)) as [N P].
      rewrite N, P. unfold state_after. cbn [snd]. rewrite N, P.
      repeat split; try reflexivity; intros; discriminate.
  - intros H1. apply single_file_series.
    apply Nat2Z.inj. exact H1.
  - intros H0 Hf Hb.
    assert (Hnil : file_list s = []).
    { unfold n in H0. destruct (file_list s); [reflexivity | discriminate H0]. }
    split.
    + intros t Hm. split; [exact (make_file_list_series s t Hm)|].
      split; [exact (proj2 (proj2 (make_file_list_returns s t Hm)))|].
      exact (step_after_rebuild event s t Hf Hb Hnil Hm).
    + intros e t Hm. exact (step_rebuild_raises event s t e Hf Hb Hnil Hm).
Qed.


(** ** Further properties of the code *)

(** *** Every write to a bound *)

(** The trace callbacks split into the corrections and the shared tail. *)
Lemma update_min_display_with_split (max_set : Z -> ImQuick -> ImQuick)
    (s : ImQuick) :
  update_min_display_with max_set s =
  let s1 := if min_display_value s =? 255 then set_min_display_value 254 s else s in
  let dirty := max_display_value s <=? min_display_value s in
  let s2 := if dirty then max_set (min_display_value s + 1) s1 else s1 in
  (store_display_values ;; if negb dirty then update_contrast else ret tt) s2.
Proof.
  unfold update_min_display_with.
  unfold bind at 1. unfold gets at 1. unfold bind at 1. unfold gets at 1.
  cbv zeta.
  destruct (min_display_value s =? 255);
    destruct (max_display_value s <=? min_display_value s); reflexivity.
Qed.

Lemma update_max_display_with_split (min_set : Z -> ImQuick -> ImQuick)
    (s : ImQuick) :
  update_max_display_with min_set s =
  let s1 := if max_display_value s =? 0 then set_max_display_value 1 s else s in
  let dirty := max_display_value s <=? min_display_value s in
  let s2 := if dirty then min_set (max_display_value s - 1) s1 else s1 in
  (store_display_values ;; if negb dirty then update_contrast else ret tt) s2.
Proof.
  unfold update_max_display_with.
  unfold bind at 1. unfold gets at 1. unfold bind at 1. unfold gets at 1.
  cbv zeta.
  destruct (max_display_value s =? 0);
    destruct (max_display_value s <=? min_display_value s); reflexivity.
Qed.

(** The window after a write to the min bound, whatever it was before. *)
Lemma min_display_value_set_window (s : ImQuick) (v : Z) :
  0 <= v <= 255 ->
  bounds (state_after (min_display_value_set v s)) =
  (if v =? 255 then 254 else v,
   if max_display_value s <=? v then v + 1 else max_display_value s).
Proof.
  intros Hv. destruct (max_display_value s <=? v) eqn:Hle.
  - apply Z.leb_le in Hle. apply min_display_value_set_bounds; assumption.
  - unfold min_display_value_set, modify, state_after, tk_callback, state_after.
    cbn [snd]. unfold update_min_display.
    rewrite update_min_display_with_split. cbv zeta.
    cbn [min_display_value max_display_value set_min_display_value].
    rewrite Hle. rewrite (callback_tail_keeps_bounds false).
    destruct (v =? 255); reflexivity.
Qed.

Lemma max_display_value_set_window (s : ImQuick) (v : Z) :
  0 <= v <= 255 ->
  bounds (state_after (max_display_value_set v s)) =
  (if v <=? min_display_value s then v - 1 else min_display_value s,
   if v =? 0 then 1 else v).
Proof.
  intros Hv. destruct (v <=? min_display_value s) eqn:Hle.
  - apply Z.leb_le in Hle. apply max_display_value_set_bounds; assumption.
  - unfold max_display_value_set, modify, state_after, tk_callback, state_after.
    cbn [snd]. unfold update_max_display.
    rewrite update_max_display_with_split. cbv zeta.
    cbn [min_display_value max_display_value set_max_display_value].
    rewrite Hle. rewrite (callback_tail_keeps_bounds false).
    destruct (v =? 0); reflexivity.
Qed.

(** X1. Whatever the window was, a value in [0, 255] written to either bound
    leaves [min < max].  A write to min that stays below max leaves max as it
    was, and a write to max that stays above min leaves min as it was.  A
    window inside [0, 255] stays inside it when the value written is not the
    extreme one of its slider (255 for min, 0 for max). *)
Theorem every_write_keeps_min_below_max (s : ImQuick) (v : Z) :
  0 <= v <= 255 ->
  (let s' := state_after (min_display_value_set v s) in
   min_display_value s' < max_display_value s' /\
   (v < max_display_value s -> max_display_value s' = max_display_value s) /\
   (v <> 255 -> min_display_value s' = v) /\
   (v <> 255 -> window_in_range s -> window_in_range s')) /\
  (let s' := state_after (max_display_value_set v s) in
   min_display_value s' < max_display_value s' /\
   (min_display_value s < v -> min_display_value s' = min_display_value s) /\
   (v <> 0 -> max_display_value s' = v) /\
   (v <> 0 -> window_in_range s -> window_in_range s')).
Proof.
  intros Hv. split; intros s'.
  - pose proof (min_display_value_set_window s v Hv) as B.
    fold s' in B. unfold bounds in B. injection B as Bmin Bmax.
    unfold window_in_range. rewrite Bmin, Bmax.
    destruct (Z.eqb_spec v 255); destruct (Z.leb_spec (max_display_value s) v);
      repeat split; intros; lia.
  - pose proof (max_display_value_set_window s v Hv) as B.
    fold s' in B. unfold bounds in B. injection B as Bmin Bmax.
    unfold window_in_range. rewrite Bmin, Bmax.
    destruct (Z.eqb_spec v 0); destruct (Z.leb_spec v (min_display_value s));
      repeat split; intros; lia.
Qed.

(** *** The pair of the dialog's channel *)

(** What an assignment by index does to a list. *)
Lemma py_setitem_ok {A : Type} (l : list A) :
  forall (i : nat) (v : A) (l' : list A),
    py_setitem l i v = Ok l' ->
    List.length l' = List.length l /\
    nth_error l' i = Some v /\
    (forall k, (k <= i)%nat -> firstn k l' = firstn k l) /\
    (forall k, (i < k)%nat -> skipn k l' = skipn k l).
Proof.
  induction l as [|x l IH]; intros i v l' H; [discriminate H|].
  destruct i as [|j]; simpl in H.
  - injection H as <-. repeat split.
    + intros k Hk. replace k with 0%nat by lia. reflexivity.
    + intros k Hk. destruct k as [|k]; [lia|]. reflexivity.
  - destruct (py_setitem l j v) as [rest|e] eqn:E; [|discriminate H].
    injection H as <-. destruct (IH j v rest E) as (Hl & Hn & Hf & Hs).
    repeat split.
    + simpl. rewrite Hl. reflexivity.
    + exact Hn.
    + intros k Hk. destruct k as [|k]; [reflexivity|].
      simpl. rewrite Hf by lia. reflexivity.
    + intros k Hk. destruct k as [|k]; [lia|]. simpl. apply Hs. lia.
Qed.

Lemma py_setitem_in_range {A : Type} (l : list A) :
  forall (i : nat) (v : A),
    (i < List.length l)%nat -> exists l', py_setitem l i v = Ok l'.
Proof.
  induction l as [|x l IH]; intros i v H; [simpl in H; lia|].
  destruct i as [|j]; simpl.
  - eexists. reflexivity.
  - destruct (IH j v) as [rest E]; [simpl in H; lia|].
    rewrite E. eexists. reflexivity.
Qed.

(** The redraw touches the image on display and the widgets only. *)
Section Redraw.

Context {B : Type} (f : ImQuick -> B).
Hypothesis f_image : forall v s, f (set_displayed_image v s) = f s.
Hypothesis f_gui : forall v s, f (set_gui v s) = f s.

Lemma update_contrast_redraws : keeps f update_contrast.
Proof.
  unfold update_contrast.
  apply keeps_bind; [apply keeps_gets|]. intros [temp|]; [|apply keeps_raise].
  apply keeps_bind; [apply keeps_gets|]. intros s0.
  apply keeps_bind; [apply keeps_lift|]. intros arr.
  apply keeps_bind; [apply keeps_lift|]. intros img.
  apply keeps_bind; [intros s; apply f_image|]. intros _.
  apply show_image_keeps. exact f_gui.
Qed.

End Redraw.

(** An observation that the store and the redraw of the callbacks keep is
    kept by every write to a bound. *)
Section Traces.

Context {B : Type} (f : ImQuick -> B).
Hypothesis f_min : forall v s, f (set_min_display_value v s) = f s.
Hypothesis f_max : forall v s, f (set_max_display_value v s) = f s.
Hypothesis f_store : keeps f store_display_values.
Hypothesis f_redraw : keeps f update_contrast.

Lemma callback_tail_kept (dirty : bool) :
  keeps f (store_display_values ;; if negb dirty then update_contrast else ret tt).
Proof.
  apply keeps_bind; [exact f_store|]. intros _.
  destruct dirty; [apply keeps_ret | exact f_redraw].
Qed.

Lemma update_min_display_with_kept (max_set : Z -> ImQuick -> ImQuick) :
  (forall v s, f (max_set v s) = f s) -> keeps f (update_min_display_with max_set).
Proof.
  intros Hset s. rewrite update_min_display_with_split. cbv zeta.
  rewrite callback_tail_kept.
  destruct (max_display_value s <=? min_display_value s); rewrite ?Hset;
    destruct (min_display_value s =? 255); rewrite ?f_min; reflexivity.
Qed.

Lemma update_max_display_with_kept (min_set : Z -> ImQuick -> ImQuick) :
  (forall v s, f (min_set v s) = f s) -> keeps f (update_max_display_with min_set).
Proof.
  intros Hset s. rewrite update_max_display_with_split. cbv zeta.
  rewrite callback_tail_kept.
  destruct (max_display_value s <=? min_display_value s); rewrite ?Hset;
    destruct (max_display_value s =? 0); rewrite ?f_max; reflexivity.
Qed.

Lemma max_set_from_min_kept (v : Z) (s : ImQuick) :
  f (tk_callback update_max_display_nested (set_max_display_value v s)) = f s.
Proof.
  unfold tk_callback, state_after, update_max_display_nested.
  rewrite update_max_display_with_kept; [apply f_max | exact f_min].
Qed.

Lemma min_set_from_max_kept (v : Z) (s : ImQuick) :
  f (tk_callback update_min_display_nested (set_min_display_value v s)) = f s.
Proof.
  unfold tk_callback, state_after, update_min_display_nested.
  rewrite update_min_display_with_kept; [apply f_min | exact f_max].
Qed.

Lemma min_display_value_set_kept (v : Z) : keeps f (min_display_value_set v).
Proof.
  intros s. unfold min_display_value_set, modify. cbn [snd].
  unfold tk_callback, state_after, update_min_display.
  rewrite update_min_display_with_kept; [apply f_min|].
  exact max_set_from_min_kept.
Qed.

Lemma max_display_value_set_kept (v : Z) : keeps f (max_display_value_set v).
Proof.
  intros s. unfold max_display_value_set, modify. cbn [snd].
  unfold tk_callback, state_after, update_max_display.
  rewrite update_max_display_with_kept; [apply f_max|].
  exact min_set_from_max_kept.
Qed.

End Traces.

Lemma update_contrast_keeps_dialog : keeps dialog update_contrast.
Proof. apply update_contrast_redraws; intros; reflexivity. Qed.

Lemma store_display_values_keeps_dialog : keeps dialog store_display_values.
Proof.
  intros s. unfold store_display_values.
  unfold bind at 1. unfold gets at 1.
  destruct (display_popup s) as [p|] eqn:Hp; [|reflexivity].
  destruct (working p) eqn:Hw; [reflexivity|].
  unfold bind at 1. unfold gets at 1. unfold bind at 1. unfold gets at 1.
  unfold bind at 1. unfold lift at 1.
  destruct (py_setitem (display_values_array s) (offset p) (min_display_value s))
    as [arr1|e] eqn:E1; [|reflexivity].
  destruct (py_setitem_ok _ _ _ _ E1) as (L1 & _ & F1 & S1).
  unfold bind at 1. unfold modify at 1. unfold bind at 1. unfold gets at 1.
  unfold bind at 1. unfold lift at 1.
  cbn [max_display_value set_display_values_array].
  destruct (py_setitem arr1 (offset p + 1) (max_display_value s))
    as [arr2|e] eqn:E2.
  - destruct (py_setitem_ok _ _ _ _ E2) as (L2 & _ & F2 & S2).
    unfold modify. cbn [snd]. unfold dialog, untouched.
    cbn [display_popup display_values_array set_display_values_array].
    rewrite Hp, Hw, L2, L1, F2, F1, S2, S1 by lia. reflexivity.
  - cbn [snd]. unfold dialog, untouched.
    cbn [display_popup display_values_array set_display_values_array].
    rewrite Hp, Hw, L1, F1, S1 by lia. reflexivity.
Qed.

Lemma min_display_value_set_keeps_dialog (v : Z) :
  keeps dialog (min_display_value_set v).
Proof.
  apply min_display_value_set_kept; try (intros; reflexivity);
    [exact store_display_values_keeps_dialog | exact update_contrast_keeps_dialog].
Qed.

Lemma max_display_value_set_keeps_dialog (v : Z) :
  keeps dialog (max_display_value_set v).
Proof.
  apply max_display_value_set_kept; try (intros; reflexivity);
    [exact store_display_values_keeps_dialog | exact update_contrast_keeps_dialog].
Qed.

(** What [dialog] tells about the array in each state of the dialog. *)
Lemma dialog_open (s s' : ImQuick) (p : DisplayPopup) :
  dialog s' = dialog s -> display_popup s = Some p -> working p = false ->
  display_popup s' = Some p /\
  List.length (display_values_array s') = List.length (display_values_array s) /\
  firstn (offset p) (display_values_array s') =
    firstn (offset p) (display_values_array s) /\
  skipn (offset p + 2) (display_values_array s') =
    skipn (offset p + 2) (display_values_array s).
Proof.
  unfold dialog. intros D Hp Hw. injection D as Dp Dl Du.
  unfold untouched in Du. rewrite Dp, Hp, Hw in Du. injection Du as Df Ds.
  rewrite Dp. repeat split; assumption.
Qed.

Lemma dialog_frozen (s s' : ImQuick) :
  dialog s' = dialog s ->
  match display_popup s with Some p => working p = true | None => True end ->
  display_popup s' = display_popup s /\
  display_values_array s' = display_values_array s.
Proof.
  unfold dialog. intros D Hw. injection D as Dp Dl Du.
  unfold untouched in Du. rewrite Dp in Du. split; [exact Dp|].
  destruct (display_popup s) as [p|].
  - rewrite Hw in Du. injection Du as Da. exact Da.
  - injection Du as Da. exact Da.
Qed.

(** The tail of a callback writes the window at the dialog's offset. *)
Lemma callback_tail_stores (dirty : bool) (s : ImQuick) (p : DisplayPopup) :
  display_popup s = Some p -> working p = false ->
  (offset p + 1 < List.length (display_values_array s))%nat ->
  let s' := snd ((store_display_values ;;
                  if negb dirty then update_contrast else ret tt) s) in
  nth_error (display_values_array s') (offset p) = Some (min_display_value s') /\
  nth_error (display_values_array s') (offset p + 1) = Some (max_display_value s').
Proof.
  intros Hp Hw Hfit s'.
  assert (St : exists arr,
             store_display_values s = (Ok tt, set_display_values_array arr s) /\
             nth_error arr (offset p) = Some (min_display_value s) /\
             nth_error arr (offset p + 1) = Some (max_display_value s)).
  { unfold store_display_values.
    unfold bind at 1. unfold gets at 1. rewrite Hp, Hw.
    unfold bind at 1. unfold gets at 1. unfold bind at 1. unfold gets at 1.
    unfold bind at 1. unfold lift at 1.
    destruct (py_setitem_in_range (display_values_array s) (offset p)
                (min_display_value s)) as [arr1 E1]; [lia|].
    rewrite E1. destruct (py_setitem_ok _ _ _ _ E1) as (L1 & N1 & F1 & S1).
    unfold bind at 1. unfold modify at 1. unfold bind at 1. unfold gets at 1.
    unfold bind at 1. unfold lift at 1.
    cbn [max_display_value set_display_values_array].
    destruct (py_setitem_in_range arr1 (offset p + 1) (max_display_value s))
      as [arr2 E2]; [lia|].
    rewrite E2. destruct (py_setitem_ok _ _ _ _ E2) as (L2 & N2 & F2 & S2).
    exists arr2. split; [reflexivity|]. split; [|exact N2].
    assert (T : (offset p <? offset p + 1)%nat = true) by (apply Nat.ltb_lt; lia).
    pose proof (nth_error_firstn (offset p + 1) arr2 (offset p)) as Q2.
    pose proof (nth_error_firstn (offset p + 1) arr1 (offset p)) as Q1.
    rewrite T in Q1, Q2. rewrite <- Q2, F2, Q1 by lia. exact N1. }
  destruct St as (arr & E & N0 & N1).
  pose proof (callback_tail_keeps_bounds dirty s) as Kb. fold s' in Kb.
  unfold bounds in Kb. injection Kb as -> ->.
  assert (K : display_values_array s' = arr).
  { unfold s'. rewrite (bind_ok _ _ _ _ _ E).
    destruct dirty; [reflexivity|]. cbn [negb].
    rewrite (update_contrast_redraws display_values_array);
      try (intros; reflexivity). }
  rewrite K. split; assumption.
Qed.

Lemma nested_max_keeps_dialog (v : Z) (s : ImQuick) :
  dialog (tk_callback update_max_display_nested (set_max_display_value v s)) =
  dialog s.
Proof.
  apply max_set_from_min_kept; try (intros; reflexivity);
    [exact store_display_values_keeps_dialog | exact update_contrast_keeps_dialog].
Qed.

Lemma nested_min_keeps_dialog (v : Z) (s : ImQuick) :
  dialog (tk_callback update_min_display_nested (set_min_display_value v s)) =
  dialog s.
Proof.
  apply min_set_from_max_kept; try (intros; reflexivity);
    [exact store_display_values_keeps_dialog | exact update_contrast_keeps_dialog].
Qed.

Lemma min_write_stored (s : ImQuick) (p : DisplayPopup) (v : Z) :
  display_popup s = Some p -> working p = false ->
  (offset p + 1 < List.length (display_values_array s))%nat ->
  let s' := state_after (min_display_value_set v s) in
  nth_error (display_values_array s') (offset p) = Some (min_display_value s') /\
  nth_error (display_values_array s') (offset p + 1) = Some (max_display_value s').
Proof.
  intros Hp Hw Hfit s'. unfold s'.
  unfold min_display_value_set, modify, state_after, tk_callback, state_after.
  cbn [snd]. unfold update_min_display.
  rewrite update_min_display_with_split. cbv zeta.
  match goal with
  | |- context [snd (bind store_display_values _ ?t)] => set (s2 := t)
  end.
  assert (D2 : dialog s2 = dialog s).
  { unfold s2.
    destruct (max_display_value (set_min_display_value v s) <=?
              min_display_value (set_min_display_value v s));
      rewrite ?nested_max_keeps_dialog;
      destruct (min_display_value (set_min_display_value v s) =? 255);
      reflexivity. }
  destruct (dialog_open _ _ _ D2 Hp Hw) as (Tp & Tl & _ & _).
  apply callback_tail_stores; [exact Tp | exact Hw | rewrite Tl; exact Hfit].
Qed.

Lemma max_write_stored (s : ImQuick) (p : DisplayPopup) (v : Z) :
  display_popup s = Some p -> working p = false ->
  (offset p + 1 < List.length (display_values_array s))%nat ->
  let s' := state_after (max_display_value_set v s) in
  nth_error (display_values_array s') (offset p) = Some (min_display_value s') /\
  nth_error (display_values_array s') (offset p + 1) = Some (max_display_value s').
Proof.
  intros Hp Hw Hfit s'. unfold s'.
  unfold max_display_value_set, modify, state_after, tk_callback, state_after.
  cbn [snd]. unfold update_max_display.
  rewrite update_max_display_with_split. cbv zeta.
  match goal with
  | |- context [snd (bind store_display_values _ ?t)] => set (s2 := t)
  end.
  assert (D2 : dialog s2 = dialog s).
  { unfold s2.
    destruct (max_display_value (set_max_display_value v s) <=?
              min_display_value (set_max_display_value v s));
      rewrite ?nested_min_keeps_dialog;
      destruct (max_display_value (set_max_display_value v s) =? 0);
      reflexivity. }
  destruct (dialog_open _ _ _ D2 Hp Hw) as (Tp & Tl & _ & _).
  apply callback_tail_stores; [exact Tp | exact Hw | rewrite Tl; exact Hfit].
Qed.

(** X2. While the contrast dialog is open and idle, with its pair inside the
    array, every write to either bound ends with the window stored in the
    dialog's pair of [display_values_array]: the entry at [offset] is the
    min bound and the entry after it the max bound, as corrected.  The other
    entries, the length of the array and the dialog are as before. *)
Theorem write_is_stored_in_dialog_pair (s : ImQuick) (p : DisplayPopup) (v : Z) :
  display_popup s = Some p -> working p = false ->
  (offset p + 1 < List.length (display_values_array s))%nat ->
  forall s',
    s' = state_after (min_display_value_set v s) \/
    s' = state_after (max_display_value_set v s) ->
    nth_error (display_values_array s') (offset p) = Some (min_display_value s') /\
    nth_error (display_values_array s') (offset p + 1) = Some (max_display_value s') /\
    display_popup s' = Some p /\
    List.length (display_values_array s') = List.length (display_values_array s) /\
    firstn (offset p) (display_values_array s') =
      firstn (offset p) (display_values_array s) /\
    skipn (offset p + 2) (display_values_array s') =
      skipn (offset p + 2) (display_values_array s).
Proof.
  intros Hp Hw Hfit s' [-> | ->].
  - destruct (min_write_stored s p v Hp Hw Hfit) as [N0 N1].
    split; [exact N0|]. split; [exact N1|].
    apply dialog_open; [|exact Hp|exact Hw].
    apply min_display_value_set_keeps_dialog.
  - destruct (max_write_stored s p v Hp Hw Hfit) as [N0 N1].
    split; [exact N0|]. split; [exact N1|].
    apply dialog_open; [|exact Hp|exact Hw].
    apply max_display_value_set_keeps_dialog.
Qed.
(** *** Selecting a channel in the dialog *)

Lemma last_char_single (text c : string) :
  last_char text = Ok c -> exists a, c = String a EmptyString.
Proof.
  unfold last_char. destruct (rev (list_ascii_of_string text)) as [|a l];
    intros H; [discriminate H|].
  injection H as <-. exists a. reflexivity.
Qed.

Lemma py_int_digit (a : ascii) (z : Z) :
  py_int (String a EmptyString) = Some z -> 0 <= z <= 9.
Proof.
  intros H. destruct a as [[] [] [] [] [] [] [] []]; vm_compute in H;
    first [discriminate H | injection H as <-; lia].
Qed.

(** The combobox reaches channel 9 at most: only the last character of the
    choice is read. *)
Lemma selected_channel_range (choice : string) (k : Z) :
  selected_channel choice = Ok k -> -1 <= k <= 9.
Proof.
  unfold selected_channel. destruct (String.eqb choice "All").
  - intros H. injection H as <-. lia.
  - unfold rbind. destruct (last_char choice) as [c|e] eqn:E; [|discriminate].
    destruct (last_char_single _ _ E) as [a ->].
    destruct (py_int (String a EmptyString)) as [z|] eqn:P; [|discriminate].
    intros H. injection H as <-. apply py_int_digit in P. lia.
Qed.

Lemma min_after_min_write (s : ImQuick) (v : Z) :
  0 <= v <= 255 ->
  min_display_value (state_after (min_display_value_set v s)) =
  if v =? 255 then 254 else v.
Proof.
  intros Hv. exact (f_equal fst (min_display_value_set_window s v Hv)).
Qed.

Lemma two_writes_window (s : ImQuick) (lo hi : Z) :
  0 <= lo -> lo < hi -> hi <= 255 ->
  bounds (state_after (max_display_value_set hi
            (state_after (min_display_value_set lo s)))) = (lo, hi).
Proof.
  intros H0 Hlt H255.
  rewrite max_display_value_set_window by lia.
  rewrite min_after_min_write by lia.
  destruct (Z.eqb_spec lo 255); [lia|].
  destruct (Z.leb_spec hi lo); [lia|].
  destruct (Z.eqb_spec hi 0); [lia|]. reflexivity.
Qed.

(** A selection whose pair is in the array, step by step. *)
Lemma channel_mode_select_run (s : ImQuick) (p : DisplayPopup) (choice : string)
    (k lo hi : Z) :
  display_popup s = Some p ->
  selected_channel choice = Ok k ->
  nth_error (display_values_array s) (Z.to_nat ((k + 1) * 2)) = Some lo ->
  nth_error (display_values_array s) (Z.to_nat ((k + 1) * 2) + 1) = Some hi ->
  let off := Z.to_nat ((k + 1) * 2) in
  let s2 := set_display_popup (Some (mk_DisplayPopup off true))
              (set_per_channel_contrast (negb (String.eqb choice "All")) s) in
  let s4 := state_after (max_display_value_set hi
              (state_after (min_display_value_set lo s2))) in
  channel_mode_select choice s =
    (Ok tt, set_display_popup (Some (mk_DisplayPopup off false)) s4) /\
  display_values_array s4 = display_values_array s /\
  per_channel_contrast s4 = negb (String.eqb choice "All").
Proof.
  intros Hp Hsel Hlo Hhi off s2 s4.
  pose proof (selected_channel_range _ _ Hsel) as Hk.
  set (s3 := state_after (min_display_value_set lo s2)).
  assert (D3 : dialog s3 = dialog s2) by apply min_display_value_set_keeps_dialog.
  assert (D4 : dialog s4 = dialog s2).
  { unfold s4. fold s3. rewrite <- D3. apply max_display_value_set_keeps_dialog. }
  destruct (dialog_frozen s2 s3 D3) as [P3 A3]; [reflexivity|].
  destruct (dialog_frozen s2 s4 D4) as [P4 A4]; [reflexivity|].
  split; [|split].
  - unfold channel_mode_select.
    rewrite (bind_ok _ _ s
               (set_per_channel_contrast (negb (String.eqb choice "All")) s) tt)
      by reflexivity.
    rewrite (bind_ok _ _ _ _ k) by (unfold lift; rewrite Hsel; reflexivity).
    cbv zeta.
    rewrite (bind_ok _ _ _ s2 tt).
    2: { unfold popup_set, bind, gets, modify.
         cbn [display_popup set_per_channel_contrast]. rewrite Hp. reflexivity. }
    rewrite (bind_ok _ _ s2 s2 (display_values_array s2)) by reflexivity.
    rewrite (bind_ok _ _ s2 s2 lo).
    2: { unfold lift. rewrite py_getitem_nth with (x := lo);
           [reflexivity | lia | exact Hlo]. }
    rewrite (bind_ok _ _ s2 s3 tt) by reflexivity.
    rewrite (bind_ok _ _ s3 s3 (display_values_array s3)) by reflexivity.
    rewrite (bind_ok _ _ s3 s3 hi).
    2: { unfold lift. rewrite A3. rewrite py_getitem_nth with (x := hi);
           [reflexivity | lia |].
         replace (Z.to_nat ((k + 1) * 2 + 1)) with (off + 1)%nat by (unfold off; lia).
         exact Hhi. }
    rewrite (bind_ok _ _ s3 s4 tt) by reflexivity.
    unfold popup_set, bind, gets, modify. rewrite P4. reflexivity.
  - rewrite A4. reflexivity.
  - unfold s4, state_after.
    rewrite (max_display_value_set_blind per_channel_contrast)
      by (repeat split; reflexivity).
    rewrite (min_display_value_set_blind per_channel_contrast)
      by (repeat split; reflexivity).
    reflexivity.
Qed.

(** X3. With the dialog open, choosing in its combobox a channel whose pair
    in [display_values_array] is a window [(lo, hi)] with
    [0 <= lo < hi <= 255] returns normally, makes that pair the levels window,
    leaves the whole array as it was, points the dialog at the pair (offset
    [2 * (channel + 1)], 0 for ['All']) with its [working] flag down, and
    turns per-channel contrast on unless the choice is ['All']. *)
Theorem channel_mode_select_loads_pair (s : ImQuick) (p : DisplayPopup)
    (choice : string) (k lo hi : Z) :
  display_popup s = Some p ->
  selected_channel choice = Ok k ->
  nth_error (display_values_array s) (Z.to_nat ((k + 1) * 2)) = Some lo ->
  nth_error (display_values_array s) (Z.to_nat ((k + 1) * 2) + 1) = Some hi ->
  0 <= lo -> lo < hi -> hi <= 255 ->
  exists s',
    channel_mode_select choice s = (Ok tt, s') /\
    bounds s' = (lo, hi) /\
    display_values_array s' = display_values_array s /\
    display_popup s' = Some (mk_DisplayPopup (Z.to_nat ((k + 1) * 2)) false) /\
    per_channel_contrast s' = negb (String.eqb choice "All").
Proof.
  intros Hp Hsel Hlo Hhi H0 Hlt H255.
  destruct (channel_mode_select_run s p choice k lo hi Hp Hsel Hlo Hhi)
    as (R & A & C).
  eexists. split; [exact R|]. split; [|split; [|split]].
  - unfold bounds. cbn [min_display_value max_display_value set_display_popup].
    apply two_writes_window; assumption.
  - exact A.
  - reflexivity.
  - exact C.
Qed.

(** X4. A window stored in the pair of one channel survives a visit to
    another channel: from a state whose window is the pair of [choice],
    choosing [other] and then [choice] again both return normally and bring
    back the same window, with the array unchanged throughout. *)
Theorem channel_round_trip (s : ImQuick) (p : DisplayPopup)
    (choice other : string) (k k' lo hi : Z) :
  display_popup s = Some p ->
  selected_channel choice = Ok k ->
  selected_channel other = Ok k' ->
  nth_error (display_values_array s) (Z.to_nat ((k + 1) * 2)) =
    Some (min_display_value s) ->
  nth_error (display_values_array s) (Z.to_nat ((k + 1) * 2) + 1) =
    Some (max_display_value s) ->
  nth_error (display_values_array s) (Z.to_nat ((k' + 1) * 2)) = Some lo ->
  nth_error (display_values_array s) (Z.to_nat ((k' + 1) * 2) + 1) = Some hi ->
  window_in_range s ->
  exists s1 s2,
    channel_mode_select other s = (Ok tt, s1) /\
    channel_mode_select choice s1 = (Ok tt, s2) /\
    bounds s2 = bounds s /\
    display_values_array s1 = display_values_array s /\
    display_values_array s2 = display_values_array s.
Proof.
  intros Hp Hsel Hsel' Hmin Hmax Hlo Hhi (W0 & Wlt & W255).
  destruct (channel_mode_select_run s p other k' lo hi Hp Hsel' Hlo Hhi)
    as (R1 & A1 & _).
  match type of R1 with _ = (Ok tt, ?t) => set (s1 := t) in * end.
  assert (A1' : display_values_array s1 = display_values_array s) by exact A1.
  assert (P1 : display_popup s1 =
               Some (mk_DisplayPopup (Z.to_nat ((k' + 1) * 2)) false))
    by reflexivity.
  rewrite <- A1' in Hmin, Hmax.
  destruct (channel_mode_select_run s1 _ choice k _ _ P1 Hsel Hmin Hmax)
    as (R2 & A2 & _).
  eexists. eexists. split; [exact R1|]. split; [exact R2|].
  split; [|split].
  - unfold bounds at 1.
    cbn [min_display_value max_display_value set_display_popup].
    apply two_writes_window; assumption.
  - exact A1'.
  - cbn [display_values_array set_display_popup]. rewrite A2. exact A1'.
Qed.

(** *** Automatic contrast *)

(** X5. With a file loaded, [auto_contrast] on a buffer of unsigned 8-bit
    samples whose smallest and largest samples differ makes exactly these two
    the levels window, whatever the window was.  On a buffer with one value
    [c] everywhere the window becomes [(c - 1, c)], or [(-1, 1)] when [c] is
    0. *)
Theorem auto_contrast_window (s : ImQuick) (a : ndarray Z) (lo hi : Z) :
  file_loaded s = true ->
  scaled_image_data s = Some a ->
  buffer_min a = Ok lo -> buffer_max a = Ok hi ->
  0 <= lo -> lo <= hi -> hi <= 255 ->
  let s' := state_after (auto_contrast s) in
  (lo < hi -> bounds s' = (lo, hi)) /\
  (lo = hi -> bounds s' = (lo - 1, if lo =? 0 then 1 else lo)) /\
  min_display_value s' < max_display_value s'.
Proof.
  intros Hf Hs Hmin Hmax H0 Hle H255 s'.
  set (s3 := state_after (min_display_value_set lo s)).
  set (s4 := state_after (max_display_value_set hi s3)).
  assert (S3 : scaled_image_data s3 = Some a).
  { unfold s3. rewrite <- Hs.
    apply (min_display_value_set_blind scaled_image_data).
    repeat split; reflexivity. }
  assert (E : bounds s' = bounds s4).
  { unfold s', auto_contrast, not_without_file. rewrite Hf.
    rewrite (bind_ok _ _ s s (Some a)) by (unfold gets; rewrite Hs; reflexivity).
    rewrite (bind_ok _ _ s s lo) by (unfold lift; rewrite Hmin; reflexivity).
    rewrite (bind_ok _ _ s s3 tt) by reflexivity.
    rewrite (bind_ok _ _ s3 s3 (Some a)) by (unfold gets; rewrite S3; reflexivity).
    rewrite (bind_ok _ _ s3 s3 hi) by (unfold lift; rewrite Hmax; reflexivity).
    rewrite (bind_ok _ _ s3 s4 tt) by reflexivity.
    apply update_contrast_keeps_bounds. }
  assert (B : bounds s4 =
              (if hi <=? (if lo =? 255 then 254 else lo) then hi - 1
               else if lo =? 255 then 254 else lo,
               if hi =? 0 then 1 else hi)).
  { unfold s4. rewrite max_display_value_set_window by lia.
    unfold s3. rewrite min_after_min_write by lia. reflexivity. }
  assert (C1 : lo < hi -> bounds s' = (lo, hi)).
  { intros Hlt. rewrite E, B. destruct (Z.eqb_spec lo 255); [lia|].
    destruct (Z.leb_spec hi lo); [lia|].
    destruct (Z.eqb_spec hi 0); [lia|]. reflexivity. }
  assert (C2 : lo = hi -> bounds s' = (lo - 1, if lo =? 0 then 1 else lo)).
  { intros <-. rewrite E, B. destruct (Z.eqb_spec lo 255) as [->|N]; [reflexivity|].
    destruct (Z.leb_spec lo lo); [|lia].
    destruct (Z.eqb_spec lo 0); reflexivity. }
  split; [exact C1|]. split; [exact C2|].
  destruct (Z_lt_le_dec lo hi) as [L|L].
  - pose proof (f_equal fst (C1 L)) as X1. pose proof (f_equal snd (C1 L)) as X2.
    unfold bounds in X1, X2. cbn [fst snd] in X1, X2. lia.
  - assert (L' : lo = hi) by lia.
    pose proof (f_equal fst (C2 L')) as X1. pose proof (f_equal snd (C2 L')) as X2.
    unfold bounds in X1, X2. cbn [fst snd] in X1, X2.
    destruct (Z.eqb_spec lo 0); lia.
Qed.

(** *** The ends of the levels window *)

Lemma trunc_Qeq (q : Q) (n : Z) : (q == inject_Z n)%Q -> trunc q = n.
Proof.
  destruct q as [a d]. unfold Qeq, trunc. simpl. intros H.
  rewrite Z.mul_1_r in H. rewrite H. apply Z.quot_mul. lia.
Qed.

Lemma to_display_Qeq (q : Q) (n : Z) :
  0 <= n <= 1 -> (q == inject_Z n)%Q -> to_display q = n * 255.
Proof.
  intros Hn H. unfold to_display, astype_uint8, fmul.
  rewrite (trunc_Qeq _ (n * 255)).
  - apply uint8_small. lia.
  - rewrite (rnd_proper _ (inject_Z (n * 255))).
    + apply rnd_int. apply Z.abs_le. split; [|apply Z.le_trans with 255];
        try lia; apply Z.pow_le_mono_r with (a := 2) (b := 8) (c := 53); lia.
    + rewrite H, inject_Z_mult. reflexivity.
Qed.

Lemma display_sample_low (lo hi v : Z) :
  wide_window (lo, hi) -> is_uint8 v -> v <= lo -> display_sample lo hi v = 0.
Proof.
  intros [Hlo Hlt] Hv Hle. simpl in *. unfold display_sample.
  assert (W : (window_sample lo hi v == inject_Z 0)%Q).
  { unfold window_sample, fdiv. rewrite window_difference by assumption.
    replace (Z.max v lo - lo) with 0 by lia.
    rewrite (rnd_proper _ (inject_Z 0)).
    - apply rnd_int. simpl. lia.
    - unfold Qdiv. rewrite Qmult_0_l. reflexivity. }
  unfold clip_one.
  destruct (Qltb 1 (window_sample lo hi v)) eqn:E.
  - apply Qltb_true in E. rewrite W in E. discriminate E.
  - apply (to_display_Qeq _ 0); [lia | exact W].
Qed.

Lemma display_sample_high (lo hi v : Z) :
  wide_window (lo, hi) -> is_uint8 v -> hi <= v -> display_sample lo hi v = 255.
Proof.
  intros [Hlo Hlt] Hv Hle. simpl in *. unfold display_sample.
  assert (W : (1 <= window_sample lo hi v)%Q).
  { unfold window_sample, fdiv. rewrite window_difference by assumption.
    replace (Z.max v lo) with v by lia.
    apply Qle_trans with (rnd (inject_Z 1)).
    - rewrite rnd_int by (simpl; lia). apply Qle_refl.
    - apply rnd_mono. apply Qle_shift_div_l.
      + change 0%Q with (inject_Z 0). rewrite <- Zlt_Qlt. lia.
      + rewrite Qmult_1_l. rewrite <- Zle_Qle. lia. }
  unfold clip_one.
  destruct (Qltb 1 (window_sample lo hi v)) eqn:E.
  - apply (to_display_Qeq _ 1); [lia | reflexivity].
  - apply Qltb_false in E. apply (to_display_Qeq _ 1); [lia|].
    apply Qle_antisym; assumption.
Qed.

(** X6. In global mode, with a levels window [-32512 <= min <= 255],
    [min < max], and a buffer of unsigned 8-bit samples whose shape PIL
    accepts, the image on display after [update_contrast], whether the redraw
    that ends it returns or raises, is the buffer taken sample by sample
    through the window, and the window saturates at both ends: a sample at or
    below min is shown as 0 and a sample at or above max as 255. *)
Theorem update_contrast_saturates (s : ImQuick) (a : ndarray Z) :
  per_channel_contrast s = false ->
  wide_window (bounds s) ->
  scaled_image_data s = Some a ->
  Forall is_uint8 (data a) ->
  pil_accepts (shape a) = true ->
  exists a',
    displayed_image (state_after (update_contrast s)) = Some a' /\
    shape a' = shape a /\
    data a' = map (display_sample (min_display_value s) (max_display_value s))
                  (data a) /\
    (forall v, In v (data a) ->
       (v <= min_display_value s ->
        display_sample (min_display_value s) (max_display_value s) v = 0) /\
       (max_display_value s <= v ->
        display_sample (min_display_value s) (max_display_value s) v = 255)).
Proof.
  intros Hm W Hs Ha Hp.
  assert (D : displayable s a =
              Ok (mk_ndarray (shape a)
                    (map (display_sample (min_display_value s) (max_display_value s))
                         (data a)))).
  { unfold displayable, windowed. rewrite Hm. unfold rbind, amap. simpl.
    rewrite !map_map. reflexivity. }
  set (a' := mk_ndarray (shape a)
               (map (display_sample (min_display_value s) (max_display_value s))
                    (data a))) in D.
  exists a'. split.
  - unfold update_contrast.
    rewrite (bind_ok _ _ s s (Some a)) by (unfold gets; rewrite Hs; reflexivity).
    rewrite (bind_ok _ _ s s s) by reflexivity.
    rewrite (bind_ok _ _ s s a') by (unfold lift; rewrite D; reflexivity).
    rewrite (bind_ok _ _ s s a').
    2: { unfold lift, Image_fromarray. cbn [shape a']. rewrite Hp. reflexivity. }
    exact (show_image_keeps displayed_image (fun _ _ => eq_refl)
             (set_displayed_image (Some a') s)).
  - split; [reflexivity|]. split; [reflexivity|].
    intros v Hin. rewrite Forall_forall in Ha. specialize (Ha v Hin). split.
    + apply display_sample_low; assumption.
    + apply display_sample_high; assumption.
Qed.

(** *** Rescaling integer samples *)

Lemma list_max_in (xs : list Q) :
  forall acc, list_max acc xs = acc \/ In (list_max acc xs) xs.
Proof.
  induction xs as [|x xs IH]; intros acc; simpl; [left; reflexivity|].
  destruct (Qle_bool acc x).
  - destruct (IH x) as [E|E]; [right; left; symmetry; exact E | right; right; exact E].
  - destruct (IH acc) as [E|E]; [left; exact E | right; right; exact E].
Qed.

Lemma list_max_ge (xs : list Q) :
  forall acc, (acc <= list_max acc xs)%Q /\
              forall x, In x xs -> (x <= list_max acc xs)%Q.
Proof.
  induction xs as [|x xs IH]; intros acc; simpl.
  - split; [apply Qle_refl | intros y []].
  - destruct (Qle_bool acc x) eqn:E.
    + apply Qle_bool_iff in E. destruct (IH x) as [H1 H2]. split.
      * apply Qle_trans with x; assumption.
      * intros y [<-|Hy]; [exact H1 | apply H2; exact Hy].
    + apply Qle_bool_false in E. destruct (IH acc) as [H1 H2]. split.
      * exact H1.
      * intros y [<-|Hy]; [|apply H2; exact Hy].
        apply Qle_trans with acc; [apply Qlt_le_weak; exact E | exact H1].
Qed.

(** The maximum of an array of integers is one of them and bounds them. *)
Lemma array_max_integers (sh : list nat) (zs : list Z) :
  zs <> [] ->
  exists m, array_max (mk_ndarray sh (map inject_Z zs)) = Some (inject_Z m) /\
            In m zs /\ forall z, In z zs -> z <= m.
Proof.
  intros Hne. destruct zs as [|z0 zs]; [contradiction|].
  unfold array_max. simpl.
  destruct (list_max_in (map inject_Z zs) (inject_Z z0)) as [E|E].
  - exists z0. split; [rewrite E; reflexivity|]. split; [left; reflexivity|].
    intros z [<-|Hz]; [lia|].
    destruct (list_max_ge (map inject_Z zs) (inject_Z z0)) as [_ H2].
    specialize (H2 (inject_Z z) (in_map _ _ _ Hz)). rewrite E in H2.
    rewrite <- Zle_Qle in H2. exact H2.
  - apply in_map_iff in E. destruct E as (m & Em & Hm).
    exists m. split; [rewrite <- Em; reflexivity|]. split; [right; exact Hm|].
    destruct (list_max_ge (map inject_Z zs) (inject_Z z0)) as [H1 H2].
    rewrite <- Em in H1, H2.
    intros z [<-|Hz].
    + rewrite <- Zle_Qle in H1. exact H1.
    + specialize (H2 (inject_Z z) (in_map _ _ _ Hz)).
      rewrite <- Zle_Qle in H2. exact H2.
Qed.

Lemma Qle_bool_inject (a b : Z) : Qle_bool (inject_Z a) (inject_Z b) = (a <=? b).
Proof. unfold Qle_bool, inject_Z. simpl. rewrite !Z.mul_1_r. reflexivity. Qed.

Lemma astype_uint8_integer (z : Z) : astype_uint8 (inject_Z z) = uint8 z.
Proof.
  unfold astype_uint8. rewrite (trunc_Qeq _ z); reflexivity.
Qed.

(** X7. An array of integer samples in [0, 255] whose largest sample is at
    least 2 comes out of [rescale_data] unchanged, with its shape. *)
Theorem rescale_data_keeps_8bit (sh : list nat) (zs : list Z) :
  Forall is_uint8 zs -> Exists (fun z => 2 <= z) zs ->
  rescale_data (mk_ndarray sh (map inject_Z zs)) = Ok (mk_ndarray sh zs).
Proof.
  intros Hu Hex.
  assert (Hne : zs <> []) by (intros ->; inversion Hex).
  destruct (array_max_integers sh zs Hne) as (m & Em & Hin & Hmax).
  rewrite Forall_forall in Hu. pose proof (Hu m Hin) as Hm. unfold is_uint8 in Hm.
  apply Exists_exists in Hex. destruct Hex as (z1 & Hz1 & H2).
  pose proof (Hmax z1 Hz1) as Hge.
  unfold rescale_data. rewrite Em.
  change 4096%Q with (inject_Z 4096). change 1024%Q with (inject_Z 1024).
  change 256%Q with (inject_Z 256). change 1%Q with (inject_Z 1).
  rewrite !Qle_bool_inject.
  destruct (Z.leb_spec 4096 m); [lia|]. destruct (Z.leb_spec 1024 m); [lia|].
  destruct (Z.leb_spec 256 m); [lia|]. destruct (Z.leb_spec m 1); [lia|].
  unfold amap. simpl. f_equal. f_equal.
  rewrite map_map. rewrite <- (map_id zs) at 2. apply map_ext_in.
  intros z Hz. rewrite astype_uint8_integer. apply uint8_small. apply Hu. exact Hz.
Qed.

(** X8. An array whose samples are all 0 or 1 (a binary mask) is multiplied
    by 256 and wraps around in the cast: every sample of the result of
    [rescale_data] is 0. *)
Theorem rescale_data_blanks_binary (sh : list nat) (zs : list Z) :
  zs <> [] -> Forall (fun z => 0 <= z <= 1) zs ->
  rescale_data (mk_ndarray sh (map inject_Z zs)) =
  Ok (mk_ndarray sh (map (fun _ => 0) zs)).
Proof.
  intros Hne Hb.
  destruct (array_max_integers sh zs Hne) as (m & Em & Hin & Hmax).
  rewrite Forall_forall in Hb. pose proof (Hb m Hin) as Hm.
  unfold rescale_data. rewrite Em.
  change 4096%Q with (inject_Z 4096). change 1024%Q with (inject_Z 1024).
  change 256%Q with (inject_Z 256) at 1. change 1%Q with (inject_Z 1).
  rewrite !Qle_bool_inject.
  destruct (Z.leb_spec 4096 m); [lia|]. destruct (Z.leb_spec 1024 m); [lia|].
  destruct (Z.leb_spec 256 m); [lia|]. destruct (Z.leb_spec m 1); [|lia].
  unfold amap. simpl. f_equal. f_equal.
  rewrite !map_map. apply map_ext_in. intros z Hz.
  unfold astype_uint8, fmul. rewrite (trunc_Qeq _ (z * 256)).
  - unfold uint8. apply Z_mod_mult.
  - rewrite (rnd_proper _ (inject_Z (z * 256))).
    + apply rnd_int. specialize (Hb z Hz). apply Z.abs_le.
      split; [|apply Z.le_trans with 256]; lia.
    + rewrite inject_Z_mult. reflexivity.
Qed.

(** *** Switching planes *)

(** [set_z_plane] on the slider's value, spelled out. *)
Lemma set_z_plane_int (s : ImQuick) (n : Z) :
  set_z_plane (PyInt n) s =
  let target := if max_plane s <? n then max_plane s
                else if n <? 0 then 0 else n in
  match update_z_display (set_z_display_value target s) with
  | (Ok _, s') => (Ok true, s')
  | (Exc e, s') => if is_ValueError e then (Ok false, s') else (Exc e, s')
  end.
Proof.
  unfold set_z_plane, try_except.
  unfold bind at 1. unfold ret at 1. unfold bind at 1. unfold gets at 1.
  cbv zeta.
  destruct (max_plane s <? n); [|destruct (n <? 0)];
    unfold bind at 1; unfold modify at 1; unfold bind at 1;
    match goal with
    | |- context [update_z_display ?t] =>
        destruct (update_z_display t) as [[[]|e] s']; reflexivity
    end.
Qed.

Lemma set_z_plane_state (s : ImQuick) (n : Z) :
  0 <= n <= max_plane s ->
  state_after (set_z_plane (PyInt n) s) =
  state_after (update_z_display (set_z_display_value n s)).
Proof.
  intros Hn. rewrite set_z_plane_int. cbv zeta.
  destruct (Z.ltb_spec (max_plane s) n); [lia|].
  destruct (Z.ltb_spec n 0); [lia|].
  destruct (update_z_display (set_z_display_value n s)) as [[[]|e] s'];
    [reflexivity|]. destruct (is_ValueError e); reflexivity.
Qed.

(** A switch to another plane that the reader decodes. *)
Lemma update_z_display_switches (s : ImQuick) (r : Reader) (d : ndarray Q)
    (sc : ndarray Z) :
  file_loaded s = true -> max_plane s <> 0 ->
  displayed_plane s <> z_display_value s ->
  reader s = Some r -> get_data r (z_display_value s) = Ok d ->
  rescale_data d = Ok sc ->
  update_z_display s =
  update_contrast
    (set_scaled_image_data (Some sc)
       (set_image_data (Some d) (set_displayed_plane (z_display_value s) s))).
Proof.
  intros Hf Hmp Hdp Hr Hd Hsc. unfold update_z_display, not_without_file.
  rewrite Hf.
  rewrite (bind_ok _ _ s s (max_plane s)) by reflexivity.
  rewrite (bind_ok _ _ s s (displayed_plane s)) by reflexivity.
  rewrite (bind_ok _ _ s s (z_display_value s)) by reflexivity.
  destruct (Z.eqb_spec (max_plane s) 0); [contradiction|].
  destruct (Z.eqb_spec (displayed_plane s) (z_display_value s)); [contradiction|].
  cbn [orb].
  rewrite (bind_ok _ _ s (set_displayed_plane (z_display_value s) s) tt)
    by reflexivity.
  rewrite (bind_ok _ _ _ _ (Some r)) by (unfold gets; cbn; rewrite Hr; reflexivity).
  rewrite (bind_ok _ _ _ _ d) by (unfold lift; rewrite Hd; reflexivity).
  rewrite (bind_ok _ _ _ _ tt) by reflexivity.
  rewrite (bind_ok _ _ _ _ sc) by (unfold lift; rewrite Hsc; reflexivity).
  rewrite (bind_ok _ _ _ _ tt) by reflexivity.
  reflexivity.
Qed.

(** X9. In a stack, the slider's value [n] inside [0, max_plane] and
    different from the plane on display makes [set_z_plane] decode plane [n]
    from the reader, rescale it and redraw: afterwards the raw data is that
    plane, the buffer is its rescaling, and the selector and
    [displayed_plane] both hold [n].  The call answers [True] when the redraw
    returns. *)
Theorem set_z_plane_decodes_plane (s : ImQuick) (r : Reader) (n : Z)
    (d : ndarray Q) (sc : ndarray Z) :
  file_loaded s = true -> 0 < max_plane s ->
  0 <= n <= max_plane s -> n <> displayed_plane s ->
  reader s = Some r -> get_data r n = Ok d -> rescale_data d = Ok sc ->
  let s1 := set_scaled_image_data (Some sc)
              (set_image_data (Some d)
                 (set_displayed_plane n (set_z_display_value n s))) in
  let s' := state_after (set_z_plane (PyInt n) s) in
  s' = state_after (update_contrast s1) /\
  image_data s' = Some d /\ scaled_image_data s' = Some sc /\
  displayed_plane s' = n /\ z_display_value s' = n /\
  (forall s2, update_contrast s1 = (Ok tt, s2) ->
              set_z_plane (PyInt n) s = (Ok true, s2)).
Proof.
  intros Hf Hmp Hn Hdp Hr Hd Hsc s1 s'.
  assert (U : update_z_display (set_z_display_value n s) = update_contrast s1).
  { assert (Hmp' : max_plane (set_z_display_value n s) <> 0)
      by (change (max_plane s <> 0); lia).
    assert (Hdp' : displayed_plane (set_z_display_value n s) <>
                   z_display_value (set_z_display_value n s))
      by (change (displayed_plane s <> n); intros E; apply Hdp; symmetry; exact E).
    exact (update_z_display_switches (set_z_display_value n s) r d sc
             Hf Hmp' Hdp' Hr Hd Hsc). }
  assert (E : s' = state_after (update_contrast s1)).
  { unfold s'. rewrite set_z_plane_state by exact Hn. rewrite U. reflexivity. }
  split; [exact E|]. rewrite E. unfold state_after.
  split; [|split; [|split; [|split]]].
  - rewrite (update_contrast_redraws image_data); try (intros; reflexivity).
  - rewrite (update_contrast_redraws scaled_image_data); try (intros; reflexivity).
  - rewrite (update_contrast_redraws displayed_plane); try (intros; reflexivity).
  - rewrite (update_contrast_redraws z_display_value); try (intros; reflexivity).
  - intros s2 H2. rewrite set_z_plane_int. cbv zeta.
    destruct (Z.ltb_spec (max_plane s) n); [lia|].
    destruct (Z.ltb_spec n 0); [lia|]. rewrite U, H2. reflexivity.
Qed.



(** *** What each family of operations leaves alone *)

Lemma channel_mode_select_keeps_document (choice : string) :
  keeps (fun s => (document s, viewport s, series s)) (channel_mode_select choice).
Proof.
  unfold channel_mode_select, popup_set. keeps_field.
Qed.

(** X11. The contrast operations (a write to either bound, automatic
    contrast, a redraw, opening the dialog, choosing a channel in it) never
    change the file, the raw data, the rescaled buffer, the reader, the
    number of planes, the zoom factor, the image size or the file series,
    whether they return or raise. *)
Theorem contrast_keeps_document_and_view :
  let o := fun s => (document s, viewport s, series s) in
  (forall v, keeps o (min_display_value_set v)) /\
  (forall v, keeps o (max_display_value_set v)) /\
  keeps o auto_contrast /\
  keeps o update_contrast /\
  keeps o adjust_contrast /\
  (forall choice, keeps o (channel_mode_select choice)).
Proof.
  intros o.
  assert (Hb : levels_blind o) by (repeat split; reflexivity).
  split; [intros v; apply min_display_value_set_blind; exact Hb|].
  split; [intros v; apply max_display_value_set_blind; exact Hb|].
  split; [|split; [|split]].
  - unfold auto_contrast. keeps_field.
  - apply update_contrast_blind; exact Hb.
  - unfold adjust_contrast. keeps_field.
  - intros choice. apply channel_mode_select_keeps_document.
Qed.

(** X12. A zoom step (button, mouse wheel, fit to window, actual size) never
    changes the file, the decoded data, the levels window, the per-channel
    bounds, the image on display or the file series; a plane switch never
    changes the zoom factor, the image size, the levels window, the
    per-channel bounds, the file, the reader or the file series. *)
Theorem zoom_and_planes_keep_the_rest :
  let o := fun s => (document s, bounds s, display_values_array s,
                     displayed_image s, series s, displayed_plane s) in
  let q := fun s => (viewport s, bounds s, display_values_array s, file s,
                     reader s, max_plane s, series s) in
  keeps o zoom_in /\ keeps o zoom_out /\
  (forall event, keeps o (zoom_mouse event)) /\
  keeps o fit_to_window /\
  (forall loading, keeps o (first_show_image loading)) /\
  keeps q update_z_display /\
  (forall val, keeps q (set_z_plane val)).
Proof.
  intros o q.
  assert (U : keeps q update_z_display).
  { unfold update_z_display, update_contrast, show_image, tk. keeps_auto. }
  repeat split.
  - unfold zoom_in, zoom_image, show_image, tk. keeps_auto.
  - unfold zoom_out, zoom_image, show_image, tk. keeps_auto.
  - intros event. unfold zoom_mouse, wheel_in, wheel_out, zoom_image, show_image, tk.
    keeps_auto.
  - unfold fit_to_window, zoom_image, center_canvas, show_image, tk. keeps_auto.
  - intros loading.
    unfold first_show_image, fit_to_window, zoom_image, center_canvas, show_image, tk.
    keeps_auto.
  - exact U.
  - intros val. unfold set_z_plane.
    apply keeps_try_except; [|apply keeps_ret].
    apply keeps_bind; [keeps_auto|]. intros v.
    apply keeps_bind; [apply keeps_gets|]. intros mp.
    apply keeps_bind; [keeps_auto|]. intros _.
    apply keeps_bind; [exact U | intros _; apply keeps_ret].
Qed.

(** *** What a load does to the levels *)

Lemma reset_levels_window (s : ImQuick) :
  exists s', reset_levels s = (Ok tt, s') /\ bounds s' = (0, 255).
Proof.
  unfold reset_levels.
  rewrite (bind_ok _ _ s s (min_display_value s)) by reflexivity.
  set (t := if min_display_value s =? 0 then s
            else state_after (min_display_value_set 0 s)).
  assert (T : (if min_display_value s =? 0 then ret tt
               else min_display_value_set 0) s = (Ok tt, t)).
  { unfold t. destruct (min_display_value s =? 0); reflexivity. }
  rewrite (bind_ok _ _ s t tt T).
  rewrite (bind_ok _ _ t t (max_display_value t)) by reflexivity.
  assert (Mt : min_display_value t = 0).
  { unfold t. destruct (Z.eqb_spec (min_display_value s) 0); [assumption|].
    rewrite min_after_min_write by lia. reflexivity. }
  destruct (Z.eqb_spec (max_display_value t) 255) as [E|E].
  - exists t. split; [reflexivity|]. unfold bounds. rewrite Mt, E. reflexivity.
  - eexists. split; [reflexivity|].
    change (bounds (state_after (max_display_value_set 255 t)) = (0, 255)).
    rewrite max_display_value_set_window by lia. rewrite Mt. reflexivity.
Qed.

Lemma rescale_data_shape (d : ndarray Q) (sc : ndarray Z) :
  rescale_data d = Ok sc -> shape sc = shape d.
Proof.
  unfold rescale_data. destruct (array_max d) as [m|]; [|discriminate].
  intros H. injection H as <-.
  destruct (Qle_bool 4096 m); [reflexivity|].
  destruct (Qle_bool 1024 m); [reflexivity|].
  destruct (Qle_bool 256 m); [reflexivity|].
  destruct (Qle_bool m 1); reflexivity.
Qed.

Lemma default_bounds_valid (n : nat) :
  valid_pairs (default_bounds n) /\ List.length (default_bounds n) = (2 * n)%nat.
Proof.
  induction n as [|n [IH1 IH2]]; [split; [exact I | reflexivity]|].
  split.
  - simpl. split; [|exact IH1]. unfold valid_window. simpl. lia.
  - simpl. rewrite IH2. lia.
Qed.

Lemma show_loaded_mode (file : string) (s : ImQuick) :
  per_channel_contrast (snd (show_loaded file s)) =
  match display_popup s with
  | Some _ => false
  | None => per_channel_contrast s
  end.
Proof.
  assert (K : keeps per_channel_contrast
                (first_show_image true ;; tk (SetTitle file))).
  { unfold first_show_image, fit_to_window, zoom_image, center_canvas,
      show_image, tk. keeps_auto. }
  unfold show_loaded. unfold bind at 1. unfold switch_image.
  unfold bind at 1. unfold gets at 1.
  destruct (display_popup s) as [p|].
  - unfold bind at 1. unfold modify at 1. unfold modify at 1.
    rewrite K. reflexivity.
  - unfold ret at 1. rewrite K. reflexivity.
Qed.

(** What the second half of [load_image] leaves in the levels. *)
Lemma load_image_display_levels (file : string) (s1 s2 : ImQuick) :
  load_image_display file s1 = (Ok tt, s2) ->
  exists d sc,
    image_data s1 = Some d /\ rescale_data d = Ok sc /\
    bounds s2 = (0, 255) /\
    display_values_array s2 =
      (if (List.length (shape d) <? 3)%nat then [0; 255]
       else default_bounds (last (shape d) 0%nat + 1)) /\
    (width s2, height s2) = image_size sc /\
    per_channel_contrast s2 =
      match display_popup s1 with
      | Some _ => false
      | None => per_channel_contrast s1
      end.
Proof.
  unfold load_image_display.
  destruct (reset_levels_window s1) as (t & R & Bt).
  rewrite (bind_ok _ _ _ _ _ R).
  pose proof (reset_levels_keeps_stack s1) as K. rewrite R in K. cbn [snd] in K.
  unfold stack in K. injection K as Kd _ _ _.
  assert (Kp : (per_channel_contrast t, display_popup t) =
               (per_channel_contrast s1, display_popup s1)).
  { assert (Q : keeps (fun s => (per_channel_contrast s, display_popup s))
                  reset_levels) by (unfold reset_levels; keeps_field).
    specialize (Q s1). rewrite R in Q. exact Q. }
  injection Kp as Kc Kpop.
  unfold bind at 1. unfold gets at 1. rewrite Kd.
  destruct (image_data s1) as [d|]; [|discriminate].
  unfold bind at 1. unfold modify at 1. unfold bind at 1. unfold lift at 1.
  destruct (rescale_data d) as [sc|e] eqn:Er; [|discriminate].
  unfold bind at 1. unfold modify at 1. unfold bind at 1. unfold lift at 1.
  unfold Image_fromarray. destruct (pil_accepts (shape sc)); [|discriminate].
  unfold bind at 1. unfold modify at 1.
  unfold bind at 1. unfold modify at 1.
  unfold bind at 1. unfold modify at 1.
  intros H. exists d, sc. split; [reflexivity|]. split; [exact Er|].
  match type of H with
  | show_loaded _ ?u = _ =>
      assert (S : keeps (fun s => (bounds s, display_values_array s,
                                   (width s, height s))) (show_loaded file))
        by (unfold show_loaded, switch_image, first_show_image, fit_to_window,
              zoom_image, center_canvas, show_image, tk; keeps_auto);
      specialize (S u); rewrite H in S; cbn [snd] in S;
      pose proof (show_loaded_mode file u) as Md; rewrite H in Md; cbn [snd] in Md
  end.
  pose proof (f_equal (fun x => fst (fst x)) S) as Sb.
  pose proof (f_equal (fun x => snd (fst x)) S) as Sa.
  pose proof (f_equal snd S) as Sw.
  cbn [fst snd] in Sb, Sa, Sw.
  split; [|split; [|split]].
  - rewrite Sb. exact Bt.
  - rewrite Sa. reflexivity.
  - rewrite Sw. cbn [width height set_file set_size].
    destruct (image_size sc). reflexivity.
  - rewrite Md. cbn [display_popup per_channel_contrast set_file set_size
                     set_displayed_image set_scaled_image_data
                     set_display_values_array].
    rewrite Kpop, Kc. reflexivity.
Qed.

(** X13. When [load_image] has decoded a file and returns, it has put the
    levels back to their defaults whatever they were: the window is
    (0, 255), [display_values_array] is [0, 255] for an image of fewer than
    three dimensions and one (0, 255) pair per channel plus one otherwise
    (so every pair in it is a valid window), and the size recorded is the
    one of the rescaled image.  An open contrast dialog also turns
    per-channel contrast off. *)
Theorem load_image_resets_levels (s s1 s' : ImQuick) (path : string) :
  load_image_decode (normpath path) (load_image_begin s) = (Ok tt, s1) ->
  load_image path s = (Ok tt, s') ->
  exists d sc,
    image_data s' = Some d /\ rescale_data d = Ok sc /\
    bounds s' = (0, 255) /\
    display_values_array s' =
      (if (List.length (shape d) <? 3)%nat then [0; 255]
       else default_bounds (last (shape d) 0%nat + 1)) /\
    valid_pairs (display_values_array s') /\
    ((3 <= List.length (shape d))%nat ->
     List.length (display_values_array s') = (2 * (last (shape d) 0 + 1))%nat) /\
    (width s', height s') = image_size sc /\
    (display_popup s <> None -> per_channel_contrast s' = false).
Proof.
  intros Hd Hl. rewrite load_image_cases, Hd in Hl.
  destruct (load_image_display_levels _ _ _ Hl) as (d & sc & Ed & Er & Eb & Ea & Ew & Em).
  pose proof (load_image_display_keeps_stack (normpath path) s1) as K.
  rewrite Hl in K. cbn [snd] in K. unfold stack in K. injection K as Kd _ _ _.
  assert (Kp : display_popup s1 = display_popup s).
  { assert (Q : keeps display_popup (load_image_decode (normpath path)))
      by (unfold load_image_decode, tk; keeps_field).
    specialize (Q (load_image_begin s)). rewrite Hd in Q. exact Q. }
  exists d, sc. split; [rewrite Kd; exact Ed|]. split; [exact Er|].
  split; [exact Eb|]. split; [exact Ea|]. split; [|split; [|split]].
  - rewrite Ea. destruct (List.length (shape d) <? 3)%nat.
    + simpl. split; [|exact I]. unfold valid_window. simpl. lia.
    + apply default_bounds_valid.
  - intros H3. rewrite Ea.
    destruct (Nat.ltb_spec (List.length (shape d)) 3); [lia|].
    apply default_bounds_valid.
  - exact Ew.
  - intros Hp. rewrite Em, Kp.
    destruct (display_popup s); [reflexivity | contradiction].
Qed.

(** *** Per-channel contrast with the dialog closed *)

Lemma update_contrast_fails (s : ImQuick) (a : ndarray Z) :
  per_channel_contrast s = true -> scaled_image_data s = Some a ->
  (List.length (shape a) < 3)%nat ->
  update_contrast s = (Exc IndexError, s).
Proof.
  intros Hm Hs Hl. unfold update_contrast.
  rewrite (bind_ok _ _ s s (Some a)) by (unfold gets; rewrite Hs; reflexivity).
  rewrite (bind_ok _ _ s s s) by reflexivity.
  apply bind_exc. unfold lift, displayable, windowed. rewrite Hm.
  destruct (shape a) as [|h [|w [|c l]]]; try reflexivity.
  simpl in Hl. lia.
Qed.

Lemma update_contrast_keeps_frozen_image : keeps frozen_image update_contrast.
Proof.
  intros s. unfold frozen_image.
  assert (R : redraw_fails (snd (update_contrast s)) = redraw_fails s).
  { unfold redraw_fails.
    rewrite (update_contrast_redraws scaled_image_data) by (intros; reflexivity).
    rewrite (update_contrast_redraws per_channel_contrast) by (intros; reflexivity).
    reflexivity. }
  rewrite R. destruct (redraw_fails s) eqn:E; [|reflexivity].
  f_equal. unfold redraw_fails in E.
  destruct (scaled_image_data s) as [a|] eqn:Es.
  - apply andb_true_iff in E. destruct E as [Em El].
    apply Nat.ltb_lt in El.
    rewrite (update_contrast_fails s a Em Es El). reflexivity.
  - unfold update_contrast. unfold bind, gets. rewrite Es. reflexivity.
Qed.

Lemma load_image_keeps_mode (path : string) (s : ImQuick) :
  display_popup s = None ->
  per_channel_contrast (state_after (load_image path s)) = per_channel_contrast s.
Proof.
  intros Hp. unfold state_after. rewrite load_image_cases.
  assert (Q : keeps (fun s => (per_channel_contrast s, display_popup s))
                (load_image_decode (normpath path)))
    by (unfold load_image_decode, tk; keeps_field).
  specialize (Q (load_image_begin s)).
  destruct (load_image_decode (normpath path) (load_image_begin s))
    as [[[]|e] s1]; cbn [snd] in Q; injection Q as Qm Qp.
  - cbn in Qp. rewrite Hp in Qp.
    unfold load_image_display.
    destruct (reset_levels_window s1) as (t & R & _).
    assert (Kp : (per_channel_contrast t, display_popup t) =
                 (per_channel_contrast s1, display_popup s1)).
    { assert (Q : keeps (fun s => (per_channel_contrast s, display_popup s))
                    reset_levels) by (unfold reset_levels; keeps_field).
      specialize (Q s1). rewrite R in Q. exact Q. }
    injection Kp as Kc Kpop.
    rewrite (bind_ok _ _ _ _ _ R).
    unfold bind at 1. unfold gets at 1.
    destruct (image_data t) as [d|]; [|cbn; congruence].
    unfold bind at 1. unfold modify at 1. unfold bind at 1. unfold lift at 1.
    destruct (rescale_data d) as [sc|e]; [|cbn; congruence].
    unfold bind at 1. unfold modify at 1. unfold bind at 1. unfold lift at 1.
    destruct (Image_fromarray sc) as [im|e]; [|cbn; congruence].
    unfold bind at 1. unfold modify at 1.
    unfold bind at 1. unfold modify at 1.
    unfold bind at 1. unfold modify at 1.
    rewrite show_loaded_mode. cbn. rewrite Kpop, Qp, Kc. exact Qm.
  - exact Qm.
Qed.

(** X14. Per-channel contrast is switched off only through the open dialog:
    closing the dialog leaves [per_channel_contrast] as it was, and so does
    [load_image] while the dialog is closed, whether the load succeeds or
    not.  And while per-channel contrast is on over a buffer of fewer than
    three dimensions, [update_contrast] raises [IndexError] and changes
    nothing, so no write to either bound changes the image on display. *)
Theorem per_channel_mode_outlives_dialog (s : ImQuick) (a : ndarray Z) :
  (let s' := state_after (destroy_display_popup s) in
   display_popup s' = None /\
   per_channel_contrast s' = per_channel_contrast s) /\
  (forall path, display_popup s = None ->
     per_channel_contrast (state_after (load_image path s)) =
     per_channel_contrast s) /\
  (per_channel_contrast s = true -> scaled_image_data s = Some a ->
   (List.length (shape a) < 3)%nat ->
   update_contrast s = (Exc IndexError, s) /\
   forall v,
     displayed_image (state_after (min_display_value_set v s)) =
       displayed_image s /\
     displayed_image (state_after (max_display_value_set v s)) =
       displayed_image s).
Proof.
  split; [split; reflexivity|].
  split; [intros path Hp; apply load_image_keeps_mode; exact Hp|].
  intros Hm Hs Hl. split; [apply (update_contrast_fails s a); assumption|].
  assert (F : redraw_fails s = true).
  { unfold redraw_fails. rewrite Hs, Hm. apply Nat.ltb_lt in Hl.
    rewrite Hl. reflexivity. }
  assert (St : keeps frozen_image store_display_values)
    by (unfold store_display_values; keeps_auto).
  intros v. split.
  - pose proof (min_display_value_set_kept frozen_image
                  ltac:(intros; reflexivity) ltac:(intros; reflexivity)
                  St update_contrast_keeps_frozen_image v s) as K.
    unfold frozen_image in K. injection K as K1 K2.
    unfold state_after. rewrite K1, F in K2. exact K2.
  - pose proof (max_display_value_set_kept frozen_image
                  ltac:(intros; reflexivity) ltac:(intros; reflexivity)
                  St update_contrast_keeps_frozen_image v s) as K.
    unfold frozen_image in K. injection K as K1 K2.
    unfold state_after. rewrite K1, F in K2. exact K2.
Qed.

(** *** The index stays inside the series *)

Lemma index_in_series_series (s t : ImQuick) :
  series t = series s -> index_in_series s -> index_in_series t.
Proof.
  unfold series, index_in_series. intros E. injection E as -> ->. exact (fun H => H).
Qed.

Lemma step_in_series (event : bool) (s : ImQuick) :
  0 <= current_index s < Z.of_nat (List.length (file_list s)) ->
  index_in_series (state_after (next_file event s)) /\
  index_in_series (state_after (prev_file event s)).
Proof.
  intros Hi.
  assert (I : index_in_series s) by (right; exact Hi).
  destruct (file_loaded s) eqn:Hf.
  2: { destruct (navigation_blocked event s (or_introl Hf)) as [-> ->].
       split; exact I. }
  destruct (andb event (z_label_focus s)) eqn:Hb.
  1: { destruct (navigation_blocked event s (or_intror Hb)) as [-> ->].
       split; exact I. }
  destruct (Z.eq_dec (Z.of_nat (List.length (file_list s))) 1) as [H1|H1].
  1: { destruct (single_file_series event s) as [-> ->]; [lia|]. split; exact I. }
  assert (H2 : 2 <= Z.of_nat (List.length (file_list s))) by lia.
  rewrite (next_file_runs event s Hf Hb H2), (prev_file_runs event s Hf Hb H2).
  unfold state_after. split.
  - apply (index_in_series_series
             (set_current_index
                (next_index (Z.of_nat (List.length (file_list s))) (current_index s)) s));
      [apply load_current_keeps_series|].
    right. cbn [current_index file_list set_current_index]. unfold next_index.
    destruct (Z.ltb_spec (current_index s) (Z.of_nat (List.length (file_list s)) - 1));
      [lia|].
    destruct (Z.eqb_spec (current_index s) (Z.of_nat (List.length (file_list s)) - 1));
      lia.
  - apply (index_in_series_series
             (set_current_index
                (prev_index (Z.of_nat (List.length (file_list s))) (current_index s)) s));
      [apply load_current_keeps_series|].
    right. cbn [current_index file_list set_current_index]. unfold prev_index.
    destruct (Z.ltb_spec 0 (current_index s)); [lia|].
    destruct (Z.eqb_spec (current_index s) 0); lia.
Qed.

(** X15. As long as [make_file_list] does not raise, navigation keeps the
    current index inside the series: from a state whose index points into
    its series, or whose series is still empty and can be rebuilt, the state
    after [next_file] or [prev_file] has an index that points into its
    series (or an empty series), whether the load that follows succeeds or
    not. *)
Theorem navigation_keeps_index_in_series (event : bool) (s : ImQuick) :
  index_in_series s ->
  file_list s <> [] \/ fst (make_file_list s) = Ok tt ->
  index_in_series (state_after (next_file event s)) /\
  index_in_series (state_after (prev_file event s)).
Proof.
  intros I H.
  destruct (file_list s) as [|f0 l] eqn:El.
  - destruct H as [H|H]; [contradiction|].
    assert (I0 : index_in_series s) by (left; exact El).
    destruct (file_loaded s) eqn:Hf.
    2: { destruct (navigation_blocked event s (or_introl Hf)) as [-> ->].
         split; exact I0. }
    destruct (andb event (z_label_focus s)) eqn:Hb.
    1: { destruct (navigation_blocked event s (or_intror Hb)) as [-> ->].
         split; exact I0. }
    destruct (make_file_list s) as [[[]|e] t] eqn:Hm; [|discriminate H].
    destruct (step_after_rebuild event s t Hf Hb El Hm) as [-> ->].
    apply step_in_series. apply (make_file_list_returns s t Hm).
  - apply step_in_series.
    destruct I as [I|I]; [rewrite El in I; discriminate I | exact I].
Qed.

(** *** The first view of an image *)

Lemma Qeq_bool_inject_0 (w : Z) : w <> 0 -> Qeq_bool (inject_Z w) 0 = false.
Proof.
  intros H. destruct (Qeq_bool (inject_Z w) 0) eqn:E; [|reflexivity].
  apply Qeq_bool_eq in E. exfalso. apply H.
  apply inject_Z_injective. exact E.
Qed.

Lemma pymin_le (a b : Q) : (pymin a b <= a)%Q /\ (pymin a b <= b)%Q.
Proof.
  unfold pymin. destruct (Qltb b a) eqn:E.
  - apply Qltb_true in E. split; [apply Qlt_le_weak; exact E | apply Qle_refl].
  - apply Qltb_false in E. split; [apply Qle_refl | exact E].
Qed.

(** [fit_to_window] on an image with a width and a height: the factor is
    assigned before the redraw, which leaves it alone. *)
Lemma fit_to_window_scale (s : ImQuick) :
  file_loaded s = true -> width s <> 0 -> height s <> 0 ->
  zoom_factor (state_after (fit_to_window s)) =
    pymin (fdiv (inject_Z (winfo_width s - 4)) (inject_Z (width s)))
          (fdiv (inject_Z (winfo_height s - 4)) (inject_Z (height s))).
Proof.
  intros Hf Hw Hh. unfold fit_to_window, not_without_file. rewrite Hf.
  unfold center_canvas.
  rewrite (bind_ok _ _ s (set_gui (gui s ++ [CenterCanvas]) s) tt) by reflexivity.
  set (t := set_gui (gui s ++ [CenterCanvas]) s).
  rewrite (bind_ok _ _ t t (winfo_width s)) by reflexivity.
  rewrite (bind_ok _ _ t t (winfo_height s)) by reflexivity.
  rewrite (bind_ok _ _ t t (width s)) by reflexivity.
  rewrite (bind_ok _ _ t t (height s)) by reflexivity.
  cbv zeta.
  rewrite (bind_ok _ _ t t (fdiv (inject_Z (winfo_width s - 4)) (inject_Z (width s))))
    by (unfold lift, pydiv; rewrite (Qeq_bool_inject_0 _ Hw); reflexivity).
  rewrite (bind_ok _ _ t t (fdiv (inject_Z (winfo_height s - 4)) (inject_Z (height s))))
    by (unfold lift, pydiv; rewrite (Qeq_bool_inject_0 _ Hh); reflexivity).
  refine (keeps_after_modify zoom_factor _ _ t _).
  apply keeps_bind; [intros u; reflexivity | intros _].
  apply keeps_bind; [apply zoom_image_keeps_zoom | intros _].
  intros u. reflexivity.
Qed.

(** X16. For a loaded image with a positive width and height, the first view
    ([first_show_image] while loading) never enlarges the image: the zoom
    factor it leaves, whether the drawing that follows the assignment returns
    or raises, is at most 1, and it is exactly 1 when the canvas is at least
    as wide and as high as the image. *)
Theorem first_show_image_never_enlarges (s : ImQuick) :
  file_loaded s = true -> 0 < width s -> 0 < height s ->
  (zoom_factor (state_after (first_show_image true s)) <= 1)%Q /\
  (width s <= winfo_width s -> height s <= winfo_height s ->
   zoom_factor (state_after (first_show_image true s)) = 1%Q).
Proof.
  intros Hf Hw Hh. unfold first_show_image, not_without_file. rewrite Hf.
  rewrite (bind_ok _ _ s s (winfo_width s)) by reflexivity.
  rewrite (bind_ok _ _ s s (winfo_height s)) by reflexivity.
  rewrite (bind_ok _ _ s s (width s)) by reflexivity.
  rewrite (bind_ok _ _ s s (height s)) by reflexivity.
  cbv zeta. cbn [andb].
  destruct (orb (winfo_width s <? width s) (winfo_height s <? height s)) eqn:E.
  - rewrite (fit_to_window_scale s Hf) by lia. split.
    + assert (One : forall a w, 0 < w -> a < w ->
                (fdiv (inject_Z (a - 4)) (inject_Z w) <= 1)%Q).
      { intros a w P L. unfold fdiv.
        apply Qle_trans with (rnd (inject_Z 1)).
        - apply rnd_mono. apply Qle_shift_div_r.
          + change 0%Q with (inject_Z 0). rewrite <- Zlt_Qlt. exact P.
          + rewrite Qmult_1_l. rewrite <- Zle_Qle. lia.
        - rewrite rnd_int by (simpl; lia). apply Qle_refl. }
      apply orb_true_iff in E. destruct E as [E|E]; apply Z.ltb_lt in E.
      * eapply Qle_trans; [apply (proj1 (pymin_le _ _))|]. apply One; assumption.
      * eapply Qle_trans; [apply (proj2 (pymin_le _ _))|]. apply One; assumption.
    + intros Lw Lh. apply orb_true_iff in E.
      destruct E as [E|E]; apply Z.ltb_lt in E; lia.
  - assert (One : zoom_factor
                    (state_after
                       ((tk (ZoomFitPressed false) ;;
                         modify (set_zoom_factor 1) ;;
                         tk (CreateRectangle
                               (winfo_width s / 2 - width s / 2)
                               (winfo_height s / 2 - height s / 2)
                               (winfo_width s / 2 - width s / 2 + width s)
                               (winfo_height s / 2 - height s / 2 + height s)) ;;
                         img <- gets displayed_image ;;
                         lift (pil_photo_image toolkit img) ;;
                         tk (CreateImageCentered (winfo_width s / 2)
                               (winfo_height s / 2)) ;;
                         center_canvas) s)) = 1%Q).
    { rewrite (bind_ok _ _ s (set_gui (gui s ++ [ZoomFitPressed false]) s) tt)
        by reflexivity.
      refine (keeps_after_modify zoom_factor _ _
                (set_gui (gui s ++ [ZoomFitPressed false]) s) _).
      unfold center_canvas, tk. keeps_auto. }
    rewrite One. split; [apply Qle_refl | reflexivity].
Qed.

(** *** Dropped files *)

Lemma close_brace_plain (p rest : string) :
  contains "}" p = false -> contains "010" p = false ->
  close_brace (p ++ String "}" rest) = Some (p, rest).
Proof.
  induction p as [|c p IH]; intros H1 H2; [reflexivity|].
  simpl in H1, H2. apply orb_false_iff in H1, H2.
  destruct H1 as [C1 H1]. destruct H2 as [C2 H2].
  simpl. rewrite C1, C2, (IH H1 H2). reflexivity.
Qed.

Lemma findall_braces_none (s : string) :
  contains "{" s = false -> forall fuel, findall_braces fuel s = [].
Proof.
  induction s as [|c s IH]; intros H fuel; [destruct fuel; reflexivity|].
  simpl in H. apply orb_false_iff in H. destruct H as [C H].
  destruct fuel as [|f]; [reflexivity|]. simpl. rewrite C. apply IH. exact H.
Qed.

Lemma split_on_plain (sep : ascii) (s : string) :
  contains sep s = false -> split_on sep s = [s].
Proof.
  induction s as [|c s IH]; intros H; [reflexivity|].
  simpl in H. apply orb_false_iff in H. destruct H as [C H].
  simpl. rewrite C, (IH H). reflexivity.
Qed.

Lemma remove_all_skipped (obj s : string) :
  forall skip, (String.length s <= skip)%nat -> remove_all obj skip s = EmptyString.
Proof.
  induction s as [|c s IH]; intros skip H; [reflexivity|].
  simpl in H. destruct skip as [|k]; [lia|]. simpl. apply IH. lia.
Qed.

Lemma drop_last_snoc (p : string) (c : ascii) :
  drop_last (p ++ String c EmptyString) = p.
Proof.
  induction p as [|a p IH]; [reflexivity|].
  simpl. rewrite IH. destruct (p ++ String c EmptyString)%string eqn:E; [|reflexivity].
  destruct p; discriminate E.
Qed.

Lemma prefix_refl (s : string) : String.prefix s s = true.
Proof.
  induction s as [|c s IH]; [reflexivity|].
  simpl. destruct (ascii_dec c c); [exact IH | contradiction].
Qed.

(** The names found in a line that is one plain word, and in one that is one
    brace group. *)
Lemma drop_targets_plain (p : string) :
  contains "{" p = false -> contains " " p = false -> drop_targets p = [p].
Proof.
  intros H1 H2. unfold drop_targets, re_findall_braces.
  rewrite (findall_braces_none p H1). simpl. apply split_on_plain. exact H2.
Qed.

Lemma drop_targets_braced (p : string) :
  contains "}" p = false -> contains "010" p = false ->
  drop_targets (String "{" (p ++ "}")) = [p; EmptyString].
Proof.
  intros H1 H2. unfold drop_targets, re_findall_braces.
  cbn [String.length findall_braces]. rewrite Ascii.eqb_refl.
  rewrite (close_brace_plain p EmptyString H1 H2).
  assert (E : findall_braces (String.length (p ++ "}")) EmptyString = [])
    by (destruct (String.length (p ++ "}")); reflexivity).
  rewrite E. cbn [map strip_ends fold_left app].
  rewrite drop_last_snoc. f_equal.
  cbn [remove_all]. rewrite prefix_refl.
  rewrite remove_all_skipped; [reflexivity|].
  cbn [String.length]. lia.
Qed.

Lemma bind_ret_unit (m : M unit) (s : ImQuick) :
  bind m (fun _ => ret tt) s = m s.
Proof.
  unfold bind, ret. destruct (m s) as [[[]|e] s']; reflexivity.
Qed.

(** X17. One file dropped onto a window with no file.  Whether the path
    arrives bare (it has no space and no brace) or inside one pair of braces
    (it may then contain spaces, but no closing brace and no newline),
    [on_drop] does exactly what [load_image] does on that path when its
    extension is supported, and nothing at all otherwise. *)
Theorem on_drop_single_file (s : ImQuick) (p : string) :
  file_loaded s = false ->
  (contains "}" p = false -> contains "010" p = false ->
   on_drop (String "{" (p ++ "}")) s =
   if supported p then load_image p s else (Ok tt, s)) /\
  (contains "{" p = false -> contains " " p = false ->
   on_drop p s = if supported p then load_image p s else (Ok tt, s)).
Proof.
  intros Hf.
  assert (One : (loaded <- gets file_loaded ;;
                 if loaded : bool then lift (new_window p) else load_image p) s =
                load_image p s).
  { rewrite (bind_ok _ _ s s false) by (unfold gets; rewrite Hf; reflexivity).
    reflexivity. }
  split; intros H1 H2; unfold on_drop.
  - rewrite (drop_targets_braced p H1 H2). cbn [open_dropped].
    change (supported EmptyString) with false. cbv iota.
    destruct (supported p); [|reflexivity].
    unfold bind at 1. rewrite One.
    destruct (load_image p s) as [[[]|e] s']; reflexivity.
  - rewrite (drop_targets_plain p H1 H2). cbn [open_dropped].
    destruct (supported p); [|reflexivity].
    unfold bind at 1. rewrite One.
    destruct (load_image p s) as [[[]|e] s']; reflexivity.
Qed.

(** X18. A drop onto a window that already shows a file never touches that
    window.  The names with a supported extension among the dropped ones are
    handed, in the order of the drop, each to a new window, and the others
    are skipped; the call returns when every new window opens and raises what
    the first failing one raises, the later names being left out; the state
    of the window is exactly as it was. *)
Theorem on_drop_leaves_loaded_window (s : ImQuick) (data : string) :
  file_loaded s = true ->
  on_drop data s = (new_windows (filter supported (drop_targets data)), s).
Proof.
  intros Hf. unfold on_drop.
  induction (drop_targets data) as [|f rest IH]; [reflexivity|].
  cbn [open_dropped filter new_windows]. unfold bind at 1.
  destruct (supported f).
  - rewrite (bind_ok _ _ s s true) by (unfold gets; rewrite Hf; reflexivity).
    unfold lift. cbn [new_windows].
    destruct (new_window f) as [[]|e]; [exact IH | reflexivity].
  - exact IH.
Qed.

(** *** Opening another file *)

(** X20. A file dialog that is cancelled (it answers the empty name) leaves
    the window as it is.  With a name chosen, [open_file] leaves an empty
    series, whether the load succeeds or not, so that the next navigation
    step rebuilds the series from the directory of the new file; the current
    index is not reset, and the plane entry no longer holds the keyboard
    focus. *)
Theorem open_file_empties_series (s : ImQuick) (chosen : string) :
  (chosen = "" -> open_file chosen s = (Ok tt, s)) /\
  (chosen <> "" ->
   let s' := state_after (open_file chosen s) in
   file_list s' = [] /\ current_index s' = current_index s /\
   z_label_focus s' = false).
Proof.
  split; [intros ->; reflexivity|].
  intros Hc s'. unfold s', open_file, state_after.
  destruct chosen as [|c rest]; [contradiction Hc; reflexivity|].
  rewrite (bind_ok _ _ s (set_file_list [] s) tt) by reflexivity.
  pose proof (load_image_keeps_series (normpath (String c rest))
                (set_file_list [] s)) as K.
  unfold series in K. injection K as K1 K2.
  split; [exact K1|]. split; [exact K2|]. apply load_image_clears_focus.
Qed.

(** *** An image outside the visible area *)

Lemma trunc_nonpos (x : Q) : (x <= 0)%Q -> trunc x <= 0.
Proof.
  destruct x as [n d]. unfold Qle, trunc. simpl. intros H.
  rewrite Z.mul_1_r in H.
  apply Z.opp_nonneg_nonpos. rewrite <- Z.quot_opp_l by lia.
  apply Z.quot_pos; lia.
Qed.

Lemma pymax_ge (a b : Q) : (a <= pymax a b)%Q /\ (b <= pymax a b)%Q.
Proof.
  unfold pymax. destruct (Qltb a b) eqn:E.
  - apply Qltb_true in E. split; [apply Qlt_le_weak; exact E | apply Qle_refl].
  - apply Qltb_false in E. split; [apply Qle_refl | exact E].
Qed.

(** The extent of the visible part of the image along one axis is not
    positive when the visible interval [v0, v2] and the image interval
    [i0, i2] do not overlap. *)
Lemma visible_extent_nonpos (v0 v2 i0 i2 : Q) :
  (v2 <= i0)%Q \/ (i2 <= v0)%Q ->
  trunc (fsub (fsub (pymin v2 i2) i0) (pymax (fsub v0 i0) 0)) <= 0.
Proof.
  intros H. apply trunc_nonpos. unfold fsub at 1.
  apply Qle_trans with (rnd (inject_Z 0));
    [|rewrite rnd_int by (simpl; lia); apply Qle_refl].
  apply rnd_mono. change (inject_Z 0) with 0%Q.
  destruct (pymin_le v2 i2) as [M2 Mi].
  destruct (pymax_ge (fsub v0 i0) 0) as [P1 P0].
  assert (R0 : (rnd 0 <= 0)%Q).
  { change 0%Q with (inject_Z 0) at 1. rewrite rnd_int by (simpl; lia).
    apply Qle_refl. }
  destruct H as [H|H].
  - assert (X2 : (fsub (pymin v2 i2) i0 <= 0)%Q).
    { unfold fsub. apply Qle_trans with (rnd 0); [|exact R0].
      apply rnd_mono. lra. }
    lra.
  - assert (X : (fsub (pymin v2 i2) i0 <= fsub v0 i0)%Q).
    { unfold fsub. apply rnd_mono. lra. }
    lra.
Qed.

(** X21. When the image's box and the visible area of the canvas do not
    overlap along some axis, [show_image] computes no tile, whatever the zoom
    factor (a zero zoom factor included: nothing is divided). *)
Theorem show_image_tile_outside (zoom : Q) (b0 b1 b2 b3 : Z) (v0 v1 v2 v3 : Q) :
  (v2 <= inject_Z (b0 + 1))%Q \/ (inject_Z (b2 - 1) <= v0)%Q \/
  (v3 <= inject_Z (b1 + 1))%Q \/ (inject_Z (b3 - 1) <= v1)%Q ->
  exists scroll,
    show_image_tile zoom (b0, b1, b2, b3) (v0, v1, v2, v3) = Ok (scroll, None).
Proof.
  intros H. unfold show_image_tile. cbv zeta.
  match goal with
  | |- context [if andb (0 <? ?a) (0 <? ?b) then _ else _] =>
      assert (E : andb (0 <? a) (0 <? b) = false)
  end.
  { apply andb_false_iff.
    destruct H as [H|[H|[H|H]]].
    - left. apply Z.ltb_ge. apply visible_extent_nonpos. left. exact H.
    - left. apply Z.ltb_ge. apply visible_extent_nonpos. right. exact H.
    - right. apply Z.ltb_ge. apply visible_extent_nonpos. left. exact H.
    - right. apply Z.ltb_ge. apply visible_extent_nonpos. right. exact H. }
  rewrite E. eexists. reflexivity.
Qed.

End Model.

(** ** Runs in the sample world, with exact arithmetic *)

Lemma exact_mono (x y : Q) : (x <= y)%Q -> (exact x <= exact y)%Q.
Proof. intros H. exact H. Qed.

Lemma exact_int (z : Z) :
  Z.abs z <= 2 ^ 53 -> (exact (inject_Z z) == inject_Z z)%Q.
Proof. intros _. reflexivity. Qed.

(** Evaluate each conjunct of a closed statement. *)
Ltac run :=
  repeat match goal with |- _ /\ _ => split end;
  vm_compute; first [reflexivity | discriminate].

Abbreviation sample_load := (load_image exact pil_uint8 sample_toolkit sample_get_reader sample_normpath).
Abbreviation sample_next :=
  (next_file exact pil_uint8 sample_toolkit sample_get_reader sample_normpath sample_listdir
             sample_abspath sample_dirname sample_join).
Abbreviation sample_prev :=
  (prev_file exact pil_uint8 sample_toolkit sample_get_reader sample_normpath sample_listdir
             sample_abspath sample_dirname sample_join).
Abbreviation sample_make_file_list :=
  (make_file_list sample_normpath sample_listdir sample_abspath sample_dirname
                  sample_join).
(** The window after a file has been opened in a 500 x 500 canvas. *)
Abbreviation opened path := (state_after (sample_load path (init 500 500))).

(** A 16-bit image with raw maximum 5000 is divided by 265. *)
Lemma rescale_data_step_function_witness :
  let a := mk_ndarray [2; 2]%nat [0; 5000; 1024; 70]%Q in
  array_max a = Some 5000%Q /\
  rescale_data exact a = Ok (mk_ndarray [2; 2]%nat [0; 18; 3; 0]).
Proof.
  intros a. split; [reflexivity|].
  destruct (rescale_data_step_function exact a 5000 eq_refl)
    as [(sc & Hsc & Huniq & Hr) _].
  rewrite Hr.
  rewrite <- (Huniq (DivideBy 265) (NS_265 5000 ltac:(discriminate))).
  reflexivity.
Defined.


(** The window (-1, 1), which writing 0 to the max bound of (0, 255)
    leaves: the buffer is widened, the difference is [sample + 1] and every
    sample but 0 is shown as 255. *)
Lemma window_after_extreme_write :
  map (fun v => sub_scalar v (-1)) [0; 1; 100; 254; 255] = [1; 2; 101; 255; 256] /\
  map (display_sample exact (-1) 1) [0; 1; 100; 254; 255] =
    [127; 255; 255; 255; 255].
Proof. split; vm_compute; reflexivity. Qed.


(** C4, as stated, fails at the extreme values.  With [a.png] open and the
    window at (0, 255), writing 255 to the min bound leaves (254, 256) and
    writing 0 to the max bound leaves (-1, 1): the bound being set has moved,
    and the other one has left [0, 255]. *)
Lemma extreme_writes_move_both_bounds :
  let s0 := opened "/d/a.png" in
  let after_min := state_after (min_display_value_set exact pil_uint8 sample_toolkit 255 s0) in
  let after_max := state_after (max_display_value_set exact pil_uint8 sample_toolkit 0 s0) in
  bounds s0 = (0, 255) /\
  bounds after_min = (254, 256) /\
  bounds after_max = (-1, 1) /\
  ~ claimed_after_min_write 255 after_min /\
  ~ claimed_after_max_write 0 after_max.
Proof.
  cbv zeta.
  assert (E1 : bounds (state_after (min_display_value_set exact pil_uint8 sample_toolkit 255
                                      (opened "/d/a.png"))) = (254, 256))
    by (vm_compute; reflexivity).
  assert (E2 : bounds (state_after (max_display_value_set exact pil_uint8 sample_toolkit 0
                                      (opened "/d/a.png"))) = (-1, 1))
    by (vm_compute; reflexivity).
  assert (M1 : min_display_value
                 (state_after (min_display_value_set exact pil_uint8 sample_toolkit 255
                                 (opened "/d/a.png"))) = 254)
    by (vm_compute; reflexivity).
  assert (X2 : max_display_value
                 (state_after (max_display_value_set exact pil_uint8 sample_toolkit 0
                                 (opened "/d/a.png"))) = 1)
    by (vm_compute; reflexivity).
  split; [vm_compute; reflexivity|]. split; [exact E1|]. split; [exact E2|].
  split; intros (_ & H & _ & _).
  - rewrite M1 in H. discriminate H.
  - rewrite X2 in H. discriminate H.
Qed.

(** Writing 200 to the min bound of the window (0, 100), and 50 to the max
    bound of the window (100, 255). *)
Lemma degenerate_window_corrected_witness :
  let s1 := set_max_display_value 100 (init 500 500) in
  let s2 := set_min_display_value 100 (init 500 500) in
  0 <= 200 <= 255 /\ max_display_value s1 <= 200 /\
  bounds (state_after (min_display_value_set exact pil_uint8 sample_toolkit 200 s1)) = (200, 201) /\
  0 <= 50 <= 255 /\ 50 <= min_display_value s2 /\
  bounds (state_after (max_display_value_set exact pil_uint8 sample_toolkit 50 s2)) = (49, 50).
Proof.
  cbv zeta.
  assert (R1 : 0 <= 200 <= 255) by lia.
  assert (R2 : 0 <= 50 <= 255) by lia.
  assert (L1 : max_display_value (set_max_display_value 100 (init 500 500)) <= 200)
    by (simpl; lia).
  assert (L2 : 50 <= min_display_value (set_min_display_value 100 (init 500 500)))
    by (simpl; lia).
  split; [exact R1|]. split; [exact L1|]. split.
  - destruct (degenerate_window_corrected exact pil_uint8 sample_toolkit
                (set_max_display_value 100 (init 500 500)) 200 R1) as [H _].
    destruct (H L1) as (_ & H1 & _).
    destruct H1 as (Hmin & Hmax & _); [intros E; discriminate E|].
    unfold bounds. rewrite Hmin, Hmax. reflexivity.
  - split; [exact R2|]. split; [exact L2|].
    destruct (degenerate_window_corrected exact pil_uint8 sample_toolkit
                (set_min_display_value 100 (init 500 500)) 50 R2) as [_ H].
    destruct (H L2) as (_ & H1 & _).
    destruct H1 as (Hmax & Hmin & _); [intros E; discriminate E|].
    unfold bounds. rewrite Hmin, Hmax. reflexivity.
Defined.

(** C5, as stated, fails on both sides.  With the 30 x 30 image [a.png] open
    at factor 1 its minor dimension on screen is 30, so zooming out is
    accepted and leaves it at 23; in the 500 x 500 canvas the ceiling is 100,
    the factor after 17 steps in is still below it, so the 18th is accepted
    and leaves the factor above the ceiling. *)
Lemma zoom_steps_pass_both_limits :
  let s0 := opened "/d/a.png" in
  let s1 := state_after (zoom_out exact sample_toolkit s0) in
  let s17 := Nat.iter 17 (fun s => state_after (zoom_in exact sample_toolkit s)) s0 in
  let s18 := state_after (zoom_in exact sample_toolkit s17) in
  shown_minor exact s0 = 30 /\
  (zoom_factor s1 == 10 # 13)%Q /\
  shown_minor exact s1 = 23 /\
  (zoom_ceiling exact s17 == 100)%Q /\
  (zoom_factor s17 <= zoom_ceiling exact s17)%Q /\
  (zoom_ceiling exact s18 < zoom_factor s18)%Q.
Proof.
  cbv zeta. run.
Qed.

(** The zoom-out button and a wheel turn towards the user over the image,
    with [a.png] open. *)
Lemma zoom_step_checked_before_witness :
  let s0 := opened "/d/a.png" in
  let event := mk_wheel_event 250 250 (Some (235, 235, 265, 265)) (-120) in
  file_loaded s0 = true /\ 30 <= shown_minor exact s0 /\
  pointer_inside event = true /\ ev_delta event < 0 /\
  zoom_factor (state_after (zoom_out exact sample_toolkit s0)) =
  fdiv exact (zoom_factor s0) (delta exact) /\
  zoom_factor (state_after (zoom_mouse exact sample_toolkit event s0)) =
  fdiv exact (zoom_factor s0) (delta exact).
Proof.
  cbv zeta.
  assert (Hf : file_loaded (opened "/d/a.png") = true) by (vm_compute; reflexivity).
  assert (Hs : shown_minor exact (opened "/d/a.png") = 30) by (vm_compute; reflexivity).
  assert (Hm : 30 <= shown_minor exact (opened "/d/a.png"))
    by (rewrite Hs; apply Z.le_refl).
  assert (Hin : pointer_inside
                  (mk_wheel_event 250 250 (Some (235, 235, 265, 265)) (-120)) = true)
    by (vm_compute; reflexivity).
  assert (Hd : ev_delta (mk_wheel_event 250 250 (Some (235, 235, 265, 265)) (-120)) < 0)
    by reflexivity.
  split; [exact Hf|]. split; [exact Hm|]. split; [exact Hin|]. split; [exact Hd|].
  destruct (zoom_step_checked_before exact exact_mono exact_int sample_toolkit
              (opened "/d/a.png")
              (mk_wheel_event 250 250 (Some (235, 235, 265, 265)) (-120)) Hf)
    as [[_ H] _].
  destruct (H Hm) as [H1 H2]. split; [exact H1 | exact (H2 Hin Hd)].
Defined.


(** White space around the digits: a blank, a tab, a next-line character
    (code point 133) or a no-break space (160) is skipped; the separator of
    code point 28 is not. *)
Lemma py_int_white_space :
  py_int " 15 " = Some 15 /\
  py_int (String (ascii_of_nat 9) "15") = Some 15 /\
  py_int (String (ascii_of_nat 133) "15") = Some 15 /\
  py_int (String (ascii_of_nat 160) "15") = Some 15 /\
  py_int (String (ascii_of_nat 28) "15") = None.
Proof. repeat split; vm_compute; reflexivity. Qed.


(** C7, as stated, fails.  [gone.png] was opened and then deleted: the
    directory no longer lists it.  Rebuilding the series raises [ValueError]
    and leaves the three listed image paths in the series. *)
Lemma missing_current_file_raises :
  let s0 := opened "/d/gone.png" in
  let r := sample_make_file_list s0 in
  file s0 = Some "/d/gone.png" /\
  sample_listdir "/d" = Ok ["a.png"; "c.JPG"; "b.png"; "notes.txt"] /\
  fst r = Exc ValueError /\
  file_list (state_after r) = ["/d/a.png"; "/d/c.JPG"; "/d/b.png"] /\
  current_index (state_after r) = current_index s0.
Proof.
  cbv zeta. run.
Qed.

Lemma make_file_list_rebuilds_witness :
  let s0 := opened "/d/a.png" in
  let names := ["a.png"; "c.JPG"; "b.png"; "notes.txt"] in
  let files := map (fun name => sample_normpath
                                  (sample_join (sample_dirname (sample_abspath "/d/a.png"))
                                               name))
                   (filter supported names) in
  file s0 = Some "/d/a.png" /\
  sample_listdir (sample_dirname (sample_abspath "/d/a.png")) = Ok names /\
  In "/d/a.png" files /\
  exists i, sample_make_file_list s0 =
            (Ok tt, set_current_index i (set_file_list files s0)) /\
            0 <= i /\ py_getitem files i = Ok "/d/a.png".
Proof.
  cbv zeta.
  assert (Hf : file (opened "/d/a.png") = Some "/d/a.png") by (vm_compute; reflexivity).
  assert (Hl : sample_listdir (sample_dirname (sample_abspath "/d/a.png")) =
               Ok ["a.png"; "c.JPG"; "b.png"; "notes.txt"]) by reflexivity.
  assert (Hin : In "/d/a.png"
                   (map (fun name => sample_normpath
                                       (sample_join
                                          (sample_dirname (sample_abspath "/d/a.png"))
                                          name))
                        (filter supported ["a.png"; "c.JPG"; "b.png"; "notes.txt"])))
    by (left; reflexivity).
  split; [exact Hf|]. split; [exact Hl|]. split; [exact Hin|].
  destruct (make_file_list_rebuilds sample_normpath sample_listdir sample_abspath
              sample_dirname sample_join (opened "/d/a.png") "/d/a.png"
              ["a.png"; "c.JPG"; "b.png"; "notes.txt"] Hf Hl) as (_ & H & _).
  exact (H Hin).
Defined.

(** C8, as stated, fails twice.  Right after [a.png] is opened the series is
    empty (length 0): [next_file] rebuilds it and moves to [c.JPG], index 1.
    From there [next_file] moves to index 2, the corrupt [b.png]; no file is
    loaded any more, [prev_file] does nothing and the index stays at 2. *)
Lemma navigation_round_trip_fails :
  let s0 := opened "/d/a.png" in
  let s1 := state_after (sample_next false s0) in
  let s2 := state_after (sample_next false s1) in
  let s3 := state_after (sample_prev false s2) in
  (file_list s0 = [] /\ current_index s0 = 0 /\ file s0 = Some "/d/a.png") /\
  (file_list s1 = ["/d/a.png"; "/d/c.JPG"; "/d/b.png"] /\
   current_index s1 = 1 /\ file s1 = Some "/d/c.JPG") /\
  (current_index s2 = 2 /\ file s2 = None) /\
  current_index s3 = 2.
Proof.
  cbv zeta. run.
Qed.

(** From [c.JPG], index 1 of three: back to [a.png], then forward again.
    And right after [a.png] is opened, when the series is still empty: the
    step goes on from the series rebuilt from [/d]. *)
Lemma next_then_previous_witness :
  let s0 := opened "/d/a.png" in
  let t := state_after (sample_make_file_list s0) in
  let s1 := state_after (sample_next false s0) in
  (2 <= Z.of_nat (List.length (file_list s1)) /\
   0 <= current_index s1 < Z.of_nat (List.length (file_list s1)) /\
   file_loaded (state_after (sample_prev false s1)) = true /\
   current_index (state_after (sample_next false (state_after (sample_prev false s1))))
   = current_index s1) /\
  (Z.of_nat (List.length (file_list s0)) = 0 /\ file_loaded s0 = true /\
   sample_make_file_list s0 = (Ok tt, t) /\
   file_list t = ["/d/a.png"; "/d/c.JPG"; "/d/b.png"] /\ current_index t = 0 /\
   sample_next false s0 = sample_next false t).
Proof.
  cbv zeta.
  assert (H0 : Z.of_nat (List.length (file_list (opened "/d/a.png"))) = 0)
    by (vm_compute; reflexivity).
  assert (Hf0 : file_loaded (opened "/d/a.png") = true) by (vm_compute; reflexivity).
  assert (Hm : sample_make_file_list (opened "/d/a.png") =
               (Ok tt, state_after (sample_make_file_list (opened "/d/a.png"))))
    by (vm_compute; reflexivity).
  assert (Hl : file_list (state_after (sample_make_file_list (opened "/d/a.png"))) =
               ["/d/a.png"; "/d/c.JPG"; "/d/b.png"]) by (vm_compute; reflexivity).
  assert (Hc : current_index (state_after (sample_make_file_list (opened "/d/a.png")))
               = 0) by (vm_compute; reflexivity).
  assert (Hlen : Z.of_nat (List.length
                             (file_list (state_after (sample_next false
                                                        (opened "/d/a.png"))))) = 3)
    by (vm_compute; reflexivity).
  assert (Hidx : current_index (state_after (sample_next false (opened "/d/a.png"))) = 1)
    by (vm_compute; reflexivity).
  assert (Hn : 2 <= Z.of_nat (List.length
                                (file_list (state_after (sample_next false
                                                           (opened "/d/a.png"))))))
    by (rewrite Hlen; discriminate).
  assert (Hi : 0 <= current_index (state_after (sample_next false (opened "/d/a.png")))
               < Z.of_nat (List.length
                             (file_list (state_after (sample_next false
                                                        (opened "/d/a.png"))))))
    by (rewrite Hlen, Hidx; split; [discriminate | reflexivity]).
  assert (Hload : file_loaded
                    (state_after (sample_prev false
                                    (state_after (sample_next false
                                                    (opened "/d/a.png"))))) = true)
    by (vm_compute; reflexivity).
  split.
  - split; [exact Hn|]. split; [exact Hi|]. split; [exact Hload|].
    destruct (next_then_previous exact pil_uint8 sample_toolkit sample_get_reader
                sample_normpath sample_listdir sample_abspath sample_dirname
                sample_join
                (state_after (sample_next false (opened "/d/a.png"))) false)
      as [H _].
    destruct (H Hn Hi) as (_ & Hback & _). exact (Hback Hload).
  - split; [exact H0|]. split; [exact Hf0|]. split; [exact Hm|].
    split; [exact Hl|]. split; [exact Hc|].
    destruct (next_then_previous exact pil_uint8 sample_toolkit sample_get_reader
                sample_normpath sample_listdir sample_abspath sample_dirname
                sample_join (opened "/d/a.png") false)
      as (_ & _ & E).
    destruct (E H0 Hf0 eq_refl) as [Hok _].
    destruct (Hok (state_after (sample_make_file_list (opened "/d/a.png"))) Hm)
      as (_ & _ & Hnext & _).
    exact Hnext.
Defined.

(** Opening the corrupt [b.png] in a fresh window. *)
Lemma load_image_recovers_witness :
  let s := init 500 500 in
  let s' := load_image_failed (load_image_begin s) in
  load_image_decode sample_get_reader (sample_normpath "/d/b.png")
                    (load_image_begin s) = (Exc OSError, load_image_begin s) /\
  sample_load "/d/b.png" s = (Ok tt, s') /\
  file s' = None /\ reader s' = None /\
  gui s' = [CreateText 250 250 "[Drag a file here to open]";
            CanvasDeleteAll; FocusSet;
            CreateText 250 250 "[Unable to open file]"] /\
  (forall event, sample_next event s' = (Ok tt, s')).
Proof.
  cbv zeta.
  assert (H : load_image_decode sample_get_reader (sample_normpath "/d/b.png")
                (load_image_begin (init 500 500)) =
              (Exc OSError, load_image_begin (init 500 500))) by reflexivity.
  split; [exact H|].
  destruct (load_image_recovers exact pil_uint8 sample_toolkit sample_get_reader sample_normpath
              sample_listdir sample_abspath sample_dirname sample_join
              (init 500 500) (load_image_begin (init 500 500)) "/d/b.png" OSError H)
    as (H1 & H2 & H3 & H4 & _ & _ & _ & _ & _ & _ & _ & H5 & _).
  split; [exact H1|]. split; [exact H2|]. split; [exact H3|].
  split; [exact H4 | exact H5].
Defined.

(** C10, as stated, fails on a stack of two planes: [max_plane] is 1, the
    middle index is 0, and the plane decoded and selected is plane 0. *)
Lemma two_plane_stack_shows_plane_0 :
  let s0 := opened "/d/pair.tif" in
  file s0 = Some "/d/pair.tif" /\
  max_plane s0 = 1 /\ 0 < max_plane s0 /\
  z_display_value s0 = 0 /\
  image_data s0 = Some (gray 2 2 10) /\
  (exists r, reader s0 = Some r /\
             get_data r 0 = Ok (gray 2 2 10) /\ get_data r 1 = Ok (gray 2 2 20)).
Proof.
  cbv zeta. repeat (split; [run|]).
  exists (reader_of [gray 2 2 10; gray 2 2 20]). run.
Qed.

(** Opening the five-plane [stack.tif] in a fresh window. *)
Lemma load_image_decodes_middle_plane_witness :
  let s := init 500 500 in
  let s1 := state_after (load_image_decode sample_get_reader
                           (sample_normpath "/d/stack.tif") (load_image_begin s)) in
  let s' := state_after (sample_load "/d/stack.tif" s) in
  load_image_decode sample_get_reader (sample_normpath "/d/stack.tif")
                    (load_image_begin s) = (Ok tt, s1) /\
  exists r len d,
    reader s' = Some r /\ get_length r = Ok len /\ max_plane s' = len - 1 /\
    image_data s' = Some d /\
    (0 < max_plane s' ->
     get_data r (max_plane s' / 2) = Ok d /\
     z_display_value s' = max_plane s' / 2).
Proof.
  cbv zeta.
  assert (H : load_image_decode sample_get_reader (sample_normpath "/d/stack.tif")
                (load_image_begin (init 500 500)) =
              (Ok tt, state_after (load_image_decode sample_get_reader
                                     (sample_normpath "/d/stack.tif")
                                     (load_image_begin (init 500 500)))))
    by (vm_compute; reflexivity).
  split; [exact H|].
  destruct (load_image_decodes_middle_plane exact pil_uint8 sample_toolkit sample_get_reader
              sample_normpath (init 500 500) _ "/d/stack.tif" H)
    as (r & len & d & Hr & Hl & Hm & Hd & Hmid & _).
  exists r, len, d. split; [exact Hr|]. split; [exact Hl|]. split; [exact Hm|].
  split; [exact Hd|]. intros P. destruct (Hmid P) as (G & Z0 & _).
  split; [exact G | exact Z0].
Defined.

(** ** The tile geometry in exact arithmetic *)

Lemma pymax_shift (v i : Q) : (pymax (v - i) 0 == pymax v i - i)%Q.
Proof.
  unfold pymax.
  destruct (Qltb (v - i) 0) eqn:E1; destruct (Qltb v i) eqn:E2.
  - ring.
  - apply Qltb_true in E1. apply Qltb_false in E2. lra.
  - apply Qltb_false in E1. apply Qltb_true in E2. lra.
  - reflexivity.
Qed.

(** C2 (amended).  In exact arithmetic, whenever [show_image] draws a tile,
    the crop bounds before rounding are the edges of the intersection of the
    image box with the visible area, measured from the image's top-left corner
    and divided by the zoom factor; the extents of the crop are the extents of
    the intersection divided by the zoom factor.  At zoom factor 2 with the
    visible area (10,10)-(50,50) and the image box (0,0)-(200,200) the bounds
    are (5,5)-(25,25), and the extents 20 by 20. *)
Theorem show_image_crop_bounds :
  (forall (zoom : Q) (b0 b1 b2 b3 : Z) (v0 v1 v2 v3 : Q)
          (scroll : Q * Q * Q * Q) (t : tile),
      show_image_tile exact zoom (b0, b1, b2, b3) (v0, v1, v2, v3)
      = Ok (scroll, Some t) ->
      let i0 := inject_Z (b0 + 1) in
      let i1 := inject_Z (b1 + 1) in
      let i2 := inject_Z (b2 - 1) in
      let i3 := inject_Z (b3 - 1) in
      (des_x1 t == (pymax v0 i0 - i0) / zoom)%Q /\
      (des_y1 t == (pymax v1 i1 - i1) / zoom)%Q /\
      (des_x2 t == (pymin v2 i2 - i0) / zoom)%Q /\
      (des_y2 t == (pymin v3 i3 - i1) / zoom)%Q /\
      (des_x2 t - des_x1 t == (pymin v2 i2 - pymax v0 i0) / zoom)%Q /\
      (des_y2 t - des_y1 t == (pymin v3 i3 - pymax v1 i1) / zoom)%Q) /\
  match show_image_tile exact 2 (-1, -1, 201, 201) (10, 10, 50, 50)%Q with
  | Ok (_, Some t) =>
      (des_x1 t == 5 /\ des_y1 t == 5 /\ des_x2 t == 25 /\ des_y2 t == 25 /\
       des_x2 t - des_x1 t == 20 /\ des_y2 t - des_y1 t == 20)%Q
  | _ => False
  end.
Proof.
  split.
  - intros zoom b0 b1 b2 b3 v0 v1 v2 v3 scroll t H. cbv zeta.
    unfold show_image_tile in H.
    match type of H with
    | context [if ?g then _ else _] =>
        lazymatch g with
        | andb _ _ => destruct g; [|discriminate H]
        end
    end.
    unfold pydiv in H.
    repeat match type of H with
           | context [if Qeq_bool ?d 0 then _ else _] =>
               destruct (Qeq_bool d 0) eqn:?; cbn [rbind] in H;
               try discriminate H
           end.
    injection H as _ <-. cbn [des_x1 des_y1 des_x2 des_y2].
    unfold fdiv, fsub, exact.
    assert (Hz : ~ (zoom == 0)%Q).
    { match goal with
      | E : Qeq_bool zoom 0 = false |- _ => apply Qeq_bool_neq in E; exact E
      end. }
    pose proof (pymax_shift v0 (inject_Z (b0 + 1))) as Px.
    pose proof (pymax_shift v1 (inject_Z (b1 + 1))) as Py.
    split; [|split; [|split; [|split; [|split]]]].
    + rewrite Px. reflexivity.
    + rewrite Py. reflexivity.
    + reflexivity.
    + reflexivity.
    + rewrite Px. field. exact Hz.
    + rewrite Py. field. exact Hz.
  - vm_compute. repeat split.
Qed.

(** The scenario itself, run through the general statement. *)
Lemma show_image_crop_bounds_witness :
  exists scroll t,
    show_image_tile exact 2 (-1, -1, 201, 201) (10, 10, 50, 50)%Q
    = Ok (scroll, Some t) /\
    (des_x2 t - des_x1 t == (pymin 50 (inject_Z 200) - pymax 10 (inject_Z 0)) / 2)%Q.
Proof.
  destruct (show_image_tile exact 2 (-1, -1, 201, 201) (10, 10, 50, 50)%Q)
    as [[scroll [t|]]|e] eqn:E; try (vm_compute in E; discriminate E).
  exists scroll, t. split; [reflexivity|].
  destruct show_image_crop_bounds as [H _].
  destruct (H 2%Q (-1) (-1) 201 201 10%Q 10%Q 50%Q 50%Q scroll t E)
    as (_ & _ & _ & _ & Hw & _).
  exact Hw.
Defined.

(** C2, as stated, fails: the bounds computed are (5,5)-(25,25), not
    (5,5)-(20,20).  If (0,0)-(200,200) is instead what [canvas.bbox] returns,
    before the one-pixel adjustment, the bounds are (4.5,4.5)-(24.5,24.5). *)
Lemma crop_bounds_are_not_5_5_20_20 :
  match show_image_tile exact 2 (-1, -1, 201, 201) (10, 10, 50, 50)%Q with
  | Ok (_, Some t) =>
      (des_x1 t == 5 /\ des_y1 t == 5 /\ des_x2 t == 25 /\ des_y2 t == 25)%Q /\
      ~ (des_x2 t == 20)%Q /\ ~ (des_y2 t == 20)%Q
  | _ => False
  end /\
  match show_image_tile exact 2 (0, 0, 200, 200) (10, 10, 50, 50)%Q with
  | Ok (_, Some t) =>
      (des_x1 t == 9 # 2 /\ des_y1 t == 9 # 2 /\
       des_x2 t == 49 # 2 /\ des_y2 t == 49 # 2)%Q /\
      ~ (des_x2 t == 20)%Q /\ ~ (des_y2 t == 20)%Q
  | _ => False
  end.
Proof.
  split; vm_compute;
    repeat match goal with |- _ /\ _ => split end;
    first [reflexivity | discriminate].
Qed.

(** ** Further properties, in exact arithmetic and on the sample world *)

Lemma exact_div_sample (z d : Z) :
  0 <= z -> 0 < d -> z < d * 256 ->
  astype_uint8 (fdiv exact (inject_Z z) (inject_Z d)) = z / d /\
  is_uint8 (z / d).
Proof.
  intros Hz Hd Hlt.
  assert (R : 0 <= z / d <= 255).
  { split; [apply Z.div_pos; lia|].
    apply Z.lt_succ_r. apply Z.div_lt_upper_bound; lia. }
  split; [|exact R]. unfold astype_uint8, fdiv, exact.
  rewrite trunc_floor.
  - rewrite <- Zdiv_Qdiv. apply uint8_small. exact R.
  - unfold Qdiv. apply Qmult_le_0_compat.
    + apply inject_Z_nonneg. exact Hz.
    + apply Qinv_le_0_compat. apply inject_Z_nonneg. lia.
Qed.

(** X19. In exact arithmetic, an array of non-negative integer samples whose
    largest sample [m] satisfies [256 <= m < 67840] (every 10-, 12- or 16-bit
    image is one) is rescaled without wrap-around: each sample [z] becomes
    the integer quotient [z / d], with [d] = 265, 16 or 4 according to [m],
    and every result lies in [0, 255]. *)
Theorem rescale_data_divides_integers (sh : list nat) (zs : list Z) (m : Z) :
  Forall (fun z => 0 <= z) zs -> In m zs -> (forall z, In z zs -> z <= m) ->
  256 <= m < 67840 ->
  let d := if 4096 <=? m then 265 else if 1024 <=? m then 16 else 4 in
  rescale_data exact (mk_ndarray sh (map inject_Z zs)) =
    Ok (mk_ndarray sh (map (fun z => z / d) zs)) /\
  Forall is_uint8 (map (fun z => z / d) zs).
Proof.
  intros Hpos Hin Hmax Hm. cbv zeta.
  assert (Hne : zs <> []) by (intros ->; contradiction Hin).
  destruct (array_max_integers sh zs Hne) as (m' & Em & Hin' & Hmax').
  assert (E : m' = m)
    by (apply Z.le_antisymm; [apply Hmax | apply Hmax']; assumption).
  subst m'. rewrite Forall_forall in Hpos.
  assert (Cell : forall d, 0 < d -> m < d * 256 ->
            rescale_data exact (mk_ndarray sh (map inject_Z zs)) =
              Ok (amap astype_uint8
                    (amap (fun x => fdiv exact x (inject_Z d))
                          (mk_ndarray sh (map inject_Z zs)))) ->
            rescale_data exact (mk_ndarray sh (map inject_Z zs)) =
              Ok (mk_ndarray sh (map (fun z => z / d) zs)) /\
            Forall is_uint8 (map (fun z => z / d) zs)).
  { intros d Hd Hlt R. split.
    - rewrite R. unfold amap. simpl. f_equal. f_equal.
      rewrite !map_map. apply map_ext_in. intros z Hz.
      apply exact_div_sample; [apply Hpos; exact Hz | exact Hd|].
      specialize (Hmax z Hz). lia.
    - apply Forall_forall. intros x Hx. apply in_map_iff in Hx.
      destruct Hx as (z & <- & Hz).
      apply exact_div_sample; [apply Hpos; exact Hz | exact Hd|].
      specialize (Hmax z Hz). lia. }
  assert (Sel : rescale_data exact (mk_ndarray sh (map inject_Z zs)) =
                Ok (amap astype_uint8
                      (if 4096 <=? m
                       then amap (fun x => fdiv exact x 265)
                                 (mk_ndarray sh (map inject_Z zs))
                       else if 1024 <=? m
                       then amap (fun x => fdiv exact x 16)
                                 (mk_ndarray sh (map inject_Z zs))
                       else amap (fun x => fdiv exact x 4)
                                 (mk_ndarray sh (map inject_Z zs))))).
  { unfold rescale_data. rewrite Em.
    change 4096%Q with (inject_Z 4096). change 1024%Q with (inject_Z 1024).
    change 256%Q with (inject_Z 256). rewrite !Qle_bool_inject.
    destruct (4096 <=? m); [reflexivity|].
    destruct (1024 <=? m); [reflexivity|].
    destruct (Z.leb_spec 256 m); [reflexivity | lia]. }
  destruct (Z.leb_spec 4096 m); [apply Cell; [lia | lia | exact Sel]|].
  destruct (Z.leb_spec 1024 m); [apply Cell; [lia | lia | exact Sel]|].
  apply Cell; [lia | lia | exact Sel].
Qed.

(** A 16-bit image with maximum 65535. *)
Lemma rescale_data_divides_integers_witness :
  Forall (fun z => 0 <= z) [0; 5000; 65535; 264] /\
  In 65535 [0; 5000; 65535; 264] /\
  (forall z, In z [0; 5000; 65535; 264] -> z <= 65535) /\
  256 <= 65535 < 67840 /\
  rescale_data exact (mk_ndarray [2; 2]%nat (map inject_Z [0; 5000; 65535; 264])) =
    Ok (mk_ndarray [2; 2]%nat [0; 18; 247; 0]).
Proof.
  assert (H1 : Forall (fun z => 0 <= z) [0; 5000; 65535; 264])
    by (repeat constructor; lia).
  assert (H2 : In 65535 [0; 5000; 65535; 264]) by (simpl; tauto).
  assert (H3 : forall z, In z [0; 5000; 65535; 264] -> z <= 65535)
    by (simpl; intros z Hz; lia).
  assert (H4 : 256 <= 65535 < 67840) by lia.
  split; [exact H1|]. split; [exact H2|]. split; [exact H3|]. split; [exact H4|].
  exact (proj1 (rescale_data_divides_integers [2; 2]%nat [0; 5000; 65535; 264]
                  65535 H1 H2 H3 H4)).
Defined.

(** *** The properties on concrete windows *)

(** 100 written to the min bound of a fresh window. *)
Lemma every_write_keeps_min_below_max_witness :
  0 <= 100 <= 255 /\
  min_display_value
    (state_after (min_display_value_set exact pil_uint8 sample_toolkit 100 (init 500 500))) <
  max_display_value
    (state_after (min_display_value_set exact pil_uint8 sample_toolkit 100 (init 500 500))).
Proof.
  assert (H : 0 <= 100 <= 255) by lia.
  split; [exact H|].
  exact (proj1 (proj1 (every_write_keeps_min_below_max exact pil_uint8 sample_toolkit
                         (init 500 500) 100 H))).
Defined.

(** 40 written to the min bound while the dialog points at channel 0. *)
Lemma write_is_stored_in_dialog_pair_witness :
  let s' := state_after (min_display_value_set exact pil_uint8 sample_toolkit 40 dialog_state) in
  display_popup dialog_state = Some (mk_DisplayPopup 2 false) /\
  (2 + 1 < List.length (display_values_array dialog_state))%nat /\
  nth_error (display_values_array s') 2 = Some (min_display_value s') /\
  nth_error (display_values_array s') 3 = Some (max_display_value s') /\
  display_values_array s' = [0; 255; 40; 255; 0; 255; 50; 100].
Proof.
  cbv zeta.
  assert (Hfit : (offset (mk_DisplayPopup 2 false) + 1 <
                  List.length (display_values_array dialog_state))%nat)
    by (simpl; lia).
  split; [reflexivity|]. split; [exact Hfit|].
  destruct (write_is_stored_in_dialog_pair exact pil_uint8 sample_toolkit dialog_state
              (mk_DisplayPopup 2 false) 40 eq_refl eq_refl Hfit
              (state_after (min_display_value_set exact pil_uint8 sample_toolkit 40 dialog_state))
              (or_introl eq_refl)) as (N0 & N1 & _).
  split; [exact N0|]. split; [exact N1|]. vm_compute. reflexivity.
Defined.

(** Channel 0 chosen in the dialog. *)
Lemma channel_mode_select_loads_pair_witness :
  selected_channel "Channel 0" = Ok 0 /\
  exists s',
    channel_mode_select exact pil_uint8 sample_toolkit "Channel 0" dialog_state = (Ok tt, s') /\
    bounds s' = (10, 200) /\
    display_values_array s' = display_values_array dialog_state /\
    per_channel_contrast s' = true.
Proof.
  assert (Hsel : selected_channel "Channel 0" = Ok 0) by (vm_compute; reflexivity).
  assert (H0 : 0 <= 10) by lia.
  assert (H1 : 10 < 200) by lia.
  assert (H2 : 200 <= 255) by lia.
  split; [exact Hsel|].
  destruct (channel_mode_select_loads_pair exact pil_uint8 sample_toolkit dialog_state
              (mk_DisplayPopup 2 false) "Channel 0" 0 10 200
              eq_refl Hsel eq_refl eq_refl H0 H1 H2)
    as (s' & R & B & A & _ & C).
  exists s'. split; [exact R|]. split; [exact B|]. split; [exact A | exact C].
Defined.

(** From the window (10, 200) of channel 0 to channel 2 and back. *)
Lemma channel_round_trip_witness :
  let s := set_min_display_value 10 (set_max_display_value 200 dialog_state) in
  window_in_range s /\
  exists s1 s2,
    channel_mode_select exact pil_uint8 sample_toolkit "Channel 2" s = (Ok tt, s1) /\
    channel_mode_select exact pil_uint8 sample_toolkit "Channel 0" s1 = (Ok tt, s2) /\
    bounds s2 = (10, 200).
Proof.
  cbv zeta.
  assert (W : window_in_range
                (set_min_display_value 10 (set_max_display_value 200 dialog_state)))
    by (unfold window_in_range; simpl; lia).
  assert (S0 : selected_channel "Channel 0" = Ok 0) by (vm_compute; reflexivity).
  assert (S2 : selected_channel "Channel 2" = Ok 2) by (vm_compute; reflexivity).
  split; [exact W|].
  destruct (channel_round_trip exact pil_uint8 sample_toolkit
              (set_min_display_value 10 (set_max_display_value 200 dialog_state))
              (mk_DisplayPopup 2 false) "Channel 0" "Channel 2" 0 2 50 100
              eq_refl S0 S2 eq_refl eq_refl eq_refl eq_refl W)
    as (s1 & s2 & R1 & R2 & B & _).
  exists s1, s2. split; [exact R1|]. split; [exact R2 | exact B].
Defined.

(** Automatic contrast on a buffer with samples from 20 to 150. *)
Lemma auto_contrast_window_witness :
  let s := set_scaled_image_data (Some buffer_mid)
             (set_file (Some "x.png") (init 500 500)) in
  file_loaded s = true /\
  buffer_min buffer_mid = Ok 20 /\ buffer_max buffer_mid = Ok 150 /\
  bounds (state_after (auto_contrast exact pil_uint8 sample_toolkit s)) = (20, 150).
Proof.
  cbv zeta.
  assert (H0 : 0 <= 20) by lia.
  assert (H1 : 20 <= 150) by lia.
  assert (H2 : 150 <= 255) by lia.
  assert (H3 : 20 < 150) by lia.
  split; [reflexivity|]. split; [reflexivity|]. split; [reflexivity|].
  exact (proj1 (auto_contrast_window exact pil_uint8 sample_toolkit
                  (set_scaled_image_data (Some buffer_mid)
                     (set_file (Some "x.png") (init 500 500)))
                  buffer_mid 20 150 eq_refl eq_refl eq_refl eq_refl H0 H1 H2) H3).
Defined.

(** The window (50, 100) over the samples 20, 50, 150, 100. *)
Lemma update_contrast_saturates_witness :
  let s := set_min_display_value 50
             (set_max_display_value 100
                (set_scaled_image_data (Some buffer_mid) (init 500 500))) in
  wide_window (bounds s) /\ Forall is_uint8 (data buffer_mid) /\
  exists a',
    displayed_image (state_after (update_contrast exact pil_uint8 sample_toolkit s))
      = Some a' /\
    data a' = map (display_sample exact 50 100) (data buffer_mid) /\
    display_sample exact 50 100 20 = 0 /\
    display_sample exact 50 100 150 = 255.
Proof.
  cbv zeta.
  assert (W : wide_window
                (bounds (set_min_display_value 50
                           (set_max_display_value 100
                              (set_scaled_image_data (Some buffer_mid)
                                 (init 500 500))))))
    by (unfold wide_window; simpl; lia).
  assert (U : Forall is_uint8 (data buffer_mid))
    by (simpl; repeat constructor; unfold is_uint8; lia).
  split; [exact W|]. split; [exact U|].
  destruct (update_contrast_saturates exact exact_mono exact_int pil_uint8 sample_toolkit
              (set_min_display_value 50
                 (set_max_display_value 100
                    (set_scaled_image_data (Some buffer_mid) (init 500 500))))
              buffer_mid eq_refl W eq_refl U eq_refl)
    as (a' & D & _ & E & Sat).
  exists a'. split; [exact D|]. split; [exact E|]. split.
  - apply (Sat 20); [simpl; tauto | simpl; lia].
  - apply (Sat 150); [simpl; tauto | simpl; lia].
Defined.

(** An 8-bit image, and a binary mask. *)
Lemma rescale_data_keeps_8bit_witness :
  Forall is_uint8 [20; 50; 150; 100] /\
  Exists (fun z => 2 <= z) [20; 50; 150; 100] /\
  rescale_data exact (mk_ndarray [2; 2]%nat (map inject_Z [20; 50; 150; 100])) =
    Ok (mk_ndarray [2; 2]%nat [20; 50; 150; 100]).
Proof.
  assert (U : Forall is_uint8 [20; 50; 150; 100])
    by (repeat constructor; unfold is_uint8; lia).
  assert (E : Exists (fun z => 2 <= z) [20; 50; 150; 100])
    by (apply Exists_cons_hd; lia).
  split; [exact U|]. split; [exact E|].
  exact (rescale_data_keeps_8bit exact [2; 2]%nat [20; 50; 150; 100] U E).
Defined.

Lemma rescale_data_blanks_binary_witness :
  [0; 1; 1; 0] <> [] /\
  Forall (fun z => 0 <= z <= 1) [0; 1; 1; 0] /\
  rescale_data exact (mk_ndarray [2; 2]%nat (map inject_Z [0; 1; 1; 0])) =
    Ok (mk_ndarray [2; 2]%nat [0; 0; 0; 0]).
Proof.
  assert (N : [0; 1; 1; 0] <> []) by discriminate.
  assert (B : Forall (fun z => 0 <= z <= 1) [0; 1; 1; 0])
    by (repeat constructor; lia).
  split; [exact N|]. split; [exact B|].
  exact (rescale_data_blanks_binary exact exact_mono exact_int [2; 2]%nat
           [0; 1; 1; 0] N B).
Defined.

(** Plane 3 of the five-plane stack, asked for with the slider. *)
Lemma set_z_plane_decodes_plane_witness :
  let s := opened "/d/stack.tif" in
  let r := reader_of [gray 2 2 10; gray 2 2 20; gray 2 2 30; gray 2 2 40; gray 2 2 50] in
  let s' := state_after (set_z_plane exact pil_uint8 sample_toolkit (PyInt 3) s) in
  file_loaded s = true /\ 0 < max_plane s /\ 0 <= 3 <= max_plane s /\
  3 <> displayed_plane s /\
  image_data s' = Some (gray 2 2 40) /\
  scaled_image_data s' = Some (mk_ndarray [2; 2]%nat [40; 40; 40; 40]) /\
  displayed_plane s' = 3 /\ z_display_value s' = 3.
Proof.
  cbv zeta.
  assert (Hf : file_loaded (opened "/d/stack.tif") = true) by (vm_compute; reflexivity).
  assert (Hm : max_plane (opened "/d/stack.tif") = 4) by (vm_compute; reflexivity).
  assert (Hd : displayed_plane (opened "/d/stack.tif") = 0) by (vm_compute; reflexivity).
  assert (Hr : reader (opened "/d/stack.tif") =
               Some (reader_of [gray 2 2 10; gray 2 2 20; gray 2 2 30;
                                gray 2 2 40; gray 2 2 50]))
    by (vm_compute; reflexivity).
  assert (Hp : 0 < max_plane (opened "/d/stack.tif")) by (rewrite Hm; reflexivity).
  assert (Hn : 0 <= 3 <= max_plane (opened "/d/stack.tif"))
    by (rewrite Hm; split; discriminate).
  assert (Hne : 3 <> displayed_plane (opened "/d/stack.tif"))
    by (rewrite Hd; discriminate).
  assert (Hsc : rescale_data exact (gray 2 2 40) =
                Ok (mk_ndarray [2; 2]%nat [40; 40; 40; 40]))
    by (vm_compute; reflexivity).
  split; [exact Hf|]. split; [exact Hp|]. split; [exact Hn|]. split; [exact Hne|].
  destruct (set_z_plane_decodes_plane exact pil_uint8 sample_toolkit (opened "/d/stack.tif")
              (reader_of [gray 2 2 10; gray 2 2 20; gray 2 2 30;
                          gray 2 2 40; gray 2 2 50])
              3 (gray 2 2 40) (mk_ndarray [2; 2]%nat [40; 40; 40; 40])
              Hf Hp Hn Hne Hr eq_refl Hsc)
    as (_ & I & S & D & Z0 & _).
  split; [exact I|]. split; [exact S|]. split; [exact D | exact Z0].
Defined.


(** [a.png] loaded over a window left at (40, 90). *)
Lemma load_image_resets_levels_witness :
  let s := set_min_display_value 40 (set_max_display_value 90 (init 500 500)) in
  let s1 := state_after (load_image_decode sample_get_reader
                           (sample_normpath "/d/a.png") (load_image_begin s)) in
  let s' := state_after (sample_load "/d/a.png" s) in
  load_image_decode sample_get_reader (sample_normpath "/d/a.png")
                    (load_image_begin s) = (Ok tt, s1) /\
  sample_load "/d/a.png" s = (Ok tt, s') /\
  bounds s' = (0, 255) /\ display_values_array s' = [0; 255] /\
  (width s', height s') = (30, 30).
Proof.
  cbv zeta.
  assert (Hd : load_image_decode sample_get_reader (sample_normpath "/d/a.png")
                 (load_image_begin
                    (set_min_display_value 40
                       (set_max_display_value 90 (init 500 500)))) =
               (Ok tt,
                state_after (load_image_decode sample_get_reader
                               (sample_normpath "/d/a.png")
                               (load_image_begin
                                  (set_min_display_value 40
                                     (set_max_display_value 90 (init 500 500)))))))
    by (vm_compute; reflexivity).
  assert (Hl : sample_load "/d/a.png"
                 (set_min_display_value 40 (set_max_display_value 90 (init 500 500))) =
               (Ok tt,
                state_after (sample_load "/d/a.png"
                               (set_min_display_value 40
                                  (set_max_display_value 90 (init 500 500))))))
    by (vm_compute; reflexivity).
  split; [exact Hd|]. split; [exact Hl|].
  destruct (load_image_resets_levels exact pil_uint8 sample_toolkit sample_get_reader
              sample_normpath
              (set_min_display_value 40 (set_max_display_value 90 (init 500 500)))
              _ _ "/d/a.png" Hd Hl)
    as (d & sc & _ & _ & B & _ & _ & _ & _ & _).
  split; [exact B|]. split; vm_compute; reflexivity.
Defined.

(** Per-channel contrast left on over a gray buffer. *)
Lemma per_channel_mode_outlives_dialog_witness :
  let s := set_per_channel_contrast true
             (set_scaled_image_data (Some buffer_mid) (init 500 500)) in
  display_popup s = None /\ per_channel_contrast s = true /\
  (List.length (shape buffer_mid) < 3)%nat /\
  per_channel_contrast (state_after (sample_load "/d/a.png" s)) = true /\
  update_contrast exact pil_uint8 sample_toolkit s = (Exc IndexError, s) /\
  displayed_image (state_after (min_display_value_set exact pil_uint8 sample_toolkit 80 s)) =
    displayed_image s.
Proof.
  cbv zeta.
  assert (L : (List.length (shape buffer_mid) < 3)%nat) by (simpl; lia).
  split; [reflexivity|]. split; [reflexivity|]. split; [exact L|].
  destruct (per_channel_mode_outlives_dialog exact pil_uint8 sample_toolkit sample_get_reader
              sample_normpath
              (set_per_channel_contrast true
                 (set_scaled_image_data (Some buffer_mid) (init 500 500)))
              buffer_mid) as (_ & A & B).
  split; [exact (A "/d/a.png" eq_refl)|].
  destruct (B eq_refl eq_refl L) as [U W].
  split; [exact U | exact (proj1 (W 80))].
Defined.

(** A step from [a.png], opened with no series yet. *)
Lemma navigation_keeps_index_in_series_witness :
  let s := opened "/d/a.png" in
  index_in_series s /\ fst (sample_make_file_list s) = Ok tt /\
  index_in_series (state_after (sample_next false s)) /\
  index_in_series (state_after (sample_prev false s)).
Proof.
  cbv zeta.
  assert (I : index_in_series (opened "/d/a.png"))
    by (left; vm_compute; reflexivity).
  assert (Hm : fst (sample_make_file_list (opened "/d/a.png")) = Ok tt)
    by (vm_compute; reflexivity).
  split; [exact I|]. split; [exact Hm|].
  exact (navigation_keeps_index_in_series exact pil_uint8 sample_toolkit sample_get_reader
           sample_normpath sample_listdir sample_abspath sample_dirname sample_join
           false (opened "/d/a.png") I (or_intror Hm)).
Defined.

(** The 30 x 30 image [a.png], on display in a 500 x 500 canvas and in a
    20 x 24 one. *)
Lemma first_show_image_never_enlarges_witness :
  let s := opened "/d/a.png" in
  let t := state_after (sample_load "/d/a.png" (init 20 24)) in
  (file_loaded s = true /\ 0 < width s /\ 0 < height s /\
   displayed_image s <> None /\
   width s <= winfo_width s /\ height s <= winfo_height s /\
   zoom_factor (state_after (first_show_image exact sample_toolkit true s)) = 1%Q) /\
  (file_loaded t = true /\ 0 < width t /\ 0 < height t /\
   displayed_image t <> None /\
   (zoom_factor (state_after (first_show_image exact sample_toolkit true t)) <= 1)%Q).
Proof.
  cbv zeta.
  assert (Hf : file_loaded (opened "/d/a.png") = true) by (vm_compute; reflexivity).
  assert (Hw : 0 < width (opened "/d/a.png")) by (vm_compute; reflexivity).
  assert (Hh : 0 < height (opened "/d/a.png")) by (vm_compute; reflexivity).
  assert (Hi : displayed_image (opened "/d/a.png") <> None)
    by (vm_compute; discriminate).
  assert (Lw : width (opened "/d/a.png") <= winfo_width (opened "/d/a.png"))
    by (vm_compute; discriminate).
  assert (Lh : height (opened "/d/a.png") <= winfo_height (opened "/d/a.png"))
    by (vm_compute; discriminate).
  assert (Tf : file_loaded (state_after (sample_load "/d/a.png" (init 20 24))) = true)
    by (vm_compute; reflexivity).
  assert (Tw : 0 < width (state_after (sample_load "/d/a.png" (init 20 24))))
    by (vm_compute; reflexivity).
  assert (Th : 0 < height (state_after (sample_load "/d/a.png" (init 20 24))))
    by (vm_compute; reflexivity).
  assert (Ti : displayed_image (state_after (sample_load "/d/a.png" (init 20 24)))
               <> None)
    by (vm_compute; discriminate).
  split.
  - split; [exact Hf|]. split; [exact Hw|]. split; [exact Hh|].
    split; [exact Hi|]. split; [exact Lw|]. split; [exact Lh|].
    exact (proj2 (first_show_image_never_enlarges exact exact_mono exact_int
                    sample_toolkit (opened "/d/a.png") Hf Hw Hh) Lw Lh).
  - split; [exact Tf|]. split; [exact Tw|]. split; [exact Th|].
    split; [exact Ti|].
    exact (proj1 (first_show_image_never_enlarges exact exact_mono exact_int
                    sample_toolkit
                    (state_after (sample_load "/d/a.png" (init 20 24)))
                    Tf Tw Th)).
Defined.

(** A path with a space, dropped in braces onto an empty window. *)
Lemma on_drop_single_file_witness :
  file_loaded (init 500 500) = false /\
  contains "}" "/d/my a.png" = false /\ contains "010" "/d/my a.png" = false /\
  on_drop exact pil_uint8 sample_toolkit sample_get_reader sample_normpath sample_new_window
          "{/d/my a.png}" (init 500 500) =
  sample_load "/d/my a.png" (init 500 500).
Proof.
  split; [reflexivity|]. split; [reflexivity|]. split; [reflexivity|].
  exact (proj1 (on_drop_single_file exact pil_uint8 sample_toolkit sample_get_reader
                  sample_normpath sample_new_window (init 500 500) "/d/my a.png"
                  eq_refl) eq_refl eq_refl).
Defined.

(** Three names dropped onto a window that shows [a.png]: the braced one
    comes first, and the text file is skipped. *)
Lemma on_drop_leaves_loaded_window_witness :
  file_loaded (opened "/d/a.png") = true /\
  filter supported (drop_targets "/d/c.JPG notes.txt {/d/b b.png}") =
    ["/d/b b.png"; "/d/c.JPG"] /\
  on_drop exact pil_uint8 sample_toolkit sample_get_reader sample_normpath
          sample_new_window "/d/c.JPG notes.txt {/d/b b.png}" (opened "/d/a.png") =
  (Ok tt, opened "/d/a.png").
Proof.
  assert (Hf : file_loaded (opened "/d/a.png") = true) by (vm_compute; reflexivity).
  assert (F : filter supported (drop_targets "/d/c.JPG notes.txt {/d/b b.png}") =
              ["/d/b b.png"; "/d/c.JPG"]) by (vm_compute; reflexivity).
  split; [exact Hf|]. split; [exact F|].
  rewrite (on_drop_leaves_loaded_window exact pil_uint8 sample_toolkit
             sample_get_reader sample_normpath sample_new_window
             (opened "/d/a.png") "/d/c.JPG notes.txt {/d/b b.png}" Hf).
  rewrite F. reflexivity.
Defined.

(** The dialog cancelled, and [c.JPG] chosen, in a window that has stepped
    from [a.png] through its series. *)
Lemma open_file_empties_series_witness :
  let s := state_after (sample_next false (opened "/d/a.png")) in
  file_list s <> [] /\
  open_file exact pil_uint8 sample_toolkit sample_get_reader sample_normpath "" s =
    (Ok tt, s) /\
  file_list (state_after (open_file exact pil_uint8 sample_toolkit sample_get_reader
                            sample_normpath "/d/a.png" s)) = [] /\
  current_index (state_after (open_file exact pil_uint8 sample_toolkit
                                sample_get_reader sample_normpath "/d/a.png" s)) =
    current_index s.
Proof.
  cbv zeta.
  assert (N : file_list (state_after (sample_next false (opened "/d/a.png"))) <> [])
    by (vm_compute; discriminate).
  assert (C : "/d/a.png" <> EmptyString) by discriminate.
  split; [exact N|]. split.
  - exact (proj1 (open_file_empties_series exact pil_uint8 sample_toolkit
                    sample_get_reader sample_normpath
                    (state_after (sample_next false (opened "/d/a.png"))) "")
             eq_refl).
  - pose proof (proj2 (open_file_empties_series exact pil_uint8 sample_toolkit
                         sample_get_reader sample_normpath
                         (state_after (sample_next false (opened "/d/a.png")))
                         "/d/a.png") C) as K.
    cbv zeta in K. destruct K as (K1 & K2 & _). split; [exact K1 | exact K2].
Defined.

(** The image box (0,0)-(200,200) with the view scrolled to x from 300. *)
Lemma show_image_tile_outside_witness :
  (inject_Z (200 - 1) <= 300)%Q /\
  exists scroll,
    show_image_tile exact 2%Q (0, 0, 200, 200) (300%Q, 10%Q, 350%Q, 50%Q) =
    Ok (scroll, None).
Proof.
  assert (H : (inject_Z (200 - 1) <= 300)%Q) by discriminate.
  split; [exact H|].
  exact (show_image_tile_outside exact exact_mono exact_int 2%Q 0 0 200 200
           300%Q 10%Q 350%Q 50%Q (or_intror (or_introl H))).
Defined.
